(** * PDF-Pile: selection-to-annotation mapping, undo history and document store

    A shallow embedding of the annotation core of the PDF view page
    (the [PdfViewPage] component with notes and undo) and of the
    [PUT]/[GET] handlers of the Express server.

    Modelling conventions.
    - A JavaScript [number] that carries a coordinate is an exact rational
      ([Q]); rounding of IEEE doubles is not modelled.  Comparisons are the
      boolean ones of [QArith].
    - A page index is a natural number ([N]): it is what [parseInt] returns
      on the digits of [data-testid], or an array position.
    - A [DOMRect] coming from layout has [right = left + width] and
      [bottom = top + height].
    - React state and refs are one record that every handler threads
      through.  An updater passed to [setCurrentPdf] runs once in a
      production build and twice in a development build, where [main.tsx]
      mounts the application in [React.StrictMode]; the state it returns is
      the same both times, what it does to a ref is done twice.
    - Strings are sequences of bytes in UTF-8; whitespace is the ECMAScript
      [WhiteSpace] and [LineTerminator] sets, each code point in its UTF-8
      encoding. *)

From Stdlib Require Import List String Ascii Bool Arith NArith ZArith QArith.
From Stdlib Require Import Lia Lqa Sorted Permutation.
Import ListNotations.

Set Implicit Arguments.

(* ================================================================== *)
(** ** Small list helpers mirroring the array methods the code uses    *)
(* ================================================================== *)

(** [Array.prototype.map] with the index argument, starting at [i]. *)
Fixpoint mapi_from {A B : Type} (f : nat -> A -> B) (i : nat) (l : list A) : list B :=
  match l with
  | [] => []
  | a :: l' => f i a :: mapi_from f (S i) l'
  end.

Definition mapi {A B : Type} (f : nat -> A -> B) (l : list A) : list B :=
  mapi_from f 0 l.

(** [Array.prototype.pop]: the array without its last element, and that element. *)
Definition pop {A : Type} (l : list A) : option (list A * A) :=
  match rev l with
  | [] => None
  | a :: r => Some (rev r, a)
  end.

(** [Array.prototype.shift] seen on the remaining array. *)
Definition shift {A : Type} (l : list A) : list A := tl l.

(** [n] applications of [f]. *)
Fixpoint iter {A : Type} (n : nat) (f : A -> A) (a : A) : A :=
  match n with
  | O => a
  | S n' => iter n' f (f a)
  end.

(* ================================================================== *)
(** ** Numbers                                                         *)
(* ================================================================== *)

Definition Qgtb (a b : Q) : bool := negb (Qle_bool a b).
Definition Qgeb (a b : Q) : bool := Qle_bool b a.
Definition Qleb (a b : Q) : bool := Qle_bool a b.

(* ================================================================== *)
(** ** Data model                                                      *)
(* ================================================================== *)

(** Screen-space rectangle as the browser reports it. *)
Module DOMRect.
Record t : Type := mk { left : Q; top : Q; width : Q; height : Q }.
Definition right (r : t) : Q := left r + width r.
Definition bottom (r : t) : Q := top r + height r.
End DOMRect.

(** [interface Rect]: page-relative percentages. *)
Module Rect.
Record t : Type := mk { x : Q; y : Q; width : Q; height : Q }.

End Rect.

Inductive AnnotationType : Type := highlight | underline.

(** [type AnnotationMode = 'highlight' | 'underline' | 'cursor']. *)
Inductive AnnotationMode : Type :=
| annotate (t : AnnotationType)
| cursor.

Module Annotation.
Record t : Type := mk {
  id : string;
  type : AnnotationType;
  pageIndex : N;
  rects : list Rect.t;
  note : option string   (* [note?: string]; [None] is [undefined] *)
}.

(** [{ ...annotation, note }] *)
Definition with_note (a : t) (n : option string) : t :=
  mk (id a) (type a) (pageIndex a) (rects a) n.
End Annotation.

Module PDF.
Record t : Type := mk {
  id : string;
  title : string;
  path : string;
  annotations : list Annotation.t
}.

(** [{ ...prev, annotations }] *)
Definition with_annotations (p : t) (l : list Annotation.t) : t :=
  mk (id p) (title p) (path p) l.
End PDF.

Definition HISTORY_LIMIT : nat := 50.

Definition cloneAnnotations (annotations : list Annotation.t) : list Annotation.t :=
  map (fun annotation =>
         Annotation.mk
           (Annotation.id annotation)
           (Annotation.type annotation)
           (Annotation.pageIndex annotation)
           (map (fun rect =>
                   Rect.mk (Rect.x rect) (Rect.y rect) (Rect.width rect) (Rect.height rect))
                (Annotation.rects annotation))
           (Annotation.note annotation))
      annotations.

(* ================================================================== *)
(** ** A JavaScript object used as [Record<number, V>]                 *)
(* ================================================================== *)

(** Own properties are kept in creation order.  [entries] lists them the
    way [Object.entries] does: the keys that are array indices
    (below [2^32 - 1]) in ascending numeric order, then the other keys in
    creation order. *)
Module JsRecord.
Section WithValue.
Variable V : Type.

Definition t : Type := list (N * V).

Definition empty : t := [].

Fixpoint get (k : N) (o : t) : option V :=
  match o with
  | [] => None
  | (k', v) :: o' => if N.eqb k k' then Some v else get k o'
  end.

(** [o[k] = v]: an existing property keeps its place, a new one is created last. *)
Fixpoint set (k : N) (v : V) (o : t) : t :=
  match o with
  | [] => [(k, v)]
  | (k', v') :: o' =>
      if N.eqb k k' then (k, v) :: o' else (k', v') :: set k v o'
  end.

Definition is_array_index (k : N) : bool := N.ltb k 4294967295.

Fixpoint insert_sorted (e : N * V) (l : list (N * V)) : list (N * V) :=
  match l with
  | [] => [e]
  | e' :: l' =>
      if N.leb (fst e) (fst e') then e :: l else e' :: insert_sorted e l'
  end.

Definition sort_by_key (l : list (N * V)) : list (N * V) :=
  fold_right insert_sorted [] l.

Definition entries (o : t) : list (N * V) :=
  sort_by_key (filter (fun e => is_array_index (fst e)) o)
  ++ filter (fun e => negb (is_array_index (fst e))) o.

Definition keys (o : t) : list N := map fst o.
End WithValue.
End JsRecord.

(* ================================================================== *)
(** ** Geometry mapper: the body of [persistSelection]                 *)
(* ================================================================== *)

(** One element of [pageLayers]. *)
Module PageLayer.
Record t : Type := mk { rect : DOMRect.t; pageIndex : N }.
End PageLayer.

(** A [.rpv-core__page-layer] element: its bounding box and, when its
    [data-testid] matches [core__page-layer-(\d+)], the number matched. *)
Record LayerElement : Type := {
  boundingClientRect : DOMRect.t;
  testIdIndex : option N
}.

Definition pageLayersOf (layers : list LayerElement) : list PageLayer.t :=
  mapi (fun fallbackIndex layer =>
          PageLayer.mk (boundingClientRect layer)
            (match testIdIndex layer with
             | Some n => n
             | None => N.of_nat fallbackIndex
             end))
       layers.

(** [rect => rect.width > 0 && rect.height > 0] *)
Definition nonDegenerate (rect : DOMRect.t) : bool :=
  Qgtb (DOMRect.width rect) 0 && Qgtb (DOMRect.height rect) 0.

Definition centerX (rect : DOMRect.t) : Q := DOMRect.left rect + DOMRect.width rect / 2.
Definition centerY (rect : DOMRect.t) : Q := DOMRect.top rect + DOMRect.height rect / 2.

(** The predicate given to [pageLayers.find]. *)
Definition containsCenter (rect : DOMRect.t) (page : PageLayer.t) : bool :=
  Qgeb (centerX rect) (DOMRect.left (PageLayer.rect page)) &&
  Qleb (centerX rect) (DOMRect.right (PageLayer.rect page)) &&
  Qgeb (centerY rect) (DOMRect.top (PageLayer.rect page)) &&
  Qleb (centerY rect) (DOMRect.bottom (PageLayer.rect page)).

Definition targetPage (pageLayers : list PageLayer.t) (rect : DOMRect.t)
  : option PageLayer.t :=
  find (containsCenter rect) pageLayers.

Definition relativeRect (rect : DOMRect.t) (page : DOMRect.t) : Rect.t :=
  Rect.mk
    (((DOMRect.left rect - DOMRect.left page) / DOMRect.width page) * 100)
    (((DOMRect.top rect - DOMRect.top page) / DOMRect.height page) * 100)
    ((DOMRect.width rect / DOMRect.width page) * 100)
    ((DOMRect.height rect / DOMRect.height page) * 100).

(** The body of [clientRects.forEach]. *)
Definition groupRect (pageLayers : list PageLayer.t)
  (groupedRects : JsRecord.t (list Rect.t)) (rect : DOMRect.t)
  : JsRecord.t (list Rect.t) :=
  match targetPage pageLayers rect with
  | None => groupedRects
  | Some page =>
      let k := PageLayer.pageIndex page in
      let relative := relativeRect rect (PageLayer.rect page) in
      let g :=
        match JsRecord.get k groupedRects with
        | None => JsRecord.set k [] groupedRects
        | Some _ => groupedRects
        end in
      match JsRecord.get k g with
      | Some rects => JsRecord.set k (rects ++ [relative]) g
      | None => g
      end
  end.

Definition groupRects (pageLayers : list PageLayer.t) (clientRects : list DOMRect.t)
  : JsRecord.t (list Rect.t) :=
  fold_left (groupRect pageLayers) clientRects (JsRecord.empty _).

(** [Object.entries(groupedRects).map(...)]; [uuid i] is what the [i]-th
    call of [uuidv4] returns; the key read back with [parseInt] is the
    page index it was created from. *)
Definition newAnnotationsOf (uuid : nat -> string) (mode : AnnotationType)
  (groupedRects : JsRecord.t (list Rect.t)) : list Annotation.t :=
  mapi (fun i entry =>
          Annotation.mk (uuid i) mode (fst entry) (snd entry) None)
       (JsRecord.entries groupedRects).

(** The annotations one selection gives: filter, group, emit. *)
Definition mapSelection (uuid : nat -> string) (mode : AnnotationType)
  (rangeRects : list DOMRect.t) (pageLayers : list PageLayer.t) : list Annotation.t :=
  newAnnotationsOf uuid mode
    (groupRects pageLayers (filter nonDegenerate rangeRects)).

(* ================================================================== *)
(** ** Strings                                                         *)
(* ================================================================== *)

(** The code points [String.prototype.trim] removes, in UTF-8: TAB, LF, VT,
    FF, CR, SP, U+00A0, U+1680, U+2000 to U+200A, U+2028, U+2029, U+202F,
    U+205F, U+3000 and U+FEFF. *)
Definition whiteSpaces : list (list ascii) :=
  map (map ascii_of_nat)
    [ [9]; [10]; [11]; [12]; [13]; [32];
      [194; 160];
      [225; 154; 128];
      [226; 128; 128]; [226; 128; 129]; [226; 128; 130]; [226; 128; 131];
      [226; 128; 132]; [226; 128; 133]; [226; 128; 134]; [226; 128; 135];
      [226; 128; 136]; [226; 128; 137]; [226; 128; 138];
      [226; 128; 168]; [226; 128; 169]; [226; 128; 175];
      [226; 129; 159];
      [227; 128; 128];
      [239; 187; 191] ]%nat.

(** What follows [w] in [l], when [l] starts with [w]. *)
Fixpoint stripPrefix (w l : list ascii) : option (list ascii) :=
  match w with
  | [] => Some l
  | c :: w' =>
      match l with
      | [] => None
      | c' :: l' => if Ascii.eqb c c' then stripPrefix w' l' else None
      end
  end.

(** What follows the first of [ws] that [l] starts with. *)
Fixpoint stripAny (ws : list (list ascii)) (l : list ascii) : option (list ascii) :=
  match ws with
  | [] => None
  | w :: ws' =>
      match stripPrefix w l with
      | Some rest => Some rest
      | None => stripAny ws' l
      end
  end.

(** Strips leading members of [ws], at most [fuel] of them. *)
Fixpoint stripLeading (ws : list (list ascii)) (fuel : nat) (l : list ascii)
  : list ascii :=
  match fuel with
  | O => l
  | S fuel' =>
      match stripAny ws l with
      | Some rest => stripLeading ws fuel' rest
      | None => l
      end
  end.

(** Strips every leading member of [ws]: each one takes a byte at least. *)
Definition trimStartBy (ws : list (list ascii)) (l : list ascii) : list ascii :=
  stripLeading ws (List.length l) l.

Definition trimStart (s : list ascii) : list ascii := trimStartBy whiteSpaces s.

(** [trimEnd], on the reversed text. *)
Definition trimStartRev (s : list ascii) : list ascii :=
  trimStartBy (map (@rev ascii) whiteSpaces) s.

(** [String.prototype.trim] *)
Definition trim (s : string) : string :=
  string_of_list_ascii
    (rev (trimStartRev (rev (trimStart (list_ascii_of_string s))))).

(** Truthiness of a string: only the empty string is falsy. *)
Definition truthy (s : string) : bool :=
  match s with
  | EmptyString => false
  | String _ _ => true
  end.

(** [s || undefined] *)
Definition orUndefined (s : string) : option string :=
  if truthy s then Some s else None.

(** Truthiness of [string | null] and of [string | undefined]. *)
Definition truthyOpt (s : option string) : bool :=
  match s with
  | Some s' => truthy s'
  | None => false
  end.

(** [a === b] on [string | undefined]. *)
Definition noteEqb (a b : option string) : bool :=
  match a, b with
  | None, None => true
  | Some s, Some s' => String.eqb s s'
  | _, _ => false
  end.

(* ================================================================== *)
(** ** What the handler reads from the browser                         *)
(* ================================================================== *)

Record Range : Type := {
  rangeText : string;              (* [range.toString()] *)
  rangeRects : list DOMRect.t      (* [range.getClientRects()] *)
}.

Record Selection : Type := {
  isCollapsed : bool;
  anchorInTextLayer : bool;        (* the anchor element has a [.rpv-core__text-layer] ancestor *)
  ranges : list Range
}.

Record Browser : Type := {
  selection : option Selection;    (* [window.getSelection()] *)
  layerElements : list LayerElement   (* [querySelectorAll('.rpv-core__page-layer')] *)
}.

(** [selection.removeAllRanges()] *)
Definition removeAllRanges (b : Browser) : Browser :=
  {| selection :=
       match selection b with
       | Some _ => Some {| isCollapsed := true; anchorInTextLayer := false; ranges := [] |}
       | None => None
       end;
     layerElements := layerElements b |}.

(* ================================================================== *)
(** ** Session state of the view page                                  *)
(* ================================================================== *)

Record State : Type := {
  currentPdf : option PDF.t;
  annotationMode : AnnotationMode;
  activeAnnotationId : option string;
  noteDraft : string;
  popupPosition : option (Q * Q);
  historyRef : list (list Annotation.t);   (* [historyRef.current], oldest first *)
  canUndo : bool
}.

Definition setCurrentPdf (p : option PDF.t) (st : State) : State :=
  {| currentPdf := p;
     annotationMode := annotationMode st;
     activeAnnotationId := activeAnnotationId st;
     noteDraft := noteDraft st;
     popupPosition := popupPosition st;
     historyRef := historyRef st;
     canUndo := canUndo st |}.

Definition setAnnotationMode (m : AnnotationMode) (st : State) : State :=
  {| currentPdf := currentPdf st;
     annotationMode := m;
     activeAnnotationId := activeAnnotationId st;
     noteDraft := noteDraft st;
     popupPosition := popupPosition st;
     historyRef := historyRef st;
     canUndo := canUndo st |}.

Definition setNoteDraft (s : string) (st : State) : State :=
  {| currentPdf := currentPdf st;
     annotationMode := annotationMode st;
     activeAnnotationId := activeAnnotationId st;
     noteDraft := s;
     popupPosition := popupPosition st;
     historyRef := historyRef st;
     canUndo := canUndo st |}.

(** Assignment to [historyRef.current] followed by
    [setCanUndo(historyRef.current.length > 0)]. *)
Definition setHistory (h : list (list Annotation.t)) (st : State) : State :=
  {| currentPdf := currentPdf st;
     annotationMode := annotationMode st;
     activeAnnotationId := activeAnnotationId st;
     noteDraft := noteDraft st;
     popupPosition := popupPosition st;
     historyRef := h;
     canUndo := 0 <? List.length h |}.

Definition initialState : State :=
  {| currentPdf := None;
     annotationMode := cursor;
     activeAnnotationId := None;
     noteDraft := EmptyString;
     popupPosition := None;
     historyRef := [];
     canUndo := false |}.

(** The annotation collection of the open document. *)
Definition annotationsOf (st : State) : list Annotation.t :=
  match currentPdf st with
  | Some pdf => PDF.annotations pdf
  | None => []
  end.

(** The successful branch of [fetchPdfData]. *)
Definition fetched (pdf : PDF.t) (st : State) : State :=
  {| currentPdf := Some pdf;
     annotationMode := annotationMode st;
     activeAnnotationId := activeAnnotationId st;
     noteDraft := noteDraft st;
     popupPosition := popupPosition st;
     historyRef := [];
     canUndo := false |}.

Definition pushHistorySnapshot (annotations : list Annotation.t) (st : State) : State :=
  let snapshot := cloneAnnotations annotations in
  let pushed := historyRef st ++ [snapshot] in
  setHistory (if HISTORY_LIMIT <? List.length pushed then shift pushed else pushed) st.

(** The build the page runs in.  [main.tsx] renders the application inside
    [React.StrictMode], which in a development build calls every updater
    function twice on the same previous state. *)
Inductive Build : Type := production | development.

(** How many times React calls an updater function. *)
Definition updaterRuns (build : Build) : nat :=
  match build with
  | production => 1
  | development => 2
  end.

(** The handler pushes the snapshot inside the updater it gives to
    [setCurrentPdf]: the push happens each time React calls the updater, the
    state set is what the updater returns. *)
Definition persistSelection (build : Build) (uuid : nat -> string) (b : Browser)
  (st : State) : Browser * State :=
  match annotationMode st with
  | cursor => (b, st)
  | annotate mode =>
      match selection b with
      | None => (b, st)
      | Some sel =>
          if isCollapsed sel then (b, st)
          else if negb (anchorInTextLayer sel) then (b, st)
          else
            match ranges sel with
            | [] => (b, st)
            | range :: _ =>
                if negb (truthy (trim (rangeText range))) then (b, st)
                else
                  let clientRects := filter nonDegenerate (rangeRects range) in
                  if List.length clientRects =? 0 then (b, st)
                  else
                    let pageLayers := pageLayersOf (layerElements b) in
                    if List.length pageLayers =? 0 then (b, st)
                    else
                      let newAnnotations :=
                        newAnnotationsOf uuid mode (groupRects pageLayers clientRects) in
                      if List.length newAnnotations =? 0 then (b, st)
                      else
                        (removeAllRanges b,
                         match currentPdf st with
                         | None => st
                         | Some prev =>
                             setCurrentPdf
                               (Some (PDF.with_annotations prev
                                        (PDF.annotations prev ++ newAnnotations)))
                               (iter (updaterRuns build)
                                  (pushHistorySnapshot (PDF.annotations prev)) st)
                         end)
            end
      end
  end.

Definition findAnnotation (annotationId : string) (l : list Annotation.t)
  : option Annotation.t :=
  find (fun a => String.eqb (Annotation.id a) annotationId) l.

Definition openAnnotationPopup (annotationId : string) (anchorRect : DOMRect.t)
  (st : State) : State :=
  let annotation := findAnnotation annotationId (annotationsOf st) in
  {| currentPdf := currentPdf st;
     annotationMode := annotationMode st;
     activeAnnotationId := Some annotationId;
     noteDraft :=
       match annotation with
       | Some a => match Annotation.note a with Some n => n | None => EmptyString end
       | None => EmptyString
       end;
     popupPosition :=
       Some (DOMRect.left anchorRect + DOMRect.width anchorRect / 2,
             DOMRect.bottom anchorRect + 8);
     historyRef := historyRef st;
     canUndo := canUndo st |}.

Definition closeAnnotationPopup (st : State) : State :=
  {| currentPdf := currentPdf st;
     annotationMode := annotationMode st;
     activeAnnotationId := None;
     noteDraft := EmptyString;
     popupPosition := None;
     historyRef := historyRef st;
     canUndo := canUndo st |}.

Definition handleUndo (st : State) : State :=
  match pop (historyRef st) with
  | None => st
  | Some (rest, previousAnnotations) =>
      closeAnnotationPopup
        (setCurrentPdf
           (match currentPdf st with
            | None => None
            | Some prev => Some (PDF.with_annotations prev previousAnnotations)
            end)
           (setHistory rest st))
  end.

(** The annotations after a note edit:
    [annotation.id === activeAnnotationId ? { ...annotation, note } : annotation]. *)
Definition replaceNote (activeId : string) (n : option string)
  (l : list Annotation.t) : list Annotation.t :=
  map (fun annotation =>
         if String.eqb (Annotation.id annotation) activeId
         then Annotation.with_note annotation n
         else annotation)
      l.

Definition handleSaveNote (st : State) : State :=
  match currentPdf st, activeAnnotationId st with
  | Some pdf, Some activeId =>
      if negb (truthy activeId) then st
      else
        match findAnnotation activeId (PDF.annotations pdf) with
        | None => st
        | Some targetAnnotation =>
            let trimmedNote := orUndefined (trim (noteDraft st)) in
            if noteEqb (Annotation.note targetAnnotation) trimmedNote
            then closeAnnotationPopup st
            else
              closeAnnotationPopup
                (setCurrentPdf
                   (Some (PDF.with_annotations pdf
                            (replaceNote activeId trimmedNote (PDF.annotations pdf))))
                   (pushHistorySnapshot (PDF.annotations pdf) st))
        end
  | _, _ => st
  end.

Definition handleDeleteAnnotation (st : State) : State :=
  match currentPdf st, activeAnnotationId st with
  | Some pdf, Some activeId =>
      if negb (truthy activeId) then st
      else
        let exists_ :=
          existsb (fun a => String.eqb (Annotation.id a) activeId) (PDF.annotations pdf) in
        if negb exists_ then closeAnnotationPopup st
        else
          closeAnnotationPopup
            (setCurrentPdf
               (Some (PDF.with_annotations pdf
                        (filter (fun a => negb (String.eqb (Annotation.id a) activeId))
                                (PDF.annotations pdf))))
               (pushHistorySnapshot (PDF.annotations pdf) st))
  | _, _ => st
  end.

Definition handleClearNote (st : State) : State :=
  match currentPdf st, activeAnnotationId st with
  | Some pdf, Some activeId =>
      if negb (truthy activeId) then st
      else
        match findAnnotation activeId (PDF.annotations pdf) with
        | None => st
        | Some targetAnnotation =>
            if negb (truthyOpt (Annotation.note targetAnnotation)) then st
            else
              setNoteDraft EmptyString
                (setCurrentPdf
                   (Some (PDF.with_annotations pdf
                            (replaceNote activeId None (PDF.annotations pdf))))
                   (pushHistorySnapshot (PDF.annotations pdf) st))
        end
  | _, _ => st
  end.

(** What can happen to the page, one event at a time.  A pointer release
    comes with the build the page runs in, which decides how often React
    calls the updater of [persistSelection]. *)
Inductive Event : Type :=
| Fetched (pdf : PDF.t)
| MouseUp (build : Build) (uuid : nat -> string) (b : Browser)
| SetMode (m : AnnotationMode)
| OpenPopup (annotationId : string) (anchorRect : DOMRect.t)
| ClosePopup
| TypeNote (draft : string)
| SaveNote
| DeleteAnnotation
| ClearNote
| Undo.

Definition step (st : State) (ev : Event) : State :=
  match ev with
  | Fetched pdf => fetched pdf st
  | MouseUp build uuid b => snd (persistSelection build uuid b st)
  | SetMode m => setAnnotationMode m st
  | OpenPopup annotationId anchorRect => openAnnotationPopup annotationId anchorRect st
  | ClosePopup => closeAnnotationPopup st
  | TypeNote draft => setNoteDraft draft st
  | SaveNote => handleSaveNote st
  | DeleteAnnotation => handleDeleteAnnotation st
  | ClearNote => handleClearNote st
  | Undo => handleUndo st
  end.

Definition run (evs : list Event) (st : State) : State := fold_left step evs st.

(** The events of an editing session: everything but a reload and an undo. *)
Definition isEdit (ev : Event) : bool :=
  match ev with
  | Fetched _ | Undo => false
  | _ => true
  end.

(* ================================================================== *)
(** ** Document store: the [GET] and [PUT] handlers of the server      *)
(* ================================================================== *)

(** A value read by [JSON.parse]. *)
#[local] Unset Elimination Schemes.
Inductive Json : Type :=
| JNull
| JBool (b : bool)
| JNumber (q : Q)
| JString (s : string)
| JArray (l : list Json)
| JObject (l : list (string * Json)).
#[local] Set Elimination Schemes.

Module Server.

(** A property read from a parsed object: [None] is [undefined]. *)
Definition Prop_ : Type := option Json.

(** [a ?? b] *)
Definition coalesce (a b : Prop_) : Prop_ :=
  match a with
  | None => b
  | Some JNull => b
  | Some v => Some v
  end.

(** An element of [db.pdfs].  The four properties the handler rewrites are
    kept apart from the others, which the spread copies unchanged.  The
    file only holds what [JSON.stringify] writes, so a property whose value
    is [undefined] is a missing property. *)
Module Stored.
Record t : Type := mk {
  id : string;
  title : Prop_;
  author : Prop_;
  journal : Prop_;
  annotations : Prop_;
  others : list (string * Json)
}.
End Stored.

(** [req.body] as far as the handler reads it. *)
Module Body.
Record t : Type := mk {
  title : Prop_;
  author : Prop_;
  journal : Prop_;
  annotations : Prop_
}.
End Body.

Definition DB : Type := list Stored.t.   (* [db.pdfs] *)

Inductive Response : Type :=
| Sent (status : nat) (record : Stored.t)     (* [res.status(s).json(record)] *)
| SentText (status : nat).                    (* [res.status(s).send(text)] *)

(** [Array.prototype.findIndex]; [None] stands for [-1]. *)
Fixpoint findIndex {A : Type} (p : A -> bool) (l : list A) : option nat :=
  match l with
  | [] => None
  | a :: l' =>
      if p a then Some 0%nat
      else match findIndex p l' with
           | Some i => Some (S i)
           | None => None
           end
  end.

(** [l[i] = v] for an index inside the array. *)
Fixpoint assign {A : Type} (i : nat) (v : A) (l : list A) : list A :=
  match l, i with
  | [], _ => []
  | _ :: l', O => v :: l'
  | a :: l', S i' => a :: assign i' v l'
  end.

Definition hasId (id : string) (p : Stored.t) : bool := String.eqb (Stored.id p) id.

(** [app.get('/api/pdfs/:id')] *)
Definition get (id : string) (db : DB) : Response :=
  match find (hasId id) db with
  | Some pdf => Sent 200 pdf
  | None => SentText 404
  end.

(** The object written to [db.pdfs[pdfIndex]]. *)
Definition merge (old : Stored.t) (body : Body.t) : Stored.t :=
  Stored.mk
    (Stored.id old)
    (coalesce (Body.title body) (Stored.title old))
    (coalesce (Body.author body) (Stored.author old))
    (coalesce (Body.journal body) (Stored.journal old))
    (coalesce (Body.annotations body) (Stored.annotations old))
    (Stored.others old).

(** [app.put('/api/pdfs/:id')]: the database written back and the response. *)
Definition put (id : string) (body : Body.t) (db : DB) : DB * Response :=
  match findIndex (hasId id) db with
  | None => (db, SentText 404)
  | Some pdfIndex =>
      match nth_error db pdfIndex with
      | None => (db, SentText 404)
      | Some old =>
          let db' := assign pdfIndex (merge old body) db in
          match nth_error db' pdfIndex with
          | Some updated => (db', Sent 200 updated)
          | None => (db', SentText 404)
          end
      end
  end.

(** A body property that [??] lets through: present and not [null]. *)
Definition provided (a : Prop_) : bool :=
  match a with
  | None => false
  | Some JNull => false
  | Some _ => true
  end.

End Server.

(* ================================================================== *)
(** ** Notions the properties are stated with                          *)
(* ================================================================== *)

(** The converted rects of the selection that the mapper gives to page
    index [k], in the order of the selection. *)
Definition assignedTo (pageLayers : list PageLayer.t) (k : N)
  (rects : list DOMRect.t) : list Rect.t :=
  flat_map (fun r =>
              match targetPage pageLayers r with
              | Some page =>
                  if N.eqb (PageLayer.pageIndex page) k
                  then [relativeRect r (PageLayer.rect page)]
                  else []
              | None => []
              end)
           rects.

(** The page index each rect of the selection is given to, one entry per
    rect that some page claims. *)
Definition targetIndices (pageLayers : list PageLayer.t)
  (rects : list DOMRect.t) : list N :=
  flat_map (fun r =>
              match targetPage pageLayers r with
              | Some page => [PageLayer.pageIndex page]
              | None => []
              end)
           rects.

(** [page] is the first layer, in document order, whose box contains the
    center of [rect]: no layer before it does. *)
Definition firstContaining (pageLayers : list PageLayer.t) (rect : DOMRect.t)
  (page : PageLayer.t) : Prop :=
  exists before after,
    pageLayers = before ++ page :: after
    /\ containsCenter rect page = true
    /\ forall q, In q before -> containsCenter rect q = false.

(** The pages whose bounding box contains the center of some rect. *)
Definition pagesHit (pageLayers : list PageLayer.t) (rects : list DOMRect.t)
  : list PageLayer.t :=
  filter (fun page => existsb (fun r => containsCenter r page) rects) pageLayers.

(** The invariant the data model states for a [Rect]. *)
Definition RectInvariant (r : Rect.t) : Prop :=
  0 <= Rect.x r /\ 0 <= Rect.y r /\
  Rect.x r + Rect.width r <= 100 /\ Rect.y r + Rect.height r <= 100 /\
  0 < Rect.width r /\ 0 < Rect.height r.

(** What the mapper guarantees for a [Rect]: a positive extent and a center
    inside the page. *)
Definition RectCentered (r : Rect.t) : Prop :=
  0 < Rect.width r /\ 0 < Rect.height r /\
  0 <= Rect.x r + Rect.width r / 2 /\ Rect.x r + Rect.width r / 2 <= 100 /\
  0 <= Rect.y r + Rect.height r / 2 /\ Rect.y r + Rect.height r / 2 <= 100.

Definition Q_eq_dec (a b : Q) : {a = b} + {a <> b}.
Proof. decide equality; [apply Pos.eq_dec | apply Z.eq_dec]. Defined.

Definition Rect_eq_dec (a b : Rect.t) : {a = b} + {a <> b}.
Proof. decide equality; apply Q_eq_dec. Defined.

Definition AnnotationType_eq_dec (a b : AnnotationType) : {a = b} + {a <> b}.
Proof. decide equality. Defined.

Definition Annotation_eq_dec (a b : Annotation.t) : {a = b} + {a <> b}.
Proof.
  decide equality.
  - decide equality. apply string_dec.
  - apply (list_eq_dec Rect_eq_dec).
  - apply N.eq_dec.
  - apply AnnotationType_eq_dec.
  - apply string_dec.
Defined.

(** The event changes the annotation collection. *)
Definition changes (st : State) (ev : Event) : bool :=
  if list_eq_dec Annotation_eq_dec (annotationsOf (step st ev)) (annotationsOf st)
  then false else true.

(** The collections that a run of events replaces, oldest first: one entry,
    the collection as it was, for every event that changes it. *)
Fixpoint priorStates (evs : list Event) (st : State) : list (list Annotation.t) :=
  match evs with
  | [] => []
  | ev :: evs' =>
      (if changes st ev then [annotationsOf st] else [])
      ++ priorStates evs' (step st ev)
  end.

(** How many snapshots the event pushes when it changes the collection:
    the pointer-release handler pushes in its updater, the other handlers
    push before they set the state. *)
Definition pushCount (ev : Event) : nat :=
  match ev with
  | MouseUp build _ _ => updaterRuns build
  | _ => 1
  end.

(** The event pushes one snapshot when it changes the collection. *)
Definition pushesOnce (ev : Event) : bool := pushCount ev =? 1.

(** The snapshots that a run of events pushes, oldest first. *)
Fixpoint snapshotsOf (evs : list Event) (st : State) : list (list Annotation.t) :=
  match evs with
  | [] => []
  | ev :: evs' =>
      (if changes st ev then repeat (annotationsOf st) (pushCount ev) else [])
      ++ snapshotsOf evs' (step st ev)
  end.

(** A note value that holds no text to show. *)
Definition blank (s : string) : Prop := trim s = EmptyString.

(** The session state the undo feature is about. *)
Definition core (st : State) : option PDF.t * list (list Annotation.t) * bool :=
  (currentPdf st, historyRef st, canUndo st).

(** The value under a key after more rects were pushed to it. *)
Definition extend (cur : option (list Rect.t)) (l : list Rect.t)
  : option (list Rect.t) :=
  match l with
  | [] => cur
  | _ :: _ => Some (match cur with Some l0 => l0 | None => [] end ++ l)
  end.

(* ================================================================== *)
(** ** Sample inputs                                                   *)
(* ================================================================== *)

(** The values [uuidv4] returns, for the examples: "a", "b", ... *)
Definition sampleUuid (i : nat) : string :=
  String (ascii_of_nat (97 + i)) EmptyString.

(** A page layer of 200 by 1000 pixels at the origin, page index 0. *)
Definition samplePage : PageLayer.t := PageLayer.mk (DOMRect.mk 0 0 200 1000) 0.

(** A line fragment inside [samplePage]. *)
Definition sampleRect : DOMRect.t := DOMRect.mk 10 10 50 5.

(** A fragment that starts left of [samplePage] and whose center is inside it. *)
Definition overhangingRect : DOMRect.t := DOMRect.mk (-10) 10 50 5.

(** Two pages of 100 by 100 pixels, the second right below the first. *)
Definition upperPage : PageLayer.t := PageLayer.mk (DOMRect.mk 0 0 100 100) 0.
Definition lowerPage : PageLayer.t := PageLayer.mk (DOMRect.mk 0 100 100 100) 1.

(** A fragment whose center lies on the edge the two pages share. *)
Definition straddlingRect : DOMRect.t := DOMRect.mk 10 90 20 20.

(** A fragment inside [lowerPage]. *)
Definition lowerRect : DOMRect.t := DOMRect.mk 10 150 20 20.

(** A browser in which [sampleRect] is selected on [samplePage]. *)
Definition sampleBrowser : Browser :=
  {| selection :=
       Some {| isCollapsed := false;
               anchorInTextLayer := true;
               ranges := [ {| rangeText := "some text";
                              rangeRects := [sampleRect; DOMRect.mk 10 15 0 5] |} ] |};
     layerElements :=
       [ {| boundingClientRect := DOMRect.mk 0 0 200 1000; testIdIndex := Some 0%N |} ] |}.

Definition samplePdf : PDF.t := PDF.mk "doc" "Title" "/files/doc.pdf" [].

(** The page once [samplePdf] is loaded and the highlight mode chosen. *)
Definition sampleState : State :=
  setAnnotationMode (annotate highlight) (fetched samplePdf initialState).

(** Note values up to the equivalence of the data model: an empty or
    whitespace-only text counts as no note. *)
Definition canonicalNote (n : option string) : option string :=
  match n with
  | Some s => if truthy (trim s) then Some s else None
  | None => None
  end.

(** The draft, once trimmed, and the stored note are the same note. *)
Definition sameNote (draft : string) (stored : option string) : Prop :=
  canonicalNote (Some (trim draft)) = canonicalNote stored.

(** The history after a snapshot of [annotations] was pushed on [h]. *)
Definition pushed (h : list (list Annotation.t)) (annotations : list Annotation.t)
  : list (list Annotation.t) :=
  (if List.length h <? HISTORY_LIMIT then h else tl h) ++ [annotations].

(** An annotation with an empty note, its popup open on an empty draft. *)
Definition emptyNoteState : State :=
  openAnnotationPopup "n1" (DOMRect.mk 0 0 10 10)
    (fetched (PDF.mk "doc" "Title" "/files/doc.pdf"
                [Annotation.mk "n1" highlight 0 [Rect.mk 5 1 25 (1 # 2)] (Some EmptyString)])
             initialState).

(** An annotation with the note "idea", its popup open. *)
Definition notedState : State :=
  openAnnotationPopup "n1" (DOMRect.mk 0 0 10 10)
    (fetched (PDF.mk "doc" "Title" "/files/doc.pdf"
                [Annotation.mk "n1" highlight 0 [Rect.mk 5 1 25 (1 # 2)] (Some "idea"%string)])
             initialState).

(** The text starts with no member of [ws]. *)
Definition startsClean (ws : list (list ascii)) (l : list ascii) : Prop :=
  stripAny ws l = None.

(** The last [n] elements of a list. *)
Definition keepLast {A : Type} (n : nat) (l : list A) : list A :=
  skipn (List.length l - n) l.

(** What holds of the history in every state the page can be in. *)
Definition Inv (st : State) : Prop :=
  (List.length (historyRef st) <= HISTORY_LIMIT)%nat
  /\ canUndo st = (0 <? List.length (historyRef st))%nat
  /\ (currentPdf st = None -> historyRef st = []).

(** The event leaves the collection and the history as they are. *)
Definition Unchanged (st st' : State) : Prop :=
  annotationsOf st' = annotationsOf st
  /\ historyRef st' = historyRef st
  /\ canUndo st' = canUndo st
  /\ (currentPdf st' = None <-> currentPdf st = None).

(** The event replaces the collection and pushes [n] snapshots of the old
    one. *)
Definition Mutated (n : nat) (st st' : State) : Prop :=
  n <> 0%nat
  /\ annotationsOf st' <> annotationsOf st
  /\ historyRef st'
     = iter n (fun h => pushed h (annotationsOf st)) (historyRef st)
  /\ canUndo st' = true
  /\ currentPdf st <> None
  /\ currentPdf st' <> None.

(** A session on [samplePdf]: a highlight is added, its popup opened, a
    note typed and committed. *)
Definition sampleEdits : list Event :=
  [ MouseUp production sampleUuid sampleBrowser;
    OpenPopup "a" (DOMRect.mk 10 10 50 5);
    TypeNote "  an idea ";
    SaveNote ].

(** The values [uuidv4] returns on the [k]-th pointer release of a session. *)
Definition sampleUuidAt (k : nat) (i : nat) : string := sampleUuid (k + i).

(** [n] pointer releases, each adding a highlight with an id of its own. *)
Definition highlights (build : Build) (n : nat) : list Event :=
  map (fun k => MouseUp build (sampleUuidAt k) sampleBrowser) (seq 0 n).

(** Sixty pointer releases, each adding a highlight. *)
Definition sixtyHighlights (build : Build) : list Event := highlights build 60.

(** Two pointer releases in the development build, each adding a highlight. *)
Definition twoStrictHighlights : list Event := highlights development 2.

(** A stored record and a request that carries a title and annotations. *)
Definition sampleStored : Server.Stored.t :=
  Server.Stored.mk "doc"
    (Some (JString "Paper")) (Some (JString EmptyString)) (Some (JString "J"))
    (Some (JArray []))
    [("path"%string, JString "/files/doc.pdf")].

Definition sampleBody : Server.Body.t :=
  Server.Body.mk (Some (JString "Title")) None (Some JNull)
    (Some (JArray [JObject [("id"%string, JString "a")]])).

(* ================================================================== *)
(** ** Keyboard handlers of the view page                              *)
(* ================================================================== *)

(** [String.prototype.toLowerCase] on the ASCII letters. *)
Definition toLowerCaseAscii (c : ascii) : ascii :=
  let n := nat_of_ascii c in
  if (65 <=? n)%nat && (n <=? 90)%nat then ascii_of_nat (n + 32) else c.

Fixpoint toLowerCase (s : string) : string :=
  match s with
  | EmptyString => EmptyString
  | String c s' => String (toLowerCaseAscii c) (toLowerCase s')
  end.

(** What the handlers read of a [KeyboardEvent]; the target is [None] when
    it is [null] or not an [HTMLElement].  [inNoteField] tells whether the
    target lies in the note field of the popup, whose [onKeyDown] is
    [handleNoteKeyDown]. *)
Module KeyboardEvent.
Record Target : Type := {
  tagName : string;
  isContentEditable : bool;
  inNoteField : bool
}.
Record t : Type := {
  key : string;
  metaKey : bool;
  ctrlKey : bool;
  shiftKey : bool;
  target : option Target
}.
End KeyboardEvent.

Definition isTypingTarget (target : option KeyboardEvent.Target) : bool :=
  match target with
  | None => false
  | Some el =>
      let tag := toLowerCase (KeyboardEvent.tagName el) in
      if String.eqb tag "input" || String.eqb tag "textarea" then true
      else KeyboardEvent.isContentEditable el
  end.

(** The mode shortcuts. *)
Definition handleKeyDown (e : KeyboardEvent.t) (st : State) : State :=
  if isTypingTarget (KeyboardEvent.target e) then st
  else
    let key := toLowerCase (KeyboardEvent.key e) in
    if String.eqb key "h" then setAnnotationMode (annotate highlight) st
    else if String.eqb key "u" then setAnnotationMode (annotate underline) st
    else if String.eqb key "c" || String.eqb key "0" then setAnnotationMode cursor st
    else st.

Definition handleUndoShortcut (e : KeyboardEvent.t) (st : State) : State :=
  if (KeyboardEvent.metaKey e || KeyboardEvent.ctrlKey e)
     && negb (KeyboardEvent.shiftKey e)
     && String.eqb (toLowerCase (KeyboardEvent.key e)) "z"
  then handleUndo st
  else st.

(** A [keydown] on the window: both listeners run, the mode shortcuts first. *)
Definition windowKeyDown (e : KeyboardEvent.t) (st : State) : State :=
  handleUndoShortcut e (handleKeyDown e st).

(** The [onKeyDown] of the note field. *)
Definition handleNoteKeyDown (e : KeyboardEvent.t) (st : State) : State :=
  if String.eqb (KeyboardEvent.key e) "Enter" && negb (KeyboardEvent.shiftKey e)
  then handleSaveNote st
  else st.

(** The key is pressed in the note field. *)
Definition inNoteField (e : KeyboardEvent.t) : bool :=
  match KeyboardEvent.target e with
  | Some el => KeyboardEvent.inNoteField el
  | None => false
  end.

(** A [keydown] anywhere on the page: the handler of the note field runs
    when the key is pressed in it, then the event reaches the window. *)
Definition keyDown (e : KeyboardEvent.t) (st : State) : State :=
  windowKeyDown e (if inNoteField e then handleNoteKeyDown e st else st).

(* ================================================================== *)
(** ** Debounced autosave                                              *)
(* ================================================================== *)

(** The refs of the autosave effect, the timeouts the browser holds for
    it, and the number of automatic saves started.  [setTimeout] returns
    handles [1, 2, ...]. *)
Module AutoSave.
Record t : Type := {
  skipNextAutoSaveRef : bool;
  autoSaveTimerRef : option nat;
  pending : list nat;
  nextHandle : nat;
  autoSaves : nat
}.

Definition initial : t :=
  {| skipNextAutoSaveRef := true;
     autoSaveTimerRef := None;
     pending := [];
     nextHandle := 1;
     autoSaves := 0 |}.

(** [window.clearTimeout(h)] *)
Definition clearTimeout (h : nat) (a : t) : t :=
  {| skipNextAutoSaveRef := skipNextAutoSaveRef a;
     autoSaveTimerRef := autoSaveTimerRef a;
     pending := filter (fun h' => negb (Nat.eqb h' h)) (pending a);
     nextHandle := nextHandle a;
     autoSaves := autoSaves a |}.

(** [skipNextAutoSaveRef.current = true] in [fetchPdfData]. *)
Definition fetched (a : t) : t :=
  {| skipNextAutoSaveRef := true;
     autoSaveTimerRef := autoSaveTimerRef a;
     pending := pending a;
     nextHandle := nextHandle a;
     autoSaves := autoSaves a |}.

(** The effect on [currentPdf]; [loaded] tells whether it is not [null]. *)
Definition effect (loaded : bool) (a : t) : t :=
  if negb loaded then a
  else if skipNextAutoSaveRef a then
    {| skipNextAutoSaveRef := false;
       autoSaveTimerRef := autoSaveTimerRef a;
       pending := pending a;
       nextHandle := nextHandle a;
       autoSaves := autoSaves a |}
  else
    let a1 :=
      match autoSaveTimerRef a with
      | Some h => if Nat.eqb h 0 then a else clearTimeout h a
      | None => a
      end in
    {| skipNextAutoSaveRef := skipNextAutoSaveRef a1;
       autoSaveTimerRef := Some (nextHandle a1);
       pending := pending a1 ++ [nextHandle a1];
       nextHandle := S (nextHandle a1);
       autoSaves := autoSaves a1 |}.

(** The browser runs the callback of timeout [h], if it still holds it. *)
Definition timeout (h : nat) (a : t) : t :=
  if existsb (Nat.eqb h) (pending a) then
    {| skipNextAutoSaveRef := skipNextAutoSaveRef a;
       autoSaveTimerRef := None;
       pending := filter (fun h' => negb (Nat.eqb h' h)) (pending a);
       nextHandle := nextHandle a;
       autoSaves := S (autoSaves a) |}
  else a.

(** The cleanup of the page. *)
Definition unmount (a : t) : t :=
  match autoSaveTimerRef a with
  | Some h => if Nat.eqb h 0 then a else clearTimeout h a
  | None => a
  end.

Inductive Event : Type :=
| Loaded          (* a fetch succeeded: the flag is set, [currentPdf] replaced *)
| Changed         (* a handler replaced [currentPdf] *)
| Timeout (h : nat).

Definition step (a : t) (ev : Event) : t :=
  match ev with
  | Loaded => effect true (fetched a)
  | Changed => effect true a
  | Timeout h => timeout h a
  end.

Definition run (evs : list Event) (a : t) : t := fold_left step evs a.
End AutoSave.

(* ================================================================== *)
(** ** Scroll position record                                          *)
(* ================================================================== *)

Module Scroll.
(** The scrolling element. *)
Record El : Type := { scrollTop : Q; scrollHeight : Q; clientHeight : Q }.

(** [Math.max] *)
Definition mathMax (a b : Q) : Q := if Qle_bool a b then b else a.

Definition maxScroll (el : El) : Q := mathMax (scrollHeight el - clientHeight el) 0.

(** What [localStorage.getItem] and [JSON.parse] give: nothing (or the
    empty string), a text whose reading throws, or an object of which
    [top] and [ratio] are read ([None]: missing or [null]). *)
Inductive Saved : Type :=
| NoItem
| Unreadable
| Item (top : option Q) (ratio : option Q).

(** The payload of [handleScroll], as it is read back. *)
Definition handleScroll (el : El) : Saved :=
  Item (Some (scrollTop el))
       (Some (if Qgtb (maxScroll el) 0 then scrollTop el / maxScroll el else 0)).

(** [el.scrollTop = v], as assigned; a browser clamps it to the scroll range. *)
Definition setScrollTop (v : Q) (el : El) : El :=
  {| scrollTop := v; scrollHeight := scrollHeight el; clientHeight := clientHeight el |}.

Definition restoreScrollPosition (saved : Saved) (el : El) : El :=
  match saved with
  | NoItem => el
  | Unreadable => el
  | Item top ratio =>
      let ratioPosition :=
        match ratio with
        | Some r => if Qgtb (maxScroll el) 0 then Some (r * maxScroll el) else None
        | None => None
        end in
      let target :=
        match ratioPosition with
        | Some p => p
        | None => match top with Some t => t | None => 0 end
        end in
      setScrollTop target el
  end.
End Scroll.

(* ================================================================== *)
(** ** Document store: list, upload and delete                         *)
(* ================================================================== *)

Module Api.

(** [req.file] as multer fills it. *)
Record UploadedFile : Type := { originalname : string; filename : string }.

(** [/\.pdf$/i.test(name)] *)
Definition endsWithPdf (name : string) : bool :=
  match rev (list_ascii_of_string name) with
  | f :: d :: p :: dot :: _ =>
      Ascii.eqb dot "."
      && Ascii.eqb (toLowerCaseAscii p) "p"
      && Ascii.eqb (toLowerCaseAscii d) "d"
      && Ascii.eqb (toLowerCaseAscii f) "f"
  | _ => false
  end.

(** [name.replace(/\.pdf$/i, '')] *)
Definition stripPdf (name : string) : string :=
  if endsWithPdf name
  then string_of_list_ascii (rev (skipn 4 (rev (list_ascii_of_string name))))
  else name.

(** The record [newPdf]; [uuid] is what [crypto.randomUUID()] returns and
    [createdAt] the ISO text of the current date. *)
Definition newPdf (uuid : string) (file : UploadedFile) (createdAt : string)
  : Server.Stored.t :=
  Server.Stored.mk uuid
    (Some (JString (stripPdf (originalname file))))
    (Some (JString EmptyString))
    (Some (JString EmptyString))
    (Some (JArray []))
    [ ("originalName"%string, JString (originalname file));
      ("filename"%string, JString (filename file));
      ("path"%string, JString ("/files/" ++ filename file));
      ("createdAt"%string, JString createdAt) ].

(** [app.post('/api/upload')] *)
Definition upload (file : option UploadedFile) (uuid createdAt : string)
  (db : Server.DB) : Server.DB * Server.Response :=
  match file with
  | None => (db, Server.SentText 400)
  | Some f =>
      let pdf := newPdf uuid f createdAt in
      (db ++ [pdf], Server.Sent 201 pdf)
  end.

(** [app.get('/api/pdfs')]: the body of the response. *)
Definition getAll (db : Server.DB) : list Server.Stored.t := db.

(** What remains after [l.splice(i, 1)]. *)
Fixpoint removeAt {A : Type} (i : nat) (l : list A) : list A :=
  match l, i with
  | [], _ => []
  | _ :: l', O => l'
  | a :: l', S i' => a :: removeAt i' l'
  end.

(** Outcome of [app.delete('/api/pdfs/:id')] on the database: nothing is
    written and 404 is answered, or the database is written without
    [deletedPdf], whose file is then removed. *)
Inductive DeleteOutcome : Type :=
| NotFound
| Deleted (db' : Server.DB) (deletedPdf : Server.Stored.t).

Definition deletePdf (id : string) (db : Server.DB) : DeleteOutcome :=
  match Server.findIndex (Server.hasId id) db with
  | None => NotFound
  | Some pdfIndex =>
      match nth_error db pdfIndex with
      | Some deletedPdf => Deleted (removeAt pdfIndex db) deletedPdf
      | None => NotFound
      end
  end.

(** The request of [handleEditSave] of the home page. *)
Definition editBody (title author : string) : Server.Body.t :=
  Server.Body.mk (Some (JString title)) (Some (JString author)) None None.

End Api.

(* ================================================================== *)
(** ** The document on the wire                                        *)
(* ================================================================== *)

(** [JSON.stringify] of the values the page sends, and the property reads
    the page makes on what [JSON.parse] returns. *)
Module Wire.

Definition typeToJson (t : AnnotationType) : Json :=
  JString (match t with highlight => "highlight" | underline => "underline" end).

Definition rectToJson (r : Rect.t) : Json :=
  JObject [ ("x"%string, JNumber (Rect.x r));
            ("y"%string, JNumber (Rect.y r));
            ("width"%string, JNumber (Rect.width r));
            ("height"%string, JNumber (Rect.height r)) ].

(** A [note] that is [undefined] is not written. *)
Definition annotationToJson (a : Annotation.t) : Json :=
  JObject ([ ("id"%string, JString (Annotation.id a));
             ("type"%string, typeToJson (Annotation.type a));
             ("pageIndex"%string, JNumber (inject_Z (Z.of_N (Annotation.pageIndex a))));
             ("rects"%string, JArray (map rectToJson (Annotation.rects a))) ]
           ++ match Annotation.note a with
              | Some n => [("note"%string, JString n)]
              | None => []
              end).

(** The body of the [PUT] of [saveAnnotations], as the handler reads it:
    the title and the annotations of [currentPdf], and whatever [author]
    and [journal] the object carries from the record it was loaded from. *)
Definition bodyOf (author journal : Server.Prop_) (pdf : PDF.t) : Server.Body.t :=
  Server.Body.mk
    (Some (JString (PDF.title pdf)))
    author
    journal
    (Some (JArray (map annotationToJson (PDF.annotations pdf)))).

(** [saveAnnotations] on the store, when the request succeeds. *)
Definition saveAnnotations (author journal : Server.Prop_) (st : State)
  (db : Server.DB) : Server.DB :=
  match currentPdf st with
  | None => db
  | Some pdf => fst (Server.put (PDF.id pdf) (bodyOf author journal pdf) db)
  end.

(** [o[k]] on a parsed value. *)
Definition getProp (k : string) (o : Json) : option Json :=
  match o with
  | JObject l =>
      match find (fun e => String.eqb (fst e) k) l with
      | Some e => Some (snd e)
      | None => None
      end
  | _ => None
  end.

(** [None] when a value is not of the type the page takes it for. *)
Fixpoint traverse {A B : Type} (f : A -> option B) (l : list A) : option (list B) :=
  match l with
  | [] => Some []
  | a :: l' =>
      match f a, traverse f l' with
      | Some b, Some bs => Some (b :: bs)
      | _, _ => None
      end
  end.

Definition numberOf (j : option Json) : option Q :=
  match j with
  | Some (JNumber q) => Some q
  | _ => None
  end.

Definition stringOf (j : option Json) : option string :=
  match j with
  | Some (JString s) => Some s
  | _ => None
  end.

Definition rectOfJson (j : Json) : option Rect.t :=
  match numberOf (getProp "x" j), numberOf (getProp "y" j),
        numberOf (getProp "width" j), numberOf (getProp "height" j) with
  | Some x, Some y, Some w, Some h => Some (Rect.mk x y w h)
  | _, _, _, _ => None
  end.

Definition typeOfJson (j : option Json) : option AnnotationType :=
  match stringOf j with
  | Some s =>
      if String.eqb s "highlight" then Some highlight
      else if String.eqb s "underline" then Some underline
      else None
  | None => None
  end.

Definition indexOfJson (j : option Json) : option N :=
  match numberOf j with
  | Some q =>
      if Pos.eqb (Qden q) 1 && Z.leb 0 (Qnum q) then Some (Z.to_N (Qnum q)) else None
  | None => None
  end.

Definition rectsOfJson (j : option Json) : option (list Rect.t) :=
  match j with
  | Some (JArray l) => traverse rectOfJson l
  | _ => None
  end.

Definition noteOfJson (j : option Json) : option (option string) :=
  match j with
  | None => Some None
  | Some (JString n) => Some (Some n)
  | Some _ => None
  end.

Definition annotationOfJson (j : Json) : option Annotation.t :=
  match stringOf (getProp "id" j), typeOfJson (getProp "type" j),
        indexOfJson (getProp "pageIndex" j), rectsOfJson (getProp "rects" j),
        noteOfJson (getProp "note" j) with
  | Some i, Some t, Some k, Some rs, Some n => Some (Annotation.mk i t k rs n)
  | _, _, _, _, _ => None
  end.

(** The record of a response read as a [PDF]. *)
Definition pdfOf (r : Server.Stored.t) : option PDF.t :=
  match stringOf (Server.Stored.title r),
        stringOf (getProp "path" (JObject (Server.Stored.others r))),
        Server.Stored.annotations r with
  | Some title, Some path, Some (JArray l) =>
      match traverse annotationOfJson l with
      | Some annotations => Some (PDF.mk (Server.Stored.id r) title path annotations)
      | None => None
      end
  | _, _, _ => None
  end.

End Wire.

(* ================================================================== *)
(** ** The view page without history                                   *)
(* ================================================================== *)

(** The variant of the page whose neutral mode is ['none']: it keeps no
    history, and a selection that gave annotations returns the page to the
    neutral mode. *)
Module Variant.

(** [type AnnotationMode = 'highlight' | 'underline' | 'none'] *)
Inductive Mode : Type :=
| on (t : AnnotationType)
| none.

Record t : Type := {
  currentPdf : option PDF.t;
  annotationMode : Mode;
  activeAnnotationId : option string;
  noteDraft : string;
  popupPosition : option (Q * Q)
}.

Definition setCurrentPdf (p : option PDF.t) (st : t) : t :=
  {| currentPdf := p;
     annotationMode := annotationMode st;
     activeAnnotationId := activeAnnotationId st;
     noteDraft := noteDraft st;
     popupPosition := popupPosition st |}.

Definition setAnnotationMode (m : Mode) (st : t) : t :=
  {| currentPdf := currentPdf st;
     annotationMode := m;
     activeAnnotationId := activeAnnotationId st;
     noteDraft := noteDraft st;
     popupPosition := popupPosition st |}.

Definition closeAnnotationPopup (st : t) : t :=
  {| currentPdf := currentPdf st;
     annotationMode := annotationMode st;
     activeAnnotationId := None;
     noteDraft := EmptyString;
     popupPosition := None |}.

Definition annotationsOf (st : t) : list Annotation.t :=
  match currentPdf st with
  | Some pdf => PDF.annotations pdf
  | None => []
  end.

Definition persistSelection (uuid : nat -> string) (b : Browser) (st : t)
  : Browser * t :=
  match annotationMode st with
  | none => (b, st)
  | on mode =>
      match selection b with
      | None => (b, st)
      | Some sel =>
          if isCollapsed sel then (b, st)
          else if negb (anchorInTextLayer sel) then (b, st)
          else
            match ranges sel with
            | [] => (b, st)
            | range :: _ =>
                if negb (truthy (trim (rangeText range))) then (b, st)
                else
                  let clientRects := filter nonDegenerate (rangeRects range) in
                  if (List.length clientRects =? 0)%nat then (b, st)
                  else
                    let pageLayers := pageLayersOf (layerElements b) in
                    if (List.length pageLayers =? 0)%nat then (b, st)
                    else
                      let newAnnotations :=
                        newAnnotationsOf uuid mode (groupRects pageLayers clientRects) in
                      if (List.length newAnnotations =? 0)%nat then (b, st)
                      else
                        (removeAllRanges b,
                         setAnnotationMode none
                           (setCurrentPdf
                              (match currentPdf st with
                               | None => None
                               | Some prev =>
                                   Some (PDF.with_annotations prev
                                           (PDF.annotations prev ++ newAnnotations))
                               end)
                              st))
            end
      end
  end.

Definition handleSaveNote (st : t) : t :=
  match currentPdf st, activeAnnotationId st with
  | Some pdf, Some activeId =>
      if negb (truthy activeId) then st
      else
        closeAnnotationPopup
          (setCurrentPdf
             (Some (PDF.with_annotations pdf
                      (replaceNote activeId (orUndefined (trim (noteDraft st)))
                         (PDF.annotations pdf))))
             st)
  | _, _ => st
  end.

Definition handleDeleteAnnotation (st : t) : t :=
  match currentPdf st, activeAnnotationId st with
  | Some pdf, Some activeId =>
      if negb (truthy activeId) then st
      else
        closeAnnotationPopup
          (setCurrentPdf
             (Some (PDF.with_annotations pdf
                      (filter (fun a => negb (String.eqb (Annotation.id a) activeId))
                              (PDF.annotations pdf))))
             st)
  | _, _ => st
  end.

(** The mode shortcuts of the variant: the key as typed, wherever the
    focus is. *)
Definition handleKeyDown (key : string) (st : t) : t :=
  if String.eqb key "h" then setAnnotationMode (on highlight) st
  else if String.eqb key "u" then setAnnotationMode (on underline) st
  else if String.eqb key "0" then setAnnotationMode none st
  else st.

End Variant.

(** The mode of the page with history that stands for a mode of the variant. *)
Definition modeOfVariant (m : Variant.Mode) : AnnotationMode :=
  match m with
  | Variant.on t => annotate t
  | Variant.none => cursor
  end.

(* ================================================================== *)
(** ** Notions the further properties are stated with                  *)
(* ================================================================== *)

(** An annotation without its note: what a note edit must not touch. *)
Definition stripNote (a : Annotation.t) : Annotation.t := Annotation.with_note a None.

(** Identity, title and path of the open document. *)
Definition metadataOf (st : State) : option (string * string * string) :=
  match currentPdf st with
  | Some pdf => Some (PDF.id pdf, PDF.title pdf, PDF.path pdf)
  | None => None
  end.

Definition notFetched (ev : Event) : bool :=
  match ev with
  | Fetched _ => false
  | _ => true
  end.

(** The popup part of the session state. *)
Definition popupOf (st : State) : option string * string * option (Q * Q) :=
  (activeAnnotationId st, noteDraft st, popupPosition st).

(** A stored note that a commit of the unchanged draft leaves alone. *)
Definition normalNote (n : option string) : Prop :=
  match n with
  | None => True
  | Some s => s <> EmptyString /\ trim s = s
  end.

(** The converted rect of a surviving rect, if a page claims it. *)
Definition convertedRect (pageLayers : list PageLayer.t) (r : DOMRect.t)
  : list Rect.t :=
  match targetPage pageLayers r with
  | Some page => [relativeRect r (PageLayer.rect page)]
  | None => []
  end.

(** What holds of the autosave timers in every state. *)
Definition AutoSaveInv (a : AutoSave.t) : Prop :=
  AutoSave.pending a
  = match AutoSave.autoSaveTimerRef a with
    | Some h => [h]
    | None => []
    end
  /\ (forall h, AutoSave.autoSaveTimerRef a = Some h ->
                (0 < h < AutoSave.nextHandle a)%nat)
  /\ (0 < AutoSave.nextHandle a)%nat.

(** The number of times a handler replaced the document. *)
Definition changesIn (evs : list AutoSave.Event) : nat :=
  List.length (filter (fun ev => match ev with AutoSave.Changed => true | _ => false end) evs).

(* ================================================================== *)
(** * Properties                                                       *)
(* ================================================================== *)

Unset Implicit Arguments.

(** ** Lists *)

Lemma mapi_from_length {A B : Type} (f : nat -> A -> B) (l : list A) (i : nat) :
  List.length (mapi_from f i l) = List.length l.
Proof.
  revert i. induction l as [|a l IH]; intros i; simpl; [reflexivity|].
  now rewrite IH.
Qed.

Lemma mapi_from_map {A B C : Type} (f : nat -> A -> B) (g : B -> C) (h : A -> C)
  (l : list A) (i : nat) :
  (forall j a, g (f j a) = h a) ->
  map g (mapi_from f i l) = map h l.
Proof.
  intros Hg. revert i. induction l as [|a l IH]; intros i; simpl; [reflexivity|].
  now rewrite Hg, IH.
Qed.

Lemma mapi_from_In {A B : Type} (f : nat -> A -> B) (l : list A) (i : nat) (b : B) :
  In b (mapi_from f i l) -> exists j a, In a l /\ b = f j a.
Proof.
  revert i. induction l as [|a l IH]; intros i; simpl; [tauto|].
  intros [Hb | Hb].
  - exists i, a. auto.
  - destruct (IH _ Hb) as (j & a' & Ha & ->). exists j, a'. auto.
Qed.

Lemma sorted_le_nodup_lt (l : list N) :
  StronglySorted N.le l -> NoDup l -> StronglySorted N.lt l.
Proof.
  induction 1 as [|a l Hs IH Hall]; intros Hnd; constructor.
  - apply IH. now inversion Hnd.
  - inversion Hnd as [|? ? Hnotin Hnd']; subst.
    rewrite Forall_forall in *. intros b Hb.
    specialize (Hall b Hb).
    assert (a <> b) by (intros ->; contradiction).
    lia.
Qed.

Lemma sorted_lt_head_notin (a : N) (l : list N) :
  Forall (N.lt a) l -> ~ In a l.
Proof.
  rewrite Forall_forall. intros H Hin. specialize (H a Hin). lia.
Qed.

(** Two strictly increasing lists with the same elements are the same list. *)
Lemma sorted_lt_unique (l1 l2 : list N) :
  StronglySorted N.lt l1 -> StronglySorted N.lt l2 ->
  (forall k, In k l1 <-> In k l2) -> l1 = l2.
Proof.
  intros H1. revert l2.
  induction H1 as [|a l1 Hs1 IH Hall1]; intros l2 H2 Hiff.
  - destruct l2 as [|b l2]; [reflexivity|].
    exfalso. apply (proj2 (Hiff b)). now left.
  - destruct H2 as [|b l2 Hs2 Hall2].
    + exfalso. apply (proj1 (Hiff a)). now left.
    + rewrite Forall_forall in Hall1, Hall2.
      assert (Hab : a = b).
      { destruct (proj1 (Hiff a) (or_introl eq_refl)) as [Hba | Hin2]; [auto|].
        destruct (proj2 (Hiff b) (or_introl eq_refl)) as [Hab | Hin1]; [auto|].
        specialize (Hall1 b Hin1). specialize (Hall2 a Hin2). lia. }
      subst b. f_equal. apply IH; [assumption|].
      intros k. split; intros Hk.
      * destruct (proj1 (Hiff k) (or_intror Hk)) as [Hak | Hin]; [|assumption].
        subst k. specialize (Hall1 a Hk). lia.
      * destruct (proj2 (Hiff k) (or_intror Hk)) as [Hak | Hin]; [|assumption].
        subst k. specialize (Hall2 a Hk). lia.
Qed.

(** ** The object model *)

Section JsRecordFacts.
Variable V : Type.
Implicit Types (o : JsRecord.t V) (k : N) (v : V).

Lemma get_set_same k v o : JsRecord.get k (JsRecord.set k v o) = Some v.
Proof.
  induction o as [|[k' v'] o IH]; simpl.
  - now rewrite N.eqb_refl.
  - destruct (N.eqb k k') eqn:E; simpl; rewrite ?N.eqb_refl, ?E; auto.
Qed.

Lemma get_set_other k k' v o :
  k <> k' -> JsRecord.get k' (JsRecord.set k v o) = JsRecord.get k' o.
Proof.
  intros Hne. induction o as [|[k0 v0] o IH]; simpl.
  - destruct (N.eqb k' k) eqn:E; [apply N.eqb_eq in E; congruence | reflexivity].
  - destruct (N.eqb k k0) eqn:E; simpl.
    + apply N.eqb_eq in E. subst k0.
      destruct (N.eqb k' k) eqn:E'; [apply N.eqb_eq in E'; congruence | reflexivity].
    + now rewrite IH.
Qed.

Lemma get_None_keys k o : JsRecord.get k o = None <-> ~ In k (JsRecord.keys o).
Proof.
  induction o as [|[k' v'] o IH]; simpl; [tauto|].
  destruct (N.eqb k k') eqn:E.
  - apply N.eqb_eq in E. subst. split; [discriminate | intros H; exfalso; auto].
  - apply N.eqb_neq in E. rewrite IH. split; [intros H [H'|H']; congruence | tauto].
Qed.

Lemma get_Some_In k v o : JsRecord.get k o = Some v -> In (k, v) o.
Proof.
  induction o as [|[k' v'] o IH]; simpl; [discriminate|].
  destruct (N.eqb k k') eqn:E.
  - apply N.eqb_eq in E. intros [= ->]. subst. now left.
  - auto.
Qed.

Lemma In_get_Some k v o :
  NoDup (JsRecord.keys o) -> In (k, v) o -> JsRecord.get k o = Some v.
Proof.
  induction o as [|[k' v'] o IH]; simpl; [tauto|].
  intros Hnd [Heq | Hin].
  - injection Heq as -> ->. now rewrite N.eqb_refl.
  - inversion Hnd as [|? ? Hnotin Hnd']; subst.
    destruct (N.eqb k k') eqn:E; [|auto].
    apply N.eqb_eq in E. subst. exfalso. apply Hnotin.
    change (In (fst (k', v)) (map fst o)). now apply in_map.
Qed.

Lemma keys_set k v o :
  JsRecord.keys (JsRecord.set k v o) =
  match JsRecord.get k o with
  | Some _ => JsRecord.keys o
  | None => JsRecord.keys o ++ [k]
  end.
Proof.
  unfold JsRecord.keys.
  induction o as [|[k' v'] o IH]; simpl; [reflexivity|].
  destruct (N.eqb k k') eqn:E; simpl.
  - apply N.eqb_eq in E. now subst.
  - rewrite IH. now destruct (JsRecord.get k o).
Qed.

Lemma keys_set_NoDup k v o :
  NoDup (JsRecord.keys o) -> NoDup (JsRecord.keys (JsRecord.set k v o)).
Proof.
  intros Hnd. rewrite keys_set.
  destruct (JsRecord.get k o) eqn:E; [assumption|].
  apply get_None_keys in E.
  apply NoDup_rev in Hnd. rewrite <- (rev_involutive (_ ++ _)).
  apply NoDup_rev. rewrite rev_app_distr. simpl.
  constructor; [now rewrite <- in_rev | assumption].
Qed.

Lemma insert_sorted_perm (e : N * V) (l : list (N * V)) :
  Permutation (JsRecord.insert_sorted e l) (e :: l).
Proof.
  induction l as [|e' l IH]; simpl; [reflexivity|].
  destruct (N.leb (fst e) (fst e')); [reflexivity|].
  rewrite IH. apply perm_swap.
Qed.

Lemma sort_by_key_perm (l : list (N * V)) :
  Permutation (JsRecord.sort_by_key l) l.
Proof.
  induction l as [|e l IH]; simpl; [reflexivity|].
  unfold JsRecord.sort_by_key in IH. now rewrite insert_sorted_perm, IH.
Qed.

Lemma filter_partition_perm {A : Type} (p : A -> bool) (l : list A) :
  Permutation (filter p l ++ filter (fun a => negb (p a)) l) l.
Proof.
  induction l as [|a l IH]; simpl; [reflexivity|].
  destruct (p a); simpl.
  - now rewrite IH.
  - rewrite <- Permutation_middle. now rewrite IH.
Qed.

Lemma entries_perm o : Permutation (JsRecord.entries o) o.
Proof.
  unfold JsRecord.entries. rewrite sort_by_key_perm. apply filter_partition_perm.
Qed.

Lemma entries_In o (e : N * V) : In e (JsRecord.entries o) <-> In e o.
Proof.
  split; apply Permutation_in; [|symmetry]; apply entries_perm.
Qed.

Lemma entries_keys_NoDup o :
  NoDup (JsRecord.keys o) -> NoDup (map fst (JsRecord.entries o)).
Proof.
  intros Hnd. eapply Permutation_NoDup; [|exact Hnd].
  symmetry. apply Permutation_map, entries_perm.
Qed.

Lemma entries_length o : List.length (JsRecord.entries o) = List.length o.
Proof. apply Permutation_length, entries_perm. Qed.

Lemma insert_sorted_sorted (e : N * V) (l : list (N * V)) :
  StronglySorted N.le (map fst l) ->
  StronglySorted N.le (map fst (JsRecord.insert_sorted e l)).
Proof.
  induction l as [|e' l IH]; simpl; intros Hs.
  - constructor; constructor.
  - destruct (N.leb (fst e) (fst e')) eqn:E; simpl.
    + apply N.leb_le in E. constructor; [assumption|].
      inversion Hs as [|? ? Hs' Hall]; subst.
      constructor; [assumption|].
      rewrite Forall_forall in *. intros b Hb. specialize (Hall b Hb). lia.
    + apply N.leb_gt in E.
      inversion Hs as [|? ? Hs' Hall]; subst.
      constructor; [now apply IH|].
      rewrite Forall_forall in *. intros b Hb.
      apply (Permutation_in _ (Permutation_map fst (insert_sorted_perm e l))) in Hb.
      destruct Hb as [<- | Hb]; [lia | auto].
Qed.

Lemma sort_by_key_sorted (l : list (N * V)) :
  StronglySorted N.le (map fst (JsRecord.sort_by_key l)).
Proof.
  induction l as [|e l IH]; simpl; [constructor|].
  now apply insert_sorted_sorted.
Qed.

(** When every key is an array index, [Object.entries] is ascending. *)
Lemma entries_sorted o :
  NoDup (JsRecord.keys o) ->
  Forall (fun k => JsRecord.is_array_index k = true) (JsRecord.keys o) ->
  StronglySorted N.lt (map fst (JsRecord.entries o)).
Proof.
  intros Hnd Hall.
  apply sorted_le_nodup_lt; [|now apply entries_keys_NoDup].
  unfold JsRecord.entries.
  assert (Hf : filter (fun e : N * V => negb (JsRecord.is_array_index (fst e))) o = []).
  { clear Hnd. induction o as [|e o IH]; simpl; [reflexivity|].
    inversion Hall as [|? ? He Hall']; subst. simpl in He. rewrite He. simpl. auto. }
  rewrite Hf, app_nil_r. apply sort_by_key_sorted.
Qed.

End JsRecordFacts.

(** ** The geometry mapper *)

Lemma extend_app (cur : option (list Rect.t)) (l1 l2 : list Rect.t) :
  extend (extend cur l1) l2 = extend cur (l1 ++ l2).
Proof.
  destruct l1 as [|a l1]; simpl; [reflexivity|].
  destruct l2 as [|b l2]; simpl.
  - now rewrite app_nil_r.
  - now rewrite <- app_assoc.
Qed.

Lemma assignedTo_cons (P : list PageLayer.t) (k : N) (r : DOMRect.t)
  (rs : list DOMRect.t) :
  assignedTo P k (r :: rs) = assignedTo P k [r] ++ assignedTo P k rs.
Proof. unfold assignedTo. simpl. now rewrite app_nil_r. Qed.

Lemma groupRect_get (P : list PageLayer.t) (g : JsRecord.t (list Rect.t))
  (r : DOMRect.t) (k : N) :
  JsRecord.get k (groupRect P g r) = extend (JsRecord.get k g) (assignedTo P k [r]).
Proof.
  unfold groupRect, assignedTo. simpl.
  destruct (targetPage P r) as [p|]; simpl; [|reflexivity].
  rewrite app_nil_r.
  destruct (N.eqb (PageLayer.pageIndex p) k) eqn:E.
  - apply N.eqb_eq in E. subst k.
    destruct (JsRecord.get (PageLayer.pageIndex p) g) eqn:G; simpl.
    + rewrite G. now rewrite get_set_same.
    + rewrite get_set_same. now rewrite get_set_same.
  - apply N.eqb_neq in E. simpl.
    destruct (JsRecord.get (PageLayer.pageIndex p) g) eqn:G.
    + rewrite G. now rewrite get_set_other.
    + rewrite get_set_same. now rewrite !get_set_other.
Qed.

Lemma groupRect_NoDup (P : list PageLayer.t) (g : JsRecord.t (list Rect.t))
  (r : DOMRect.t) :
  NoDup (JsRecord.keys g) -> NoDup (JsRecord.keys (groupRect P g r)).
Proof.
  intros Hnd. unfold groupRect.
  destruct (targetPage P r) as [p|]; [|assumption].
  destruct (JsRecord.get (PageLayer.pageIndex p) g) eqn:G.
  - rewrite G. now apply keys_set_NoDup.
  - rewrite get_set_same. now apply keys_set_NoDup, keys_set_NoDup.
Qed.

Lemma fold_groupRect_get (P : list PageLayer.t) (rs : list DOMRect.t)
  (g : JsRecord.t (list Rect.t)) (k : N) :
  JsRecord.get k (fold_left (groupRect P) rs g)
  = extend (JsRecord.get k g) (assignedTo P k rs).
Proof.
  revert g. induction rs as [|r rs IH]; intros g; [reflexivity|].
  cbn [fold_left].
  rewrite IH, groupRect_get, (assignedTo_cons P k r rs). apply extend_app.
Qed.

Lemma fold_groupRect_NoDup (P : list PageLayer.t) (rs : list DOMRect.t)
  (g : JsRecord.t (list Rect.t)) :
  NoDup (JsRecord.keys g) -> NoDup (JsRecord.keys (fold_left (groupRect P) rs g)).
Proof.
  revert g. induction rs as [|r rs IH]; intros g Hnd; simpl; [assumption|].
  now apply IH, groupRect_NoDup.
Qed.

Lemma groupRects_get (P : list PageLayer.t) (rs : list DOMRect.t) (k : N) :
  JsRecord.get k (groupRects P rs) = extend None (assignedTo P k rs).
Proof. unfold groupRects. now rewrite fold_groupRect_get. Qed.

Lemma groupRects_NoDup (P : list PageLayer.t) (rs : list DOMRect.t) :
  NoDup (JsRecord.keys (groupRects P rs)).
Proof. apply fold_groupRect_NoDup. constructor. Qed.

Lemma assignedTo_In (P : list PageLayer.t) (k : N) (rs : list DOMRect.t)
  (rect : Rect.t) :
  In rect (assignedTo P k rs) <->
  exists r p, In r rs /\ targetPage P r = Some p /\ PageLayer.pageIndex p = k
              /\ rect = relativeRect r (PageLayer.rect p).
Proof.
  unfold assignedTo. rewrite in_flat_map. split.
  - intros (r & Hr & Hin). destruct (targetPage P r) as [p|] eqn:T; [|contradiction].
    destruct (N.eqb (PageLayer.pageIndex p) k) eqn:E; [|contradiction].
    apply N.eqb_eq in E. destruct Hin as [<-|[]]. now exists r, p.
  - intros (r & p & Hr & T & E & ->). exists r. split; [assumption|].
    rewrite T. apply N.eqb_eq in E. rewrite E. now left.
Qed.

Lemma targetIndices_In (P : list PageLayer.t) (k : N) (rs : list DOMRect.t) :
  In k (targetIndices P rs) <->
  exists r p, In r rs /\ targetPage P r = Some p /\ PageLayer.pageIndex p = k.
Proof.
  unfold targetIndices. rewrite in_flat_map. split.
  - intros (r & Hr & Hin). destruct (targetPage P r) as [p|] eqn:T; [|contradiction].
    destruct Hin as [<-|[]]. now exists r, p.
  - intros (r & p & Hr & T & E). exists r. split; [assumption|].
    rewrite T. now left.
Qed.

Lemma assignedTo_nonempty (P : list PageLayer.t) (k : N) (rs : list DOMRect.t) :
  assignedTo P k rs <> [] <-> In k (targetIndices P rs).
Proof.
  rewrite targetIndices_In. split.
  - intros Hne. destruct (assignedTo P k rs) as [|rect l] eqn:E; [congruence|].
    assert (Hin : In rect (assignedTo P k rs)) by (rewrite E; now left).
    apply assignedTo_In in Hin. destruct Hin as (r & p & ? & ? & ? & _).
    now exists r, p.
  - intros (r & p & Hr & T & E) Hnil.
    assert (Hin : In (relativeRect r (PageLayer.rect p)) (assignedTo P k rs)).
    { apply assignedTo_In. now exists r, p. }
    rewrite Hnil in Hin. contradiction.
Qed.

Lemma groupRects_keys (P : list PageLayer.t) (rs : list DOMRect.t) (k : N) :
  In k (JsRecord.keys (groupRects P rs)) <-> In k (targetIndices P rs).
Proof.
  rewrite <- assignedTo_nonempty. split.
  - intros Hin Hnil.
    assert (H : JsRecord.get k (groupRects P rs) = None).
    { rewrite groupRects_get, Hnil. reflexivity. }
    apply get_None_keys in H. contradiction.
  - intros Hne.
    destruct (in_dec N.eq_dec k (JsRecord.keys (groupRects P rs))) as [|Hnotin];
      [assumption|].
    apply get_None_keys in Hnotin. rewrite groupRects_get in Hnotin.
    destruct (assignedTo P k rs); [congruence | discriminate].
Qed.

Lemma newAnnotationsOf_pageIndex (uuid : nat -> string) (mode : AnnotationType)
  (g : JsRecord.t (list Rect.t)) :
  map Annotation.pageIndex (newAnnotationsOf uuid mode g)
  = map fst (JsRecord.entries g).
Proof. unfold newAnnotationsOf, mapi. now apply mapi_from_map. Qed.

Lemma newAnnotationsOf_length (uuid : nat -> string) (mode : AnnotationType)
  (g : JsRecord.t (list Rect.t)) :
  List.length (newAnnotationsOf uuid mode g) = List.length g.
Proof.
  unfold newAnnotationsOf, mapi. now rewrite mapi_from_length, entries_length.
Qed.

Lemma newAnnotationsOf_In (uuid : nat -> string) (mode : AnnotationType)
  (g : JsRecord.t (list Rect.t)) (a : Annotation.t) :
  In a (newAnnotationsOf uuid mode g) ->
  In (Annotation.pageIndex a, Annotation.rects a) g
  /\ Annotation.type a = mode /\ Annotation.note a = None.
Proof.
  intros Hin. apply mapi_from_In in Hin. destruct Hin as (j & [k l] & He & ->).
  simpl. apply (proj1 (entries_In _ _ _)) in He. repeat split; assumption.
Qed.

(** What the mapper emits, page by page. *)
Lemma mapSelection_rects (uuid : nat -> string) (mode : AnnotationType)
  (rangeRects : list DOMRect.t) (P : list PageLayer.t) (a : Annotation.t) :
  In a (mapSelection uuid mode rangeRects P) ->
  Annotation.rects a
  = assignedTo P (Annotation.pageIndex a) (filter nonDegenerate rangeRects)
  /\ Annotation.rects a <> [].
Proof.
  intros Hin. apply newAnnotationsOf_In in Hin. destruct Hin as (Hin & _).
  apply In_get_Some in Hin; [|apply groupRects_NoDup].
  rewrite groupRects_get in Hin.
  destruct (assignedTo P _ _) as [|rect l] eqn:E; simpl in Hin; [discriminate|].
  injection Hin as <-. split; [reflexivity | discriminate].
Qed.

Lemma mapSelection_pageIndex_In (uuid : nat -> string) (mode : AnnotationType)
  (rangeRects : list DOMRect.t) (P : list PageLayer.t) (k : N) :
  In k (map Annotation.pageIndex (mapSelection uuid mode rangeRects P))
  <-> In k (targetIndices P (filter nonDegenerate rangeRects)).
Proof.
  unfold mapSelection. rewrite newAnnotationsOf_pageIndex, <- groupRects_keys.
  unfold JsRecord.keys. split; intros Hin.
  - apply in_map_iff in Hin. destruct Hin as (e & <- & He).
    apply (proj1 (entries_In _ _ _)) in He. now apply in_map.
  - apply in_map_iff in Hin. destruct Hin as (e & <- & He).
    apply in_map. now apply (proj2 (entries_In _ _ _)).
Qed.

Lemma mapSelection_pageIndex_NoDup (uuid : nat -> string) (mode : AnnotationType)
  (rangeRects : list DOMRect.t) (P : list PageLayer.t) :
  NoDup (map Annotation.pageIndex (mapSelection uuid mode rangeRects P)).
Proof.
  unfold mapSelection. rewrite newAnnotationsOf_pageIndex.
  apply entries_keys_NoDup, groupRects_NoDup.
Qed.

(** ** Comparisons on coordinates *)

Lemma Qgtb_lt (a b : Q) : Qgtb a b = true <-> b < a.
Proof.
  unfold Qgtb. rewrite negb_true_iff. split.
  - intros H. apply Qnot_le_lt. intros Hle.
    apply Qle_bool_iff in Hle. congruence.
  - intros H. destruct (Qle_bool a b) eqn:E; [|reflexivity].
    apply Qle_bool_iff in E. exfalso. now apply (Qlt_not_le b a).
Qed.

Lemma nonDegenerate_spec (r : DOMRect.t) :
  nonDegenerate r = true <-> 0 < DOMRect.width r /\ 0 < DOMRect.height r.
Proof.
  unfold nonDegenerate. now rewrite andb_true_iff, !Qgtb_lt.
Qed.

Lemma containsCenter_spec (r : DOMRect.t) (p : PageLayer.t) :
  containsCenter r p = true <->
  DOMRect.left (PageLayer.rect p) <= centerX r /\
  centerX r <= DOMRect.right (PageLayer.rect p) /\
  DOMRect.top (PageLayer.rect p) <= centerY r /\
  centerY r <= DOMRect.bottom (PageLayer.rect p).
Proof.
  unfold containsCenter, Qgeb, Qleb.
  rewrite !andb_true_iff, !Qle_bool_iff. tauto.
Qed.

Lemma targetPage_Some (P : list PageLayer.t) (r : DOMRect.t) (p : PageLayer.t) :
  targetPage P r = Some p -> In p P /\ containsCenter r p = true.
Proof. apply find_some. Qed.

(** A page that alone contains the center is the page found. *)
Lemma targetPage_unique (P : list PageLayer.t) (r : DOMRect.t) (p : PageLayer.t) :
  In p P -> containsCenter r p = true ->
  (forall q, In q P -> containsCenter r q = true -> q = p) ->
  targetPage P r = Some p.
Proof.
  intros Hin Hc Huniq. unfold targetPage.
  destruct (find (containsCenter r) P) as [q|] eqn:F.
  - apply find_some in F. destruct F as [Hq Hcq]. f_equal. now apply Huniq.
  - apply (find_none _ _ F) in Hin. congruence.
Qed.

Lemma targetPage_None (P : list PageLayer.t) (r : DOMRect.t) :
  (forall p, In p P -> containsCenter r p = false) -> targetPage P r = None.
Proof.
  intros H. unfold targetPage.
  destruct (find (containsCenter r) P) as [q|] eqn:F; [|reflexivity].
  apply find_some in F. destruct F as [Hq Hcq]. rewrite (H q Hq) in Hcq. discriminate.
Qed.

(** The page found is the first, in document order, that contains the
    center. *)
Lemma targetPage_first (P : list PageLayer.t) (r : DOMRect.t) (p : PageLayer.t) :
  targetPage P r = Some p <-> firstContaining P r p.
Proof.
  unfold targetPage, firstContaining. split.
  - induction P as [|q P IH]; simpl; [discriminate|].
    destruct (containsCenter r q) eqn:C.
    + intros [= ->]. exists [], P. repeat split; [exact C | intros q' []].
    + intros H. destruct (IH H) as (before & after & -> & Hc & Hbefore).
      exists (q :: before), after. repeat split; [exact Hc|].
      intros q' [<- | Hq']; auto.
  - intros (before & after & -> & Hc & Hbefore).
    induction before as [|q before IH]; simpl.
    + now rewrite Hc.
    + rewrite (Hbefore q (or_introl eq_refl)). apply IH.
      intros q' Hq'. apply Hbefore. now right.
Qed.

(** One coordinate of [relativeRect]: a fragment of positive extent whose
    middle lies in the page has a positive relative extent and a relative
    middle between 0 and 100. *)
Lemma relative_axis (l w pl pw : Q) :
  0 < w -> 0 < pw -> pl <= l + w / 2 -> l + w / 2 <= pl + pw ->
  0 < w / pw * 100 /\
  0 <= (l - pl) / pw * 100 + (w / pw * 100) / 2 /\
  (l - pl) / pw * 100 + (w / pw * 100) / 2 <= 100.
Proof.
  intros Hw Hpw Hlo Hhi.
  assert (Hi : 0 < / pw) by now apply Qinv_lt_0_compat.
  assert (Hone : pw * / pw == 1) by (apply Qmult_inv_r; lra).
  unfold Qdiv in *.
  assert (H1 : 0 < w * / pw) by now apply Qmult_lt_0_compat.
  assert (H2 : 0 <= (l + w * / 2 - pl) * / pw)
    by (apply Qmult_le_0_compat; lra).
  assert (H3 : 0 <= (pl + pw - (l + w * / 2)) * / pw)
    by (apply Qmult_le_0_compat; lra).
  repeat split; lra.
Qed.

Lemma relativeRect_centered (r : DOMRect.t) (p : PageLayer.t) :
  nonDegenerate r = true -> containsCenter r p = true ->
  0 < DOMRect.width (PageLayer.rect p) -> 0 < DOMRect.height (PageLayer.rect p) ->
  RectCentered (relativeRect r (PageLayer.rect p)).
Proof.
  intros Hnd Hc Hpw Hph.
  apply nonDegenerate_spec in Hnd. destruct Hnd as [Hw Hh].
  apply containsCenter_spec in Hc. destruct Hc as (Hx1 & Hx2 & Hy1 & Hy2).
  unfold centerX, centerY, DOMRect.right, DOMRect.bottom in *.
  destruct (relative_axis _ _ _ _ Hw Hpw Hx1 Hx2) as (Ha & Hb & Hc).
  destruct (relative_axis _ _ _ _ Hh Hph Hy1 Hy2) as (Hd & He & Hf).
  unfold RectCentered, relativeRect. simpl. tauto.
Qed.

(** ** Rect invariant *)

(** C6, as the mapper has it: on pages of positive width and height, every
    rect of every annotation the mapper produces has a positive width and
    height, and its center lies between 0 and 100 on both axes.  The edges
    of the rect are not bounded: a fragment is given to the page that
    contains its center, wherever its edges are. *)
Theorem mapper_rects_centered (uuid : nat -> string) (mode : AnnotationType)
  (rangeRects : list DOMRect.t) (pageLayers : list PageLayer.t)
  (a : Annotation.t) (rect : Rect.t) :
  Forall (fun p => 0 < DOMRect.width (PageLayer.rect p)
                   /\ 0 < DOMRect.height (PageLayer.rect p)) pageLayers ->
  In a (mapSelection uuid mode rangeRects pageLayers) ->
  In rect (Annotation.rects a) ->
  RectCentered rect.
Proof.
  intros Hpos Ha Hrect.
  apply mapSelection_rects in Ha. destruct Ha as [Heq _].
  rewrite Heq in Hrect. apply assignedTo_In in Hrect.
  destruct Hrect as (r & p & Hr & T & _ & ->).
  apply filter_In in Hr. destruct Hr as [_ Hnd].
  apply targetPage_Some in T. destruct T as [Hp Hc].
  rewrite Forall_forall in Hpos. destruct (Hpos p Hp) as [Hw Hh].
  now apply relativeRect_centered.
Qed.

Lemma mapper_rects_centered_witness :
  RectCentered (relativeRect overhangingRect (PageLayer.rect samplePage)).
Proof.
  apply (@mapper_rects_centered sampleUuid highlight [overhangingRect] [samplePage]
           (Annotation.mk (sampleUuid 0) highlight 0
              [relativeRect overhangingRect (PageLayer.rect samplePage)] None)).
  - repeat constructor.
  - left. reflexivity.
  - left. reflexivity.
Defined.

(** C6 as stated fails: the fragment [overhangingRect] has its center in
    [samplePage] and is mapped to a rect with [x = -5]. *)
Lemma mapper_rect_invariant_fails :
  ~ (forall a rect,
        In a (mapSelection sampleUuid highlight [overhangingRect] [samplePage]) ->
        In rect (Annotation.rects a) ->
        RectInvariant rect).
Proof.
  intros H.
  assert (Hinv : RectInvariant (relativeRect overhangingRect (PageLayer.rect samplePage))).
  { apply (H (Annotation.mk (sampleUuid 0) highlight 0
                [relativeRect overhangingRect (PageLayer.rect samplePage)] None)).
    - left. reflexivity.
    - left. reflexivity. }
  destruct Hinv as [Hx _]. vm_compute in Hx. apply Hx. reflexivity.
Qed.

(** ** The pointer-release handler *)

Lemma fold_groupRect_unclaimed (P : list PageLayer.t) (rs : list DOMRect.t)
  (g : JsRecord.t (list Rect.t)) :
  (forall r, In r rs -> targetPage P r = None) ->
  fold_left (groupRect P) rs g = g.
Proof.
  revert g. induction rs as [|r rs IH]; intros g H; simpl; [reflexivity|].
  unfold groupRect at 2. rewrite (H r (or_introl eq_refl)).
  apply IH. intros r' Hr'. apply H. now right.
Qed.


(** C8: the pointer-release handler changes nothing, neither the session
    state nor the browser selection, when the mode is the cursor mode, when
    no rect of the selection has a positive width and height, and when no
    page box contains the center of a rect that has. *)
Theorem persistSelection_noop (build : Build) (uuid : nat -> string) (b : Browser)
  (st : State) :
  annotationMode st = cursor
  \/ (forall sel range rest,
        selection b = Some sel -> ranges sel = range :: rest ->
        filter nonDegenerate (rangeRects range) = []
        \/ (forall r p,
              In r (filter nonDegenerate (rangeRects range)) ->
              In p (pageLayersOf (layerElements b)) ->
              containsCenter r p = false)) ->
  persistSelection build uuid b st = (b, st).
Proof.
  intros [Hm | H]; unfold persistSelection.
  - now rewrite Hm.
  - destruct (annotationMode st) as [mode|]; [|reflexivity].
    destruct (selection b) as [sel|] eqn:Hsel; [|reflexivity].
    destruct (isCollapsed sel); [reflexivity|].
    destruct (anchorInTextLayer sel); [|reflexivity]. simpl.
    destruct (ranges sel) as [|range rest] eqn:Hr; [reflexivity|].
    destruct (truthy (trim (rangeText range))); [|reflexivity]. simpl.
    destruct (H sel range rest eq_refl Hr) as [Hnil | Hout].
    + now rewrite Hnil.
    + destruct (List.length (filter nonDegenerate (rangeRects range)) =? 0)%nat;
        [reflexivity|].
      destruct (List.length (pageLayersOf (layerElements b)) =? 0)%nat; [reflexivity|].
      unfold groupRects. rewrite fold_groupRect_unclaimed; [reflexivity|].
      intros r Hin. apply targetPage_None. intros p Hp. now apply Hout.
Qed.

Lemma persistSelection_noop_witness :
  persistSelection development sampleUuid sampleBrowser (fetched samplePdf initialState)
  = (sampleBrowser, fetched samplePdf initialState).
Proof.
  apply persistSelection_noop. left. reflexivity.
Defined.

(** ** A selection on one page *)







(** ** A selection on several pages *)

Lemma NoDup_map_filter {A B : Type} (f : A -> B) (g : A -> bool) (l : list A) :
  NoDup (map f l) -> NoDup (map f (filter g l)).
Proof.
  induction l as [|a l IH]; simpl; intros Hnd; [constructor|].
  inversion Hnd as [|? ? Hnotin Hnd']; subst.
  destruct (g a); simpl; [|auto].
  constructor; [|auto].
  intros Hin. apply Hnotin. apply in_map_iff in Hin.
  destruct Hin as (x & Hx & Hin). apply filter_In in Hin.
  rewrite <- Hx. apply in_map. tauto.
Qed.

Lemma NoDup_map_inj {A B : Type} (f : A -> B) (l : list A) (a b : A) :
  NoDup (map f l) -> In a l -> In b l -> f a = f b -> a = b.
Proof.
  induction l as [|c l IH]; simpl; intros Hnd Ha Hb Hf; [contradiction|].
  inversion Hnd as [|? ? Hnotin Hnd']; subst.
  destruct Ha as [-> | Ha], Hb as [-> | Hb]; auto.
  - exfalso. apply Hnotin. rewrite Hf. now apply in_map.
  - exfalso. apply Hnotin. rewrite <- Hf. now apply in_map.
Qed.

(** When a page is the only one that can claim a rect under its index, the
    rects given to the index are those whose center its box contains. *)
Lemma assignedTo_filter (P : list PageLayer.t) (p : PageLayer.t) (rs : list DOMRect.t) :
  (forall r, In r rs ->
     (targetPage P r = Some p /\ containsCenter r p = true)
     \/ ((forall q, targetPage P r = Some q ->
                    PageLayer.pageIndex q <> PageLayer.pageIndex p)
         /\ containsCenter r p = false)) ->
  assignedTo P (PageLayer.pageIndex p) rs
  = map (fun r => relativeRect r (PageLayer.rect p))
        (filter (fun r => containsCenter r p) rs).
Proof.
  induction rs as [|r rs IH]; intros H; [reflexivity|].
  rewrite assignedTo_cons, IH by (intros r' Hr'; apply H; now right).
  unfold assignedTo at 1. simpl.
  destruct (H r (or_introl eq_refl)) as [[T C] | [T C]]; rewrite C.
  - rewrite T, N.eqb_refl. reflexivity.
  - destruct (targetPage P r) as [q|] eqn:Tq; [|reflexivity].
    specialize (T q eq_refl). apply N.eqb_neq in T. now rewrite T.
Qed.

(** C4, as the mapper has it: every surviving rect is given to the first
    page layer, in document order, whose box contains its center, so that
    no layer before it contains the center, whatever the layers after it
    do.  The mapper produces one annotation for each page index a rect was
    given to, so the page indices of the annotations are pairwise distinct,
    and each annotation holds exactly the converted rects given to its page
    index, in their order: every rect of an annotation comes from a
    surviving rect converted against the first layer that contains its
    center, that layer carrying the annotation's page index, and every
    surviving rect that some layer contains is found, converted against the
    first such layer, in the annotation of that layer's page index.  When
    the layers have distinct page indices and no center lies in two boxes,
    the number of annotations is the number of pages whose box contains a
    center, and each annotation holds the converted rects whose center lies
    in its page's box. *)
Theorem mapSelection_pages (uuid : nat -> string) (mode : AnnotationType)
  (rangeRects : list DOMRect.t) (pageLayers : list PageLayer.t) :
  let survivors := filter nonDegenerate rangeRects in
  let out := mapSelection uuid mode rangeRects pageLayers in
  NoDup (map Annotation.pageIndex out)
  /\ List.length out
     = List.length (nodup N.eq_dec (targetIndices pageLayers survivors))
  /\ (forall k, In k (map Annotation.pageIndex out) <->
                exists r p, In r survivors /\ targetPage pageLayers r = Some p
                            /\ PageLayer.pageIndex p = k)
  /\ (forall a, In a out ->
        Annotation.rects a = assignedTo pageLayers (Annotation.pageIndex a) survivors
        /\ Annotation.rects a <> [])
  /\ (forall r p, targetPage pageLayers r = Some p <-> firstContaining pageLayers r p)
  /\ (forall a rect, In a out -> In rect (Annotation.rects a) ->
        exists r p, In r survivors
                    /\ firstContaining pageLayers r p
                    /\ PageLayer.pageIndex p = Annotation.pageIndex a
                    /\ rect = relativeRect r (PageLayer.rect p))
  /\ (forall r p, In r survivors -> firstContaining pageLayers r p ->
        exists a, In a out
                  /\ Annotation.pageIndex a = PageLayer.pageIndex p
                  /\ In (relativeRect r (PageLayer.rect p)) (Annotation.rects a))
  /\ (NoDup (map PageLayer.pageIndex pageLayers) ->
      (forall r p q, In r survivors -> In p pageLayers -> In q pageLayers ->
                     containsCenter r p = true -> containsCenter r q = true -> p = q) ->
      List.length out = List.length (pagesHit pageLayers survivors)
      /\ forall a, In a out ->
           exists p, In p pageLayers
                     /\ PageLayer.pageIndex p = Annotation.pageIndex a
                     /\ Annotation.rects a
                        = map (fun r => relativeRect r (PageLayer.rect p))
                              (filter (fun r => containsCenter r p) survivors)).
Proof.
  intros survivors out.
  assert (Hnd : NoDup (map Annotation.pageIndex out))
    by apply mapSelection_pageIndex_NoDup.
  assert (Hkeys : forall k, In k (map Annotation.pageIndex out) <->
                            In k (targetIndices pageLayers survivors))
    by (intros k; apply mapSelection_pageIndex_In).
  split; [exact Hnd|]. split; [|split; [|split; [|split; [|split; [|split]]]]].
  - rewrite <- (length_map Annotation.pageIndex out).
    apply Permutation_length, NoDup_Permutation; [exact Hnd | apply NoDup_nodup |].
    intros k. now rewrite nodup_In.
  - intros k. now rewrite Hkeys, targetIndices_In.
  - intros a Ha. exact (mapSelection_rects _ _ _ _ _ Ha).
  - intros r p. apply targetPage_first.
  - intros a rect Ha Hrect.
    destruct (mapSelection_rects _ _ _ _ _ Ha) as [Hrects _].
    fold survivors in Hrects. rewrite Hrects in Hrect.
    apply assignedTo_In in Hrect. destruct Hrect as (r & p & Hr & T & Hk & ->).
    exists r, p. repeat split; [exact Hr | now apply targetPage_first | exact Hk].
  - intros r p Hr Hfirst. apply targetPage_first in Hfirst.
    assert (Hk : In (PageLayer.pageIndex p) (map Annotation.pageIndex out)).
    { apply Hkeys, targetIndices_In. now exists r, p. }
    apply in_map_iff in Hk. destruct Hk as (a & Hka & Ha).
    exists a. split; [exact Ha|]. split; [exact Hka|].
    destruct (mapSelection_rects _ _ _ _ _ Ha) as [Hrects _].
    fold survivors in Hrects. rewrite Hrects, Hka.
    apply assignedTo_In. now exists r, p.
  - intros Hidx Huniq.
    assert (Htarget : forall r p, In r survivors -> In p pageLayers ->
                                  containsCenter r p = true ->
                                  targetPage pageLayers r = Some p).
    { intros r p Hr Hp Hc. apply targetPage_unique; auto.
      intros q Hq Hcq. now apply (Huniq r q p). }
    split.
    + rewrite <- (length_map Annotation.pageIndex out).
      rewrite <- (length_map PageLayer.pageIndex (pagesHit pageLayers survivors)).
      apply Permutation_length, NoDup_Permutation;
        [exact Hnd | now apply NoDup_map_filter |].
      intros k. rewrite Hkeys, targetIndices_In. split.
      * intros (r & p & Hr & T & Hk). apply in_map_iff. exists p. split; [exact Hk|].
        apply targetPage_Some in T. destruct T as [Hp Hc].
        apply filter_In. split; [exact Hp|].
        apply existsb_exists. now exists r.
      * intros Hin. apply in_map_iff in Hin. destruct Hin as (p & Hk & Hp).
        apply filter_In in Hp. destruct Hp as [Hp Hex].
        apply existsb_exists in Hex. destruct Hex as (r & Hr & Hc).
        exists r, p. auto.
    + intros a Ha.
      pose proof (proj1 (Hkeys (Annotation.pageIndex a)) (in_map _ _ _ Ha)) as Hk.
      apply targetIndices_In in Hk. destruct Hk as (r0 & p & Hr0 & T0 & Hk).
      destruct (targetPage_Some _ _ _ T0) as [Hp _].
      exists p. split; [exact Hp|]. split; [exact Hk|].
      destruct (mapSelection_rects _ _ _ _ _ Ha) as [-> _].
      rewrite <- Hk. apply assignedTo_filter. intros r Hr.
      destruct (containsCenter r p) eqn:C.
      * left. auto.
      * right. split; [|reflexivity]. intros q Tq Hq.
        destruct (targetPage_Some _ _ _ Tq) as [Hqin Hcq].
        assert (q = p) by (apply (NoDup_map_inj PageLayer.pageIndex pageLayers); auto).
        subst q. congruence.
Qed.

(** On two pages that share an edge, a fragment whose center lies on the
    edge goes to the upper page, the first in document order, and a
    fragment inside the lower page to the lower one. *)
Lemma mapSelection_pages_witness :
  (exists a,
      In a (mapSelection sampleUuid underline [straddlingRect; lowerRect]
              [upperPage; lowerPage])
      /\ Annotation.pageIndex a = 0%N
      /\ In (relativeRect straddlingRect (PageLayer.rect upperPage))
            (Annotation.rects a))
  /\ List.length (mapSelection sampleUuid underline [sampleRect; lowerRect]
                    [upperPage; lowerPage])
     = List.length (pagesHit [upperPage; lowerPage]
                      (filter nonDegenerate [sampleRect; lowerRect])).
Proof.
  split.
  - apply (proj1 (proj2 (proj2 (proj2 (proj2 (proj2 (proj2
             (mapSelection_pages sampleUuid underline [straddlingRect; lowerRect]
                [upperPage; lowerPage])))))))
             straddlingRect upperPage).
    + simpl. left. reflexivity.
    + exists [], [lowerPage]. split; [reflexivity|].
      split; [reflexivity | intros q []].
  - apply (proj2 (proj2 (proj2 (proj2 (proj2 (proj2 (proj2
             (mapSelection_pages sampleUuid underline [sampleRect; lowerRect]
                [upperPage; lowerPage])))))))).
    + repeat constructor; simpl; intuition discriminate.
    + intros r p q Hr Hp Hq Hcp Hcq. simpl in Hr, Hp, Hq.
      destruct Hr as [<- | [<- | []]];
        destruct Hp as [<- | [<- | []]];
        destruct Hq as [<- | [<- | []]];
        try reflexivity; discriminate.
Defined.

(** C4 as stated fails: the center of [straddlingRect] lies in the boxes of
    two distinct pages, and the mapper produces one annotation. *)
Lemma straddling_rect_counts_once :
  List.length (mapSelection sampleUuid highlight [straddlingRect]
                 [upperPage; lowerPage])
  <> List.length (pagesHit [upperPage; lowerPage]
                    (filter nonDegenerate [straddlingRect])).
Proof. vm_compute. discriminate. Qed.

(** ** Order of the annotations of one selection *)

Lemma targetIndices_pageLayers (P : list PageLayer.t) (rs : list DOMRect.t) (k : N) :
  In k (targetIndices P rs) -> In k (map PageLayer.pageIndex P).
Proof.
  intros Hin. apply targetIndices_In in Hin. destruct Hin as (r & p & _ & T & <-).
  apply targetPage_Some in T. apply in_map. tauto.
Qed.

Lemma mapSelection_sorted (uuid : nat -> string) (mode : AnnotationType)
  (rangeRects : list DOMRect.t) (P : list PageLayer.t) :
  Forall (fun p => JsRecord.is_array_index (PageLayer.pageIndex p) = true) P ->
  StronglySorted N.lt
    (map Annotation.pageIndex (mapSelection uuid mode rangeRects P)).
Proof.
  intros Hidx. unfold mapSelection. rewrite newAnnotationsOf_pageIndex.
  apply entries_sorted; [apply groupRects_NoDup|].
  apply Forall_forall. intros k Hk.
  apply groupRects_keys, targetIndices_pageLayers in Hk.
  apply in_map_iff in Hk. destruct Hk as (p & <- & Hp).
  rewrite Forall_forall in Hidx. now apply Hidx.
Qed.

(** C10: when the page indices are array indices of JavaScript (below
    [2^32 - 1]), the keys that [Object.entries] lists in ascending numeric
    order, the annotations of one selection come in strictly increasing
    page index; the page indices that come out are exactly those of the
    layers that a surviving rect was given to, each the first layer in
    document order to contain the center of the rect; and the sequence of
    page indices is the same for every order of the rects of the
    selection. *)
Theorem mapSelection_ascending (uuid : nat -> string) (mode : AnnotationType)
  (rangeRects : list DOMRect.t) (pageLayers : list PageLayer.t) :
  Forall (fun p => JsRecord.is_array_index (PageLayer.pageIndex p) = true)
         pageLayers ->
  let survivors := filter nonDegenerate rangeRects in
  let out := mapSelection uuid mode rangeRects pageLayers in
  StronglySorted N.lt (map Annotation.pageIndex out)
  /\ (forall k, In k (map Annotation.pageIndex out)
                <-> In k (targetIndices pageLayers survivors))
  /\ (forall k, In k (map Annotation.pageIndex out)
                <-> exists r p, In r survivors
                                /\ firstContaining pageLayers r p
                                /\ PageLayer.pageIndex p = k)
  /\ forall rangeRects',
       Permutation rangeRects rangeRects' ->
       map Annotation.pageIndex (mapSelection uuid mode rangeRects' pageLayers)
       = map Annotation.pageIndex out.
Proof.
  intros Hidx survivors out.
  split; [now apply mapSelection_sorted|].
  split; [intros k; apply mapSelection_pageIndex_In|].
  split.
  - intros k. unfold out. rewrite mapSelection_pageIndex_In, targetIndices_In.
    split; intros (r & p & Hr & T & Hk); exists r, p;
      (split; [exact Hr|]); (split; [|exact Hk]); now apply targetPage_first.
  - intros rangeRects' Hperm.
    apply sorted_lt_unique; try now apply mapSelection_sorted.
    intros k. unfold out. rewrite !mapSelection_pageIndex_In, !targetIndices_In.
    split; intros (r & p & Hr & T); exists r, p; (split; [|exact T]);
      apply filter_In in Hr; apply filter_In; destruct Hr as [Hr Hnd];
      (split; [|exact Hnd]).
    + eapply Permutation_in; [symmetry; exact Hperm | exact Hr].
    + eapply Permutation_in; [exact Hperm | exact Hr].
Qed.

(** A selection that reaches the lower page before the upper one: both
    page indices come out, and in the order of the pages. *)
Lemma mapSelection_ascending_witness :
  In 1%N (map Annotation.pageIndex
            (mapSelection sampleUuid highlight [lowerRect; sampleRect]
               [upperPage; lowerPage]))
  /\ map Annotation.pageIndex
       (mapSelection sampleUuid highlight [sampleRect; lowerRect]
          [upperPage; lowerPage])
     = map Annotation.pageIndex
         (mapSelection sampleUuid highlight [lowerRect; sampleRect]
            [upperPage; lowerPage]).
Proof.
  assert (Hidx : Forall (fun p => JsRecord.is_array_index (PageLayer.pageIndex p) = true)
                        [upperPage; lowerPage])
    by (repeat constructor).
  split.
  - apply (proj2 (proj1 (proj2 (proj2
             (mapSelection_ascending sampleUuid highlight [lowerRect; sampleRect]
                [upperPage; lowerPage] Hidx))) 1%N)).
    exists lowerRect, lowerPage. split; [simpl; left; reflexivity|].
    split; [|reflexivity].
    exists [upperPage], []. split; [reflexivity|].
    split; [reflexivity|]. intros q [<- | []]. reflexivity.
  - apply (proj2 (proj2 (proj2
             (mapSelection_ascending sampleUuid highlight [lowerRect; sampleRect]
                [upperPage; lowerPage] Hidx)))).
    apply perm_swap.
Defined.

(** ** Trimming *)

Lemma stripPrefix_Some (w l rest : list ascii) :
  stripPrefix w l = Some rest <-> l = w ++ rest.
Proof.
  revert l. induction w as [|c w IH]; intros l; simpl.
  - split; congruence.
  - destruct l as [|c' l]; [split; discriminate|].
    destruct (Ascii.eqb_spec c c') as [<- | Hne].
    + rewrite IH. split; congruence.
    + split; [discriminate | congruence].
Qed.

Lemma stripAny_Some (ws : list (list ascii)) (l rest : list ascii) :
  stripAny ws l = Some rest -> exists w, In w ws /\ l = w ++ rest.
Proof.
  induction ws as [|w ws IH]; simpl; [discriminate|].
  destruct (stripPrefix w l) as [rest'|] eqn:E.
  - intros [= <-]. apply stripPrefix_Some in E. exists w. auto.
  - intros H. destruct (IH H) as (w' & Hw' & Hl). exists w'. auto.
Qed.

Lemma stripAny_member (ws : list (list ascii)) (w rest : list ascii) :
  In w ws -> stripAny ws (w ++ rest) <> None.
Proof.
  induction ws as [|w' ws IH]; simpl; [tauto|].
  intros [-> | Hin].
  - rewrite (proj2 (stripPrefix_Some w (w ++ rest) rest) eq_refl). discriminate.
  - destruct (stripPrefix w' (w ++ rest)); [discriminate | auto].
Qed.

Lemma stripAny_nil (ws : list (list ascii)) :
  Forall (fun w => w <> []) ws -> stripAny ws [] = None.
Proof.
  induction 1 as [|w ws Hw _ IH]; simpl; [reflexivity|].
  destruct w as [|c w]; [congruence | exact IH].
Qed.

(** A text that starts with no member of [ws] has no prefix that does. *)
Lemma startsClean_prefix (ws : list (list ascii)) (x y : list ascii) :
  startsClean ws (x ++ y) -> startsClean ws x.
Proof.
  unfold startsClean. intros H.
  destruct (stripAny ws x) as [rest|] eqn:E; [|reflexivity].
  apply stripAny_Some in E. destruct E as (w & Hw & ->).
  rewrite <- app_assoc in H. now apply stripAny_member in H.
Qed.

Lemma stripLeading_clean (ws : list (list ascii)) (fuel : nat) (l : list ascii) :
  Forall (fun w => w <> []) ws ->
  (List.length l <= fuel)%nat ->
  startsClean ws (stripLeading ws fuel l).
Proof.
  intros Hne. revert l. induction fuel as [|fuel IH]; intros l Hlen; simpl.
  - destruct l; [now apply stripAny_nil | simpl in Hlen; lia].
  - destruct (stripAny ws l) as [rest|] eqn:E; [|exact E].
    apply IH. apply stripAny_Some in E. destruct E as (w & Hw & ->).
    rewrite Forall_forall in Hne. specialize (Hne w Hw).
    rewrite length_app in Hlen. destruct w; [congruence | simpl in Hlen; lia].
Qed.

Lemma trimStartBy_clean (ws : list (list ascii)) (l : list ascii) :
  Forall (fun w => w <> []) ws -> startsClean ws (trimStartBy ws l).
Proof. intros Hne. now apply stripLeading_clean. Qed.

Lemma trimStartBy_fixed (ws : list (list ascii)) (l : list ascii) :
  startsClean ws l -> trimStartBy ws l = l.
Proof.
  unfold trimStartBy, startsClean. intros H.
  destruct (List.length l); simpl; [reflexivity | now rewrite H].
Qed.

Lemma stripLeading_suffix (ws : list (list ascii)) (fuel : nat) (l : list ascii) :
  exists pre, l = pre ++ stripLeading ws fuel l.
Proof.
  revert l. induction fuel as [|fuel IH]; intros l; simpl; [now exists []|].
  destruct (stripAny ws l) as [rest|] eqn:E; [|now exists []].
  apply stripAny_Some in E. destruct E as (w & _ & ->).
  destruct (IH rest) as [pre Hpre].
  exists (w ++ pre). rewrite <- app_assoc. now f_equal.
Qed.

Lemma whiteSpaces_nonempty :
  Forall (fun w : list ascii => w <> []) whiteSpaces
  /\ Forall (fun w : list ascii => w <> []) (map (@rev ascii) whiteSpaces).
Proof.
  split; cbv [whiteSpaces map rev app];
    repeat (apply Forall_cons; [discriminate|]); apply Forall_nil.
Qed.

Lemma trim_idempotent (s : string) : trim (trim s) = trim s.
Proof.
  unfold trim, trimStart, trimStartRev.
  rewrite list_ascii_of_string_of_list_ascii.
  set (wsR := map (@rev ascii) whiteSpaces).
  set (m := trimStartBy whiteSpaces (list_ascii_of_string s)).
  set (n := trimStartBy wsR (rev m)).
  destruct whiteSpaces_nonempty as [Hws HwsR].
  assert (Pn : startsClean wsR n) by (now apply trimStartBy_clean).
  assert (Qn : startsClean whiteSpaces (rev n)).
  { destruct (stripLeading_suffix wsR (List.length (rev m)) (rev m)) as [pre Hpre].
    fold (trimStartBy wsR (rev m)) in Hpre. fold n in Hpre.
    apply (startsClean_prefix whiteSpaces (rev n) (rev pre)).
    rewrite <- rev_app_distr, <- Hpre, rev_involutive.
    now apply trimStartBy_clean. }
  rewrite (trimStartBy_fixed whiteSpaces (rev n) Qn), rev_involutive.
  now rewrite (trimStartBy_fixed wsR n Pn).
Qed.

(** A draft of no-break spaces and line breaks is trimmed to the empty text. *)
Lemma trim_no_break_space :
  trim (String (ascii_of_nat 194) (String (ascii_of_nat 160)
          (String (ascii_of_nat 10) (String (ascii_of_nat 194)
             (String (ascii_of_nat 160) EmptyString)))))
  = EmptyString.
Proof. reflexivity. Qed.

Lemma truthy_false (s : string) : truthy s = false <-> s = EmptyString.
Proof. destruct s; simpl; split; congruence. Qed.

Lemma orUndefined_not_blank (d s : string) :
  orUndefined (trim d) = Some s -> s <> EmptyString /\ ~ blank s.
Proof.
  unfold orUndefined, blank. destruct (truthy (trim d)) eqn:E; [|discriminate].
  intros [= <-]. rewrite trim_idempotent.
  split; intros H; apply truthy_false in H; congruence.
Qed.

Lemma orUndefined_blank (d : string) : blank d -> orUndefined (trim d) = None.
Proof. unfold blank, orUndefined. now intros ->. Qed.

Lemma noteEqb_eq (a b : option string) : noteEqb a b = true <-> a = b.
Proof.
  destruct a as [s|], b as [s'|]; simpl; try (split; congruence).
  rewrite String.eqb_eq. split; congruence.
Qed.

(** For a stored note that is absent or holds text, being the same note as
    the draft is the strict comparison the handler makes. *)
Lemma sameNote_strict (draft : string) (stored : option string) :
  (forall s, stored = Some s -> ~ blank s) ->
  sameNote draft stored <-> stored = orUndefined (trim draft).
Proof.
  intros Hstored. unfold sameNote, canonicalNote, orUndefined.
  rewrite trim_idempotent.
  destruct stored as [s|].
  - destruct (truthy (trim s)) eqn:E.
    + destruct (truthy (trim draft)); split; congruence.
    + exfalso. apply (Hstored s eq_refl). now apply truthy_false.
  - destruct (truthy (trim draft)); split; congruence.
Qed.

(** The comparison the handler makes never tells apart two values that
    are the same note. *)
Lemma strict_sameNote (draft : string) (stored : option string) :
  stored = orUndefined (trim draft) -> sameNote draft stored.
Proof.
  intros ->. unfold sameNote, canonicalNote, orUndefined.
  rewrite trim_idempotent.
  destruct (truthy (trim draft)) eqn:E; [|reflexivity].
  now rewrite trim_idempotent, E.
Qed.

(** ** Snapshots *)

Lemma cloneAnnotations_id (l : list Annotation.t) : cloneAnnotations l = l.
Proof.
  unfold cloneAnnotations. rewrite <- (map_id l) at 2.
  apply map_ext. intros [i t k rs n]. simpl. f_equal.
  rewrite <- (map_id rs) at 2. apply map_ext. now intros [].
Qed.

Lemma pushHistorySnapshot_history (a : list Annotation.t) (st : State) :
  historyRef (pushHistorySnapshot a st) = pushed (historyRef st) a.
Proof.
  unfold pushHistorySnapshot, pushed, HISTORY_LIMIT. simpl.
  rewrite cloneAnnotations_id, length_app. simpl.
  destruct (historyRef st) as [|s h] eqn:E; [reflexivity|].
  destruct (Nat.ltb_spec 50 (List.length (s :: h) + 1)) as [H|H];
    destruct (Nat.ltb_spec (List.length (s :: h)) 50) as [H'|H']; try lia; reflexivity.
Qed.

Lemma pushed_length (h : list (list Annotation.t)) (a : list Annotation.t) :
  (List.length h <= HISTORY_LIMIT)%nat ->
  (0 < List.length (pushed h a) <= HISTORY_LIMIT)%nat.
Proof.
  unfold pushed, HISTORY_LIMIT. intros H. rewrite length_app. simpl.
  destruct (Nat.ltb_spec (List.length h) 50) as [H'|H']; [lia|].
  destruct h; simpl in *; lia.
Qed.

Lemma pushHistorySnapshot_canUndo (a : list Annotation.t) (st : State) :
  canUndo (pushHistorySnapshot a st) = true.
Proof.
  change (canUndo (pushHistorySnapshot a st))
    with (0 <? List.length (historyRef (pushHistorySnapshot a st)))%nat.
  rewrite pushHistorySnapshot_history. unfold pushed.
  rewrite length_app. simpl. apply Nat.ltb_lt. lia.
Qed.

(** ** Deleting *)

Lemma existsb_id_false (activeId : string) (l : list Annotation.t) :
  ~ In activeId (map Annotation.id l) ->
  existsb (fun a => String.eqb (Annotation.id a) activeId) l = false.
Proof.
  intros Hnotin. destruct (existsb _ l) eqn:E; [|reflexivity].
  apply existsb_exists in E. destruct E as (a & Ha & Heq).
  apply String.eqb_eq in Heq. exfalso. apply Hnotin. rewrite <- Heq. now apply in_map.
Qed.

(** C7: deleting while the active id is not the id of an annotation of the
    collection leaves the collection and the history as they are. *)
Theorem handleDeleteAnnotation_absent (st : State) :
  (forall activeId, activeAnnotationId st = Some activeId ->
                    ~ In activeId (map Annotation.id (annotationsOf st))) ->
  annotationsOf (handleDeleteAnnotation st) = annotationsOf st
  /\ historyRef (handleDeleteAnnotation st) = historyRef st
  /\ core (handleDeleteAnnotation st) = core st.
Proof.
  intros H. unfold handleDeleteAnnotation, annotationsOf in *.
  destruct (currentPdf st) as [pdf|] eqn:Hpdf; [|now rewrite Hpdf].
  destruct (activeAnnotationId st) as [activeId|]; [|now rewrite Hpdf].
  destruct (truthy activeId); simpl; [|now rewrite Hpdf].
  rewrite (existsb_id_false _ _ (H activeId eq_refl)). simpl.
  unfold core. simpl. now rewrite Hpdf.
Qed.

Lemma handleDeleteAnnotation_absent_witness :
  core (handleDeleteAnnotation
          (openAnnotationPopup "n2" (DOMRect.mk 0 0 10 10) notedState))
  = core (openAnnotationPopup "n2" (DOMRect.mk 0 0 10 10) notedState).
Proof.
  apply (handleDeleteAnnotation_absent
           (openAnnotationPopup "n2" (DOMRect.mk 0 0 10 10) notedState)).
  intros activeId [= <-]. simpl. intros [H | []]. discriminate.
Defined.

(** ** Committing a note *)

(** What the handler does, on the comparison it makes. *)
Lemma handleSaveNote_strict (st : State) (pdf : PDF.t) (activeId : string)
  (target : Annotation.t) :
  currentPdf st = Some pdf ->
  activeAnnotationId st = Some activeId ->
  truthy activeId = true ->
  findAnnotation activeId (PDF.annotations pdf) = Some target ->
  (Annotation.note target = orUndefined (trim (noteDraft st)) ->
   core (handleSaveNote st) = core st)
  /\ (Annotation.note target <> orUndefined (trim (noteDraft st)) ->
      historyRef (handleSaveNote st) = pushed (historyRef st) (PDF.annotations pdf)
      /\ annotationsOf (handleSaveNote st)
         = replaceNote activeId (orUndefined (trim (noteDraft st)))
             (PDF.annotations pdf)).
Proof.
  intros Hpdf Hactive Htruthy Hfind.
  unfold handleSaveNote. rewrite Hpdf, Hactive, Htruthy, Hfind. simpl.
  destruct (noteEqb (Annotation.note target) (orUndefined (trim (noteDraft st)))) eqn:E.
  - split; [|intros Hne; apply noteEqb_eq in E; contradiction].
    intros _. unfold core. reflexivity.
  - split.
    + intros Heq. apply noteEqb_eq in Heq. congruence.
    + intros _. split.
      * simpl. apply pushHistorySnapshot_history.
      * reflexivity.
Qed.

(** C5, as the handler has it: committing a draft that is the same note
    as the stored one (after trimming, a blank draft counting as no note)
    changes neither the collection nor the history when the stored note is
    absent or holds text; committing any other draft pushes exactly one
    snapshot of the collection and replaces the note of the annotations
    that carry the active id, and of no other, by the trimmed draft, a
    blank draft being stored as absent and never as an empty or
    whitespace-only text. *)
Theorem handleSaveNote_commit (st : State) (pdf : PDF.t) (activeId : string)
  (target : Annotation.t) :
  currentPdf st = Some pdf ->
  activeAnnotationId st = Some activeId ->
  truthy activeId = true ->
  findAnnotation activeId (PDF.annotations pdf) = Some target ->
  let draft := orUndefined (trim (noteDraft st)) in
  (sameNote (noteDraft st) (Annotation.note target) ->
   (forall s, Annotation.note target = Some s -> ~ blank s) ->
   core (handleSaveNote st) = core st)
  /\ (~ sameNote (noteDraft st) (Annotation.note target) ->
      historyRef (handleSaveNote st) = pushed (historyRef st) (PDF.annotations pdf)
      /\ annotationsOf (handleSaveNote st)
         = map (fun a => if String.eqb (Annotation.id a) activeId
                         then Annotation.with_note a draft
                         else a)
               (PDF.annotations pdf))
  /\ (blank (noteDraft st) -> draft = None)
  /\ (forall s, draft = Some s -> s <> EmptyString /\ ~ blank s).
Proof.
  intros Hpdf Hactive Htruthy Hfind draft.
  destruct (handleSaveNote_strict st pdf activeId target Hpdf Hactive Htruthy Hfind)
    as [Hsame Hdiff].
  split; [|split; [|split]].
  - intros H Hstored. apply Hsame.
    now apply (sameNote_strict (noteDraft st) _ Hstored).
  - intros H. apply Hdiff. intros Heq. apply H. now apply strict_sameNote.
  - apply orUndefined_blank.
  - intros s. apply orUndefined_not_blank.
Qed.

(** The draft "idea" on the stored note "idea" changes nothing; the empty
    draft on it, which is another note, pushes the collection and leaves
    the annotation without a note. *)
Lemma handleSaveNote_commit_witness :
  core (handleSaveNote notedState) = core notedState
  /\ historyRef (handleSaveNote (setNoteDraft EmptyString notedState))
     = pushed [] (annotationsOf notedState).
Proof.
  split.
  - apply (proj1 (handleSaveNote_commit notedState
             (PDF.mk "doc" "Title" "/files/doc.pdf"
                [Annotation.mk "n1" highlight 0 [Rect.mk 5 1 25 (1 # 2)]
                   (Some "idea"%string)])
             "n1"
             (Annotation.mk "n1" highlight 0 [Rect.mk 5 1 25 (1 # 2)]
                (Some "idea"%string))
             eq_refl eq_refl eq_refl eq_refl)).
    + reflexivity.
    + intros s [= <-]. unfold blank. vm_compute. discriminate.
  - refine (proj1 (proj1 (proj2 (handleSaveNote_commit
             (setNoteDraft EmptyString notedState)
             (PDF.mk "doc" "Title" "/files/doc.pdf"
                [Annotation.mk "n1" highlight 0 [Rect.mk 5 1 25 (1 # 2)]
                   (Some "idea"%string)])
             "n1"
             (Annotation.mk "n1" highlight 0 [Rect.mk 5 1 25 (1 # 2)]
                (Some "idea"%string))
             eq_refl eq_refl eq_refl eq_refl)) _)).
    vm_compute. discriminate.
Defined.

(** C5 as stated fails on a stored empty note: the draft, empty as well, is
    the same note, and committing it pushes a snapshot. *)
Lemma handleSaveNote_empty_note_pushes :
  sameNote (noteDraft emptyNoteState) (Some EmptyString)
  /\ historyRef (handleSaveNote emptyNoteState) <> historyRef emptyNoteState.
Proof. split; [reflexivity | vm_compute; discriminate]. Qed.

(** ** One event at a time *)

Lemma Unchanged_refl (st : State) : Unchanged st st.
Proof. unfold Unchanged. tauto. Qed.

Lemma Unchanged_close (st : State) : Unchanged st (closeAnnotationPopup st).
Proof. unfold Unchanged. simpl. tauto. Qed.

(** The history, the document and the flag after the snapshot was pushed
    [n] times. *)
Lemma iter_pushHistorySnapshot (n : nat) (a : list Annotation.t) (st : State) :
  historyRef (iter n (pushHistorySnapshot a) st)
  = iter n (fun h => pushed h a) (historyRef st)
  /\ currentPdf (iter n (pushHistorySnapshot a) st) = currentPdf st
  /\ (n <> 0%nat -> canUndo (iter n (pushHistorySnapshot a) st) = true).
Proof.
  revert st. induction n as [|n IH]; intros st; cbn [iter].
  - repeat split. congruence.
  - destruct (IH (pushHistorySnapshot a st)) as (Hh & Hp & Hc).
    rewrite Hh, Hp, pushHistorySnapshot_history.
    repeat split. intros _.
    destruct n as [|n]; [apply pushHistorySnapshot_canUndo | apply Hc; discriminate].
Qed.

Lemma updaterRuns_pos (build : Build) : updaterRuns build <> 0%nat.
Proof. destruct build; discriminate. Qed.

Lemma pushCount_pos (ev : Event) : pushCount ev <> 0%nat.
Proof. destruct ev; simpl; try discriminate. apply updaterRuns_pos. Qed.

(** The shape shared by the handlers that change the collection. *)
Lemma Mutated_intro (n : nat) (st st0 : State) (pdf : PDF.t) (l : list Annotation.t) :
  n <> 0%nat ->
  currentPdf st = Some pdf ->
  l <> PDF.annotations pdf ->
  annotationsOf st0 = l ->
  historyRef st0 = historyRef (iter n (pushHistorySnapshot (PDF.annotations pdf)) st) ->
  canUndo st0 = canUndo (iter n (pushHistorySnapshot (PDF.annotations pdf)) st) ->
  currentPdf st0 <> None ->
  Mutated n st st0.
Proof.
  intros Hn Hpdf Hne Hl Hh Hc Hsome. unfold Mutated, annotationsOf in *.
  destruct (iter_pushHistorySnapshot n (PDF.annotations pdf) st) as (Hh' & _ & Hc').
  rewrite Hpdf, Hh, Hc, Hh', (Hc' Hn), Hl.
  repeat split; auto. discriminate.
Qed.

Lemma replaceNote_changes (activeId : string) (n : option string)
  (l : list Annotation.t) (target : Annotation.t) :
  findAnnotation activeId l = Some target ->
  Annotation.note target <> n ->
  replaceNote activeId n l <> l.
Proof.
  unfold findAnnotation, replaceNote.
  induction l as [|a l IH]; simpl; [discriminate|].
  destruct (String.eqb (Annotation.id a) activeId).
  - intros [= ->] Hne Heq. injection Heq as Heq _.
    apply Hne. rewrite <- Heq at 1. reflexivity.
  - intros Hf Hne Heq. injection Heq as Heq. now apply (IH Hf Hne).
Qed.

Lemma filter_changes {A : Type} (p : A -> bool) (l : list A) (a : A) :
  In a l -> p a = false -> filter p l <> l.
Proof.
  intros Ha Hp Heq.
  rewrite <- Heq in Ha. apply filter_In in Ha. destruct Ha as [_ Hpa].
  rewrite Hpa in Hp. discriminate.
Qed.

Lemma persistSelection_cases (build : Build) (uuid : nat -> string) (b : Browser)
  (st : State) :
  snd (persistSelection build uuid b st) = st
  \/ exists prev new,
       currentPdf st = Some prev /\ new <> []
       /\ snd (persistSelection build uuid b st)
          = setCurrentPdf
              (Some (PDF.with_annotations prev (PDF.annotations prev ++ new)))
              (iter (updaterRuns build) (pushHistorySnapshot (PDF.annotations prev)) st).
Proof.
  unfold persistSelection.
  destruct (annotationMode st) as [mode|]; [|now left].
  destruct (selection b) as [sel|]; [|now left].
  destruct (isCollapsed sel); [now left|].
  destruct (anchorInTextLayer sel); [|now left]. simpl.
  destruct (ranges sel) as [|range rest]; [now left|].
  destruct (truthy (trim (rangeText range))); [|now left]. simpl.
  destruct (List.length (filter nonDegenerate (rangeRects range)) =? 0)%nat; [now left|].
  destruct (List.length (pageLayersOf (layerElements b)) =? 0)%nat; [now left|].
  match goal with
  | |- context [List.length ?new =? 0] => destruct new as [|a new'] eqn:E
  end; [now left|].
  cbn [List.length Nat.eqb snd].
  destruct (currentPdf st) as [prev|] eqn:Hpdf; [|now left].
  right. exists prev, (a :: new'). repeat split. discriminate.
Qed.

Lemma step_edit (st : State) (ev : Event) :
  isEdit ev = true ->
  Unchanged st (step st ev) \/ Mutated (pushCount ev) st (step st ev).
Proof.
  destruct ev as [pdf | build uuid b | m | annotationId anchorRect | | draft | | | |];
    cbn [isEdit step pushCount]; try discriminate; intros _;
    try (left; unfold Unchanged; simpl; tauto).
  - (* pointer release *)
    destruct (persistSelection_cases build uuid b st)
      as [-> | (prev & new & Hpdf & Hne & ->)].
    + left. apply Unchanged_refl.
    + right. apply (Mutated_intro (updaterRuns build) st _ prev
                      (PDF.annotations prev ++ new));
        try reflexivity; try assumption; try discriminate.
      * apply updaterRuns_pos.
      * intros Heq. apply Hne.
        rewrite <- (app_nil_r (PDF.annotations prev)) in Heq at 2.
        now apply app_inv_head in Heq.
  - (* note commit *)
    unfold handleSaveNote.
    destruct (currentPdf st) as [pdf|] eqn:Hpdf; [|left; apply Unchanged_refl].
    destruct (activeAnnotationId st) as [activeId|]; [|left; apply Unchanged_refl].
    destruct (truthy activeId); simpl; [|left; apply Unchanged_refl].
    destruct (findAnnotation activeId (PDF.annotations pdf)) as [target|] eqn:Hfind;
      [|left; apply Unchanged_refl].
    destruct (noteEqb _ _) eqn:E; [left; apply Unchanged_close|].
    right. apply (Mutated_intro 1 st _ pdf
                    (replaceNote activeId (orUndefined (trim (noteDraft st)))
                       (PDF.annotations pdf)));
      try reflexivity; try assumption; try discriminate.
    eapply replaceNote_changes; [exact Hfind|].
    intros Heq. apply noteEqb_eq in Heq. congruence.
  - (* deletion *)
    unfold handleDeleteAnnotation.
    destruct (currentPdf st) as [pdf|] eqn:Hpdf; [|left; apply Unchanged_refl].
    destruct (activeAnnotationId st) as [activeId|]; [|left; apply Unchanged_refl].
    destruct (truthy activeId); simpl; [|left; apply Unchanged_refl].
    destruct (existsb _ (PDF.annotations pdf)) eqn:E; simpl;
      [|left; apply Unchanged_close].
    right. apply (Mutated_intro 1 st _ pdf
                    (filter (fun a => negb (String.eqb (Annotation.id a) activeId))
                       (PDF.annotations pdf)));
      try reflexivity; try assumption; try discriminate.
    apply existsb_exists in E. destruct E as (a & Ha & Hid).
    apply (filter_changes _ _ a Ha). now rewrite Hid.
  - (* note removal *)
    unfold handleClearNote.
    destruct (currentPdf st) as [pdf|] eqn:Hpdf; [|left; apply Unchanged_refl].
    destruct (activeAnnotationId st) as [activeId|]; [|left; apply Unchanged_refl].
    destruct (truthy activeId); simpl; [|left; apply Unchanged_refl].
    destruct (findAnnotation activeId (PDF.annotations pdf)) as [target|] eqn:Hfind;
      [|left; apply Unchanged_refl].
    destruct (truthyOpt (Annotation.note target)) eqn:E; simpl;
      [|left; apply Unchanged_refl].
    right. apply (Mutated_intro 1 st _ pdf
                    (replaceNote activeId None (PDF.annotations pdf)));
      try reflexivity; try assumption; try discriminate.
    eapply replaceNote_changes; [exact Hfind|].
    intros Heq. rewrite Heq in E. discriminate.
Qed.

Lemma changes_spec (st : State) (ev : Event) :
  changes st ev = true <-> annotationsOf (step st ev) <> annotationsOf st.
Proof.
  unfold changes.
  destruct (list_eq_dec Annotation_eq_dec _ _) as [Heq | Hne];
    split; congruence.
Qed.

Lemma step_edit_changes (st : State) (ev : Event) :
  isEdit ev = true ->
  if changes st ev then Mutated (pushCount ev) st (step st ev)
  else Unchanged st (step st ev).
Proof.
  intros Hedit. destruct (changes st ev) eqn:C.
  - apply changes_spec in C.
    destruct (step_edit st ev Hedit) as [U | M]; [|exact M].
    destruct U as [U _]. contradiction.
  - destruct (step_edit st ev Hedit) as [U | M]; [exact U|].
    destruct M as (_ & M & _). apply changes_spec in M. congruence.
Qed.

(** ** The bounded history as the tail of an unbounded one *)

Lemma keepLast_app {A : Type} (n : nat) (l r : list A) :
  keepLast n (keepLast n l ++ r) = keepLast n (l ++ r).
Proof.
  unfold keepLast.
  assert (Hskip : skipn (List.length l - n) l ++ r
                  = skipn (List.length l - n) (l ++ r)).
  { rewrite skipn_app.
    replace (List.length l - n - List.length l)%nat with 0%nat by lia.
    reflexivity. }
  rewrite Hskip, skipn_skipn. f_equal.
  rewrite length_skipn, !length_app. lia.
Qed.

Lemma keepLast_short {A : Type} (n : nat) (l : list A) :
  (List.length l <= n)%nat -> keepLast n l = l.
Proof.
  intros H. unfold keepLast.
  replace (List.length l - n)%nat with 0%nat by lia. reflexivity.
Qed.

Lemma keepLast_length {A : Type} (n : nat) (l : list A) :
  List.length (keepLast n l) = Nat.min (List.length l) n.
Proof. unfold keepLast. rewrite length_skipn. lia. Qed.

Lemma pushed_keepLast (h : list (list Annotation.t)) (a : list Annotation.t) :
  (List.length h <= HISTORY_LIMIT)%nat ->
  pushed h a = keepLast HISTORY_LIMIT (h ++ [a]).
Proof.
  unfold pushed, keepLast, HISTORY_LIMIT. intros H. rewrite length_app. simpl.
  destruct (Nat.ltb_spec (List.length h) 50) as [H'|H'].
  - replace (List.length h + 1 - 50)%nat with 0%nat by lia. reflexivity.
  - replace (List.length h + 1 - 50)%nat with 1%nat by lia.
    destruct h; simpl in *; [lia | reflexivity].
Qed.

(** Pushing the same snapshot [n] times. *)
Lemma iter_pushed_keepLast (n : nat) (h : list (list Annotation.t))
  (a : list Annotation.t) :
  (List.length h <= HISTORY_LIMIT)%nat ->
  iter n (fun h' => pushed h' a) h = keepLast HISTORY_LIMIT (h ++ repeat a n).
Proof.
  revert h. induction n as [|n IH]; intros h Hlen; cbn [iter repeat].
  - rewrite app_nil_r. symmetry. now apply keepLast_short.
  - rewrite IH by (apply pushed_length; exact Hlen).
    rewrite pushed_keepLast by exact Hlen.
    rewrite keepLast_app, <- app_assoc. reflexivity.
Qed.

Lemma nth_skipn {A : Type} (m i : nat) (l : list A) (d : A) :
  nth i (skipn m l) d = nth (m + i) l d.
Proof.
  revert l. induction m as [|m IH]; intros l; [reflexivity|].
  destruct l as [|a l]; simpl; [now destruct i | apply IH].
Qed.

(** ** Undo *)

Lemma pop_nil {A : Type} : pop (@nil A) = None.
Proof. reflexivity. Qed.

Lemma pop_snoc {A : Type} (l : list A) (a : A) : pop (l ++ [a]) = Some (l, a).
Proof. unfold pop. rewrite rev_app_distr. simpl. now rewrite rev_involutive. Qed.

Lemma handleUndo_empty (st : State) : historyRef st = [] -> handleUndo st = st.
Proof. intros H. unfold handleUndo. now rewrite H. Qed.

Lemma handleUndo_snoc (st : State) (h : list (list Annotation.t))
  (s : list Annotation.t) :
  historyRef st = h ++ [s] ->
  currentPdf st <> None ->
  annotationsOf (handleUndo st) = s
  /\ historyRef (handleUndo st) = h
  /\ canUndo (handleUndo st) = (0 <? List.length h)%nat
  /\ currentPdf (handleUndo st) <> None.
Proof.
  intros Hh Hpdf. unfold handleUndo, annotationsOf. rewrite Hh, pop_snoc. simpl.
  destruct (currentPdf st) as [pdf|]; [|contradiction].
  simpl. repeat split. discriminate.
Qed.

Lemma Inv_initial : Inv initialState.
Proof. unfold Inv. simpl. repeat split. apply Nat.le_0_l. Qed.

Lemma Inv_step (st : State) (ev : Event) : Inv st -> Inv (step st ev).
Proof.
  intros (Hlen & Hcan & Hnone).
  destruct (isEdit ev) eqn:Hedit.
  - destruct (step_edit st ev Hedit)
      as [(_ & Hh & Hc & Hp) | (Hn & _ & Hh & Hc & Hp & Hp')].
    + unfold Inv. rewrite Hh, Hc. repeat split; auto.
      intros H. apply Hnone. now apply Hp.
    + unfold Inv. rewrite Hh, Hc, iter_pushed_keepLast by exact Hlen.
      rewrite keepLast_length, length_app, repeat_length. unfold HISTORY_LIMIT.
      repeat split; [lia | | intros H; contradiction].
      symmetry. apply Nat.ltb_lt. lia.
  - destruct ev; try discriminate; simpl.
    + unfold Inv. simpl. repeat split. apply Nat.le_0_l.
    + destruct (historyRef st) as [|s0 h0] eqn:Hh using rev_ind.
      * rewrite handleUndo_empty by assumption. unfold Inv. rewrite Hh. auto.
      * clear IHh0.
        assert (Hpdf : currentPdf st <> None).
        { intros H. apply Hnone in H. try rewrite Hh in H.
          apply app_eq_nil in H. destruct H; discriminate. }
        destruct (handleUndo_snoc st h0 s0 Hh Hpdf) as (_ & Hh' & Hc' & Hp').
        unfold Inv. rewrite Hh', Hc'. try rewrite Hh in Hlen.
        rewrite length_app in Hlen. simpl in Hlen.
        repeat split; [lia | intros H; contradiction].
Qed.

Lemma Inv_run (evs : list Event) (st : State) : Inv st -> Inv (run evs st).
Proof.
  revert st. induction evs as [|ev evs IH]; intros st H; simpl; [exact H|].
  apply IH. now apply Inv_step.
Qed.

Lemma Inv_reachable (evs : list Event) : Inv (run evs initialState).
Proof. apply Inv_run, Inv_initial. Qed.

(** The collection after [j] undos is found [j] places down the history. *)
Lemma undo_iter (j : nat) (st : State) :
  Inv st ->
  annotationsOf (iter j handleUndo st)
  = nth (List.length (historyRef st) - Nat.min j (List.length (historyRef st)))
        (historyRef st ++ [annotationsOf st]) [].
Proof.
  revert st. induction j as [|j IH]; intros st HI.
  - simpl. rewrite Nat.sub_0_r, nth_middle. reflexivity.
  - cbn [iter]. rewrite IH by (apply (Inv_step st Undo HI)).
    destruct HI as (Hlen & Hcan & Hnone).
    destruct (historyRef st) as [|s0 h0] eqn:Hh using rev_ind.
    + rewrite handleUndo_empty by assumption. rewrite Hh. reflexivity.
    + clear IHh0.
      assert (Hpdf : currentPdf st <> None).
      { intros H. apply Hnone in H. try rewrite Hh in H.
        apply app_eq_nil in H. destruct H; discriminate. }
      destruct (handleUndo_snoc st h0 s0 Hh Hpdf) as (Ha & Hh' & _).
      rewrite Ha, Hh', length_app. cbn [List.length].
      replace (List.length h0 + 1 - Nat.min (S j) (List.length h0 + 1))%nat
        with (List.length h0 - Nat.min j (List.length h0))%nat by lia.
      symmetry. apply app_nth1. rewrite length_app. cbn [List.length]. lia.
Qed.

(** After a run of edits the history holds the last 50 of the snapshots
    it held before and of the snapshots the run pushed. *)
Lemma history_after_edits (evs : list Event) (st : State) :
  Inv st -> forallb isEdit evs = true ->
  historyRef (run evs st)
  = keepLast HISTORY_LIMIT (historyRef st ++ snapshotsOf evs st).
Proof.
  revert st. induction evs as [|ev evs IH]; intros st HI Hedits.
  - simpl. rewrite app_nil_r. symmetry. apply keepLast_short. apply HI.
  - simpl in Hedits. apply andb_true_iff in Hedits. destruct Hedits as [Hedit Hedits].
    cbn [run fold_left snapshotsOf]. change (fold_left step evs (step st ev))
      with (run evs (step st ev)).
    rewrite IH by (auto using Inv_step).
    pose proof (step_edit_changes st ev Hedit) as Hstep.
    destruct (changes st ev).
    + destruct Hstep as (_ & _ & Hh & _). rewrite Hh.
      rewrite iter_pushed_keepLast by apply HI.
      rewrite keepLast_app. now rewrite <- !app_assoc.
    + destruct Hstep as (_ & Hh & _). now rewrite Hh.
Qed.

Lemma snapshotsOf_first (evs : list Event) (st : State) :
  nth 0 (snapshotsOf evs st ++ [annotationsOf (run evs st)]) [] = annotationsOf st.
Proof.
  revert st. induction evs as [|ev evs IH]; intros st; [reflexivity|].
  cbn [run fold_left snapshotsOf]. change (fold_left step evs (step st ev))
    with (run evs (step st ev)).
  destruct (changes st ev) eqn:C.
  - pose proof (pushCount_pos ev) as Hn.
    destruct (pushCount ev); [congruence | reflexivity].
  - simpl app. rewrite IH.
    destruct (list_eq_dec Annotation_eq_dec (annotationsOf (step st ev)) (annotationsOf st))
      as [Heq | Hne]; [exact Heq|].
    apply changes_spec in Hne. congruence.
Qed.

Lemma last_cons_default {A : Type} (x : list A) (a d : A) :
  last (a :: x) d = last x a.
Proof.
  revert a d. induction x as [|b x IH]; intros a d; [reflexivity|].
  change (last (a :: b :: x) d) with (last (b :: x) d).
  now rewrite (IH b d), (IH b a).
Qed.

Lemma last_app_default {A : Type} (l r : list A) (d : A) :
  last (l ++ r) d = last r (last l d).
Proof.
  revert d. induction l as [|a l IH]; intros d; [reflexivity|].
  rewrite <- app_comm_cons, !last_cons_default. apply IH.
Qed.

Lemma last_repeat {A : Type} (a d : A) (n : nat) :
  n <> 0%nat -> last (repeat a n) d = a.
Proof.
  induction n as [|n IH]; [congruence|]. intros _.
  destruct n as [|n]; [reflexivity|].
  change (last (repeat a (S (S n))) d) with (last (repeat a (S n)) d).
  apply IH. discriminate.
Qed.

(** The newest snapshot of a run is the collection its last change
    replaced, however many times it was pushed. *)
Lemma snapshotsOf_last (evs : list Event) (st : State) (d : list Annotation.t) :
  last (snapshotsOf evs st) d = last (priorStates evs st) d.
Proof.
  revert st d. induction evs as [|ev evs IH]; intros st d; [reflexivity|].
  cbn [snapshotsOf priorStates]. rewrite !last_app_default, IH.
  f_equal. destruct (changes st ev); [|reflexivity].
  rewrite last_repeat by apply pushCount_pos. reflexivity.
Qed.

(** When every event pushes once, the snapshots are the collections
    replaced. *)
Lemma snapshotsOf_once (evs : list Event) (st : State) :
  forallb pushesOnce evs = true -> snapshotsOf evs st = priorStates evs st.
Proof.
  revert st. induction evs as [|ev evs IH]; intros st H; [reflexivity|].
  simpl in H. apply andb_true_iff in H. destruct H as [Hev Hevs].
  cbn [snapshotsOf priorStates]. rewrite IH by exact Hevs.
  unfold pushesOnce in Hev. apply Nat.eqb_eq in Hev. now rewrite Hev.
Qed.

(** The collection [j] undos after a run of edits. *)
Lemma undo_after_edits (evs : list Event) (st : State) (j : nat) :
  Inv st -> forallb isEdit evs = true ->
  let all := historyRef st ++ snapshotsOf evs st in
  let n := List.length all in
  annotationsOf (iter j handleUndo (run evs st))
  = nth (n - Nat.min j (Nat.min n HISTORY_LIMIT))
        (all ++ [annotationsOf (run evs st)]) [].
Proof.
  intros HI Hedits all n.
  rewrite undo_iter by (now apply Inv_run).
  rewrite history_after_edits by assumption. fold all.
  unfold keepLast. fold n.
  assert (Hlen : List.length (skipn (n - HISTORY_LIMIT) all)
                 = Nat.min n HISTORY_LIMIT).
  { rewrite length_skipn. fold n. lia. }
  rewrite Hlen.
  assert (Hskip : skipn (n - HISTORY_LIMIT) all ++ [annotationsOf (run evs st)]
                  = skipn (n - HISTORY_LIMIT) (all ++ [annotationsOf (run evs st)])).
  { rewrite skipn_app. fold n.
    replace (n - HISTORY_LIMIT - n)%nat with 0%nat by lia. reflexivity. }
  rewrite Hskip, nth_skipn. f_equal. lia.
Qed.

(** ** Undo and the history bound *)

(** C2 in the development build, where [React.StrictMode] calls the updater
    of the pointer-release handler twice.  Two pointer releases each add a
    highlight to an empty collection: two changes, four snapshots.  Two
    Undos then give back the collection that holds the first highlight, not
    the collection the session started from; it takes four.  In the
    production build the same two releases and two Undos give back the
    starting collection. *)
Theorem strict_mode_undo_falls_short :
  let first := Annotation.mk "a" highlight 0
                 [relativeRect sampleRect (PageLayer.rect samplePage)] None in
  let second := Annotation.mk "b" highlight 0
                  [relativeRect sampleRect (PageLayer.rect samplePage)] None in
  let st := run twoStrictHighlights sampleState in
  annotationsOf sampleState = []
  /\ priorStates twoStrictHighlights sampleState = [[]; [first]]
  /\ annotationsOf st = [first; second]
  /\ historyRef st = [[]; []; [first]; [first]]
  /\ annotationsOf (iter 2 handleUndo st) = [first]
  /\ annotationsOf (iter 2 handleUndo st) <> annotationsOf sampleState
  /\ annotationsOf (iter 4 handleUndo st) = annotationsOf sampleState
  /\ annotationsOf (iter 2 handleUndo (run (highlights production 2) sampleState))
     = annotationsOf sampleState.
Proof.
  cbv zeta. repeat split; try (vm_compute; reflexivity).
  vm_compute. discriminate.
Qed.

(** C3 in the development build: a pointer release that changes the
    collection pushes two snapshots of the collection it replaces, where
    the production build pushes one.  After sixty releases, each adding a
    highlight, the history holds fifty snapshots of which only twenty-five
    are distinct: fifty Undos stop at the collection of thirty-five
    highlights, where the production build stops at the collection of
    ten. *)
Theorem strict_mode_release_pushes_twice :
  let release := MouseUp development sampleUuid sampleBrowser in
  let st60 := run (sixtyHighlights development) sampleState in
  annotationsOf (step sampleState release) <> annotationsOf sampleState
  /\ historyRef (step sampleState release)
     = [annotationsOf sampleState; annotationsOf sampleState]
  /\ historyRef (step sampleState (MouseUp production sampleUuid sampleBrowser))
     = [annotationsOf sampleState]
  /\ List.length (priorStates (sixtyHighlights development) sampleState) = 60%nat
  /\ List.length (historyRef st60) = HISTORY_LIMIT
  /\ List.length (nodup (list_eq_dec Annotation_eq_dec) (historyRef st60)) = 25%nat
  /\ List.length (annotationsOf st60) = 60%nat
  /\ List.length (annotationsOf (iter 50 handleUndo st60)) = 35%nat
  /\ canUndo (iter 50 handleUndo st60) = false
  /\ List.length
       (annotationsOf
          (iter 50 handleUndo (run (sixtyHighlights production) sampleState)))
     = 10%nat.
Proof.
  cbv zeta. repeat split; try (vm_compute; reflexivity).
  vm_compute. discriminate.
Qed.

(** X22: in every state the page can reach, [canUndo] is true exactly when
    the history is not empty, and Undo on an empty history changes nothing.
    After a run of edits that pushed [S] snapshots, one Undo gives back the
    collection the last change replaced, and, when [S] is at most 50, [S]
    Undos give back the collection the run started from.  [S] is the
    number of changes when every change pushed once: in the production
    build, and in either build when the changes are note commits, note
    removals and deletions. *)
Theorem undo_restores (evs0 : list Event) :
  let st := run evs0 initialState in
  (canUndo st = true <-> historyRef st <> [])
  /\ (historyRef st = [] -> handleUndo st = st)
  /\ (forall evs,
        forallb isEdit evs = true ->
        let S := List.length (snapshotsOf evs st) in
        (S <> 0%nat ->
         annotationsOf (handleUndo (run evs st)) = last (priorStates evs st) [])
        /\ ((S <= HISTORY_LIMIT)%nat ->
            annotationsOf (iter S handleUndo (run evs st)) = annotationsOf st)
        /\ (forallb pushesOnce evs = true ->
            S = List.length (priorStates evs st))).
Proof.
  intros st.
  assert (HI : Inv st) by apply Inv_reachable.
  split; [|split].
  - destruct HI as (_ & Hcan & _). rewrite Hcan.
    destruct (historyRef st); simpl; split; intros H;
      try discriminate; try reflexivity.
    exfalso. now apply H.
  - apply handleUndo_empty.
  - intros evs Hedits S. split; [|split].
    + intros HS.
      change (handleUndo (run evs st)) with (iter 1 handleUndo (run evs st)).
      rewrite (undo_after_edits evs st 1 HI Hedits). cbv zeta.
      rewrite length_app. fold S. unfold HISTORY_LIMIT.
      replace (List.length (historyRef st) + S
               - Nat.min 1 (Nat.min (List.length (historyRef st) + S) 50))%nat
        with (List.length (historyRef st) + (S - 1))%nat by lia.
      rewrite <- app_assoc, app_nth2_plus.
      rewrite app_nth1 by (fold S; lia).
      rewrite <- snapshotsOf_last.
      destruct (snapshotsOf evs st) as [|p ps] eqn:E using rev_ind;
        [simpl in S; lia|].
      subst S. rewrite last_last, length_app. cbn [List.length].
      replace (List.length ps + 1 - 1)%nat with (List.length ps) by lia.
      apply nth_middle.
    + intros HS.
      rewrite (undo_after_edits evs st S HI Hedits). cbv zeta.
      rewrite length_app. fold S. unfold HISTORY_LIMIT in *.
      replace (List.length (historyRef st) + S
               - Nat.min S (Nat.min (List.length (historyRef st) + S) 50))%nat
        with (List.length (historyRef st) + 0)%nat by lia.
      rewrite <- app_assoc, app_nth2_plus.
      apply snapshotsOf_first.
    + intros Honce. unfold S. now rewrite snapshotsOf_once.
Qed.

(** The sample session in the production build pushes two snapshots and
    two Undos take it back; two pointer releases in the development build
    push four and four Undos take them back. *)
Lemma undo_restores_witness :
  annotationsOf (iter 2 handleUndo (run sampleEdits sampleState))
  = annotationsOf sampleState
  /\ annotationsOf (iter 4 handleUndo (run twoStrictHighlights sampleState))
     = annotationsOf sampleState.
Proof.
  split.
  - apply (proj1 (proj2 (proj2 (proj2
             (undo_restores [Fetched samplePdf; SetMode (annotate highlight)]))
             sampleEdits eq_refl))).
    apply Nat.leb_le. vm_compute. reflexivity.
  - apply (proj1 (proj2 (proj2 (proj2
             (undo_restores [Fetched samplePdf; SetMode (annotate highlight)]))
             twoStrictHighlights eq_refl))).
    apply Nat.leb_le. vm_compute. reflexivity.
Defined.

(** X23: in every state the page can reach the history holds at most 50
    snapshots.  An edit that changes the collection pushes the collection
    as it was, once, or twice for a pointer release in the development
    build, each push dropping the oldest snapshot when 50 are held; so after
    a run of edits the history is the last 50 of the snapshots held before
    and the snapshots pushed since.  After 60 changes that each pushed once
    in a fresh session the history is the last 50 replaced collections:
    Undo gives them back newest first and stops at the collection the 11th
    change replaced, and the first 10 never come back. *)
Theorem history_bounded (evs0 : list Event) :
  let st := run evs0 initialState in
  (List.length (historyRef st) <= HISTORY_LIMIT)%nat
  /\ (forall ev,
        isEdit ev = true ->
        annotationsOf (step st ev) <> annotationsOf st ->
        historyRef (step st ev)
        = iter (pushCount ev)
            (fun h => (if (List.length h <? HISTORY_LIMIT)%nat then h else tl h)
                      ++ [annotationsOf st])
            (historyRef st))
  /\ (forall evs,
        forallb isEdit evs = true ->
        historyRef (run evs st)
        = keepLast HISTORY_LIMIT (historyRef st ++ snapshotsOf evs st))
  /\ (forall pdf evs,
        forallb isEdit evs = true ->
        forallb pushesOnce evs = true ->
        let st0 := fetched pdf st in
        let prior := priorStates evs st0 in
        List.length prior = 60%nat ->
        historyRef (run evs st0) = skipn 10 prior
        /\ forall j,
             annotationsOf (iter j handleUndo (run evs st0))
             = nth (60 - Nat.min j 50)
                   (prior ++ [annotationsOf (run evs st0)]) []).
Proof.
  intros st.
  assert (HI : Inv st) by apply Inv_reachable.
  split; [apply HI|]. split; [|split].
  - intros ev Hedit Hch.
    pose proof (step_edit_changes st ev Hedit) as Hstep.
    apply changes_spec in Hch. rewrite Hch in Hstep.
    destruct Hstep as (_ & _ & Hh & _). exact Hh.
  - intros evs Hedits. now apply history_after_edits.
  - intros pdf evs Hedits Honce st0 prior Hlen.
    assert (HI0 : Inv st0) by apply (Inv_step st (Fetched pdf) HI).
    assert (Hsnap : snapshotsOf evs st0 = prior) by (now apply snapshotsOf_once).
    split.
    + rewrite (history_after_edits evs st0 HI0 Hedits).
      unfold keepLast. simpl app. rewrite Hsnap, Hlen. reflexivity.
    + intros j. rewrite (undo_after_edits evs st0 j HI0 Hedits). cbv zeta.
      simpl app. rewrite Hsnap, Hlen. unfold HISTORY_LIMIT.
      f_equal; lia.
Qed.

Lemma history_bounded_witness :
  historyRef (run (sixtyHighlights production) (fetched samplePdf
                (run [SetMode (annotate highlight)] initialState)))
  = skipn 10 (priorStates (sixtyHighlights production) (fetched samplePdf
                (run [SetMode (annotate highlight)] initialState))).
Proof.
  apply (proj2 (proj2 (proj2 (history_bounded [SetMode (annotate highlight)])))
           samplePdf (sixtyHighlights production)).
  - vm_compute. reflexivity.
  - vm_compute. reflexivity.
  - vm_compute. reflexivity.
Defined.

(** ** The document store *)

Lemma coalesce_provided (a b : Server.Prop_) :
  Server.coalesce a b = if Server.provided a then a else b.
Proof. destruct a as [[]|]; reflexivity. Qed.

Lemma findIndex_None {A : Type} (p : A -> bool) (l : list A) :
  find p l = None -> Server.findIndex p l = None.
Proof.
  induction l as [|a l IH]; simpl; [reflexivity|].
  destruct (p a); [discriminate|]. intros H. now rewrite IH.
Qed.

Lemma findIndex_assign {A : Type} (p : A -> bool) (l : list A) (a v : A) :
  find p l = Some a -> p v = true ->
  exists i,
    Server.findIndex p l = Some i
    /\ nth_error l i = Some a
    /\ nth_error (Server.assign i v l) i = Some v
    /\ find p (Server.assign i v l) = Some v
    /\ List.length (Server.assign i v l) = List.length l
    /\ forall q : A -> bool, q a = false -> q v = false ->
         find q (Server.assign i v l) = find q l.
Proof.
  intros Hfind Hv. induction l as [|b l IH]; simpl in *; [discriminate|].
  destruct (p b) eqn:Hb.
  - injection Hfind as ->. exists 0%nat. simpl. rewrite Hv.
    repeat split. intros q Hqa Hqv. simpl. now rewrite Hqa, Hqv.
  - destruct (IH Hfind) as (i & Hi & Hn & Hn' & Hf & Hl & Hq).
    exists (S i). rewrite Hi. simpl. rewrite Hb, Hl.
    repeat split; try assumption.
    intros q Hqa Hqv. simpl. now rewrite (Hq q Hqa Hqv).
Qed.

(** C9: a [PUT] on an id the store does not hold answers 404 and changes
    nothing.  On an id it holds, the record is rewritten with the body's
    title, author, journal and annotations where the body provides one (a
    property that is present and not [null]) and with the stored value
    where it does not; the id and the other properties are kept, no other
    record changes, the response is the rewritten record, and a [GET] of
    the id returns it: annotations sent are annotations read back. *)
Theorem put_then_get (id : string) (body : Server.Body.t) (db : Server.DB) :
  (find (Server.hasId id) db = None ->
   Server.put id body db = (db, Server.SentText 404)
   /\ Server.get id db = Server.SentText 404)
  /\ (forall old,
        find (Server.hasId id) db = Some old ->
        exists updated,
          snd (Server.put id body db) = Server.Sent 200 updated
          /\ Server.get id (fst (Server.put id body db)) = Server.Sent 200 updated
          /\ Server.Stored.id updated = Server.Stored.id old
          /\ Server.Stored.others updated = Server.Stored.others old
          /\ Server.Stored.title updated
             = (if Server.provided (Server.Body.title body)
                then Server.Body.title body else Server.Stored.title old)
          /\ Server.Stored.author updated
             = (if Server.provided (Server.Body.author body)
                then Server.Body.author body else Server.Stored.author old)
          /\ Server.Stored.journal updated
             = (if Server.provided (Server.Body.journal body)
                then Server.Body.journal body else Server.Stored.journal old)
          /\ Server.Stored.annotations updated
             = (if Server.provided (Server.Body.annotations body)
                then Server.Body.annotations body else Server.Stored.annotations old)
          /\ List.length (fst (Server.put id body db)) = List.length db
          /\ forall id', id' <> id ->
               Server.get id' (fst (Server.put id body db)) = Server.get id' db).
Proof.
  split.
  - intros Hnone. unfold Server.put, Server.get.
    now rewrite (findIndex_None _ _ Hnone), Hnone.
  - intros old Hfind.
    assert (Hid : Server.hasId id old = true) by (apply (find_some _ _ Hfind)).
    assert (Hid' : Server.hasId id (Server.merge old body) = true) by exact Hid.
    destruct (findIndex_assign _ _ _ _ Hfind Hid')
      as (i & Hi & Hn & Hn' & Hf & Hl & Hq).
    exists (Server.merge old body).
    unfold Server.put, Server.get. rewrite Hi, Hn, Hn'. simpl. rewrite Hf.
    rewrite !coalesce_provided.
    repeat split; try assumption.
    intros id' Hne.
    assert (Hold : Server.hasId id' old = false).
    { unfold Server.hasId in *. apply String.eqb_eq in Hid.
      apply String.eqb_neq. congruence. }
    now rewrite (Hq (Server.hasId id') Hold Hold).
Qed.

Lemma put_then_get_witness :
  exists updated,
    Server.get "doc" (fst (Server.put "doc" sampleBody [sampleStored]))
    = Server.Sent 200 updated
    /\ Server.Stored.annotations updated = Server.Body.annotations sampleBody
    /\ Server.Stored.journal updated = Server.Stored.journal sampleStored.
Proof.
  destruct (proj2 (put_then_get "doc" sampleBody [sampleStored]) sampleStored eq_refl)
    as (updated & _ & Hget & _ & _ & _ & _ & Hj & Ha & _).
  exists updated. repeat split; assumption.
Defined.

(* ================================================================== *)
(** * Further properties of the view page                              *)
(* ================================================================== *)

(** ** Note edits and deletion *)

Lemma findAnnotation_id (i : string) (l : list Annotation.t) (a : Annotation.t) :
  findAnnotation i l = Some a -> In a l /\ Annotation.id a = i.
Proof.
  intros H. apply find_some in H. destruct H as [Hin Hid].
  apply String.eqb_eq in Hid. auto.
Qed.

Lemma findAnnotation_replaceNote (i : string) (n : option string)
  (l : list Annotation.t) (a : Annotation.t) :
  findAnnotation i l = Some a ->
  findAnnotation i (replaceNote i n l) = Some (Annotation.with_note a n).
Proof.
  unfold findAnnotation, replaceNote.
  induction l as [|b l IH]; simpl; [discriminate|].
  destruct (String.eqb (Annotation.id b) i) eqn:E; simpl.
  - intros [= ->]. now rewrite E.
  - intros H. rewrite E. now apply IH.
Qed.

Lemma replaceNote_ids (i : string) (n : option string) (l : list Annotation.t) :
  map Annotation.id (replaceNote i n l) = map Annotation.id l.
Proof.
  unfold replaceNote. rewrite map_map. apply map_ext.
  intros a. now destruct (String.eqb (Annotation.id a) i).
Qed.

Lemma replaceNote_stripNote (i : string) (n : option string) (l : list Annotation.t) :
  map stripNote (replaceNote i n l) = map stripNote l.
Proof.
  unfold replaceNote. rewrite map_map. apply map_ext.
  intros a. now destruct (String.eqb (Annotation.id a) i).
Qed.

Lemma replaceNote_absent (i : string) (n : option string) (l : list Annotation.t) :
  ~ In i (map Annotation.id l) -> replaceNote i n l = l.
Proof.
  unfold replaceNote. induction l as [|a l IH]; simpl; [reflexivity|].
  intros H. destruct (String.eqb (Annotation.id a) i) eqn:E.
  - apply String.eqb_eq in E. exfalso. apply H. now left.
  - f_equal. apply IH. intros Hin. apply H. now right.
Qed.

Lemma filter_id_absent (i : string) (l : list Annotation.t) :
  ~ In i (map Annotation.id l) ->
  filter (fun a => negb (String.eqb (Annotation.id a) i)) l = l.
Proof.
  induction l as [|a l IH]; simpl; [reflexivity|].
  intros H. destruct (String.eqb (Annotation.id a) i) eqn:E; simpl.
  - apply String.eqb_eq in E. exfalso. apply H. now left.
  - f_equal. apply IH. intros Hin. apply H. now right.
Qed.

(** With unique ids the annotation that carries an id splits the
    collection in two parts that do not carry it. *)
Lemma unique_id_split (l1 l2 : list Annotation.t) (a : Annotation.t) :
  NoDup (map Annotation.id (l1 ++ a :: l2)) ->
  ~ In (Annotation.id a) (map Annotation.id l1)
  /\ ~ In (Annotation.id a) (map Annotation.id l2).
Proof.
  rewrite map_app. simpl. intros H.
  apply NoDup_remove_2 in H. split; intros Hin; apply H, in_or_app; auto.
Qed.

Lemma replaceNote_split (n : option string) (l1 l2 : list Annotation.t)
  (a : Annotation.t) :
  NoDup (map Annotation.id (l1 ++ a :: l2)) ->
  replaceNote (Annotation.id a) n (l1 ++ a :: l2)
  = l1 ++ Annotation.with_note a n :: l2.
Proof.
  intros H. destruct (unique_id_split _ _ _ H) as [H1 H2].
  unfold replaceNote. rewrite map_app. simpl. rewrite String.eqb_refl.
  fold (replaceNote (Annotation.id a) n l1). fold (replaceNote (Annotation.id a) n l2).
  now rewrite !replaceNote_absent.
Qed.

Lemma filter_id_split (l1 l2 : list Annotation.t) (a : Annotation.t) :
  NoDup (map Annotation.id (l1 ++ a :: l2)) ->
  filter (fun b => negb (String.eqb (Annotation.id b) (Annotation.id a)))
         (l1 ++ a :: l2)
  = l1 ++ l2.
Proof.
  intros H. destruct (unique_id_split _ _ _ H) as [H1 H2].
  rewrite filter_app. simpl. rewrite String.eqb_refl. simpl.
  now rewrite !filter_id_absent.
Qed.

Lemma findAnnotation_split (l1 l2 : list Annotation.t) (a : Annotation.t) :
  NoDup (map Annotation.id (l1 ++ a :: l2)) ->
  findAnnotation (Annotation.id a) (l1 ++ a :: l2) = Some a.
Proof.
  intros H. destruct (unique_id_split _ _ _ H) as [H1 _].
  unfold findAnnotation. clear H.
  induction l1 as [|b l1 IH]; simpl.
  - now rewrite String.eqb_refl.
  - destruct (String.eqb (Annotation.id b) (Annotation.id a)) eqn:E.
    + apply String.eqb_eq in E. exfalso. apply H1. now left.
    + apply IH. intros Hin. apply H1. now right.
Qed.

(** X1: removing the note of the active annotation.  When its note is
    absent or empty nothing changes at all.  Otherwise the note of the
    annotations that carry the active id becomes absent, one snapshot of
    the collection is pushed, the draft is emptied and the popup stays
    open on the same annotation.  Removing the note a second time changes
    nothing. *)
Theorem handleClearNote_effect (st : State) (pdf : PDF.t) (activeId : string)
  (target : Annotation.t) :
  currentPdf st = Some pdf ->
  activeAnnotationId st = Some activeId ->
  truthy activeId = true ->
  findAnnotation activeId (PDF.annotations pdf) = Some target ->
  (truthyOpt (Annotation.note target) = false -> handleClearNote st = st)
  /\ (truthyOpt (Annotation.note target) = true ->
      annotationsOf (handleClearNote st)
      = replaceNote activeId None (PDF.annotations pdf)
      /\ historyRef (handleClearNote st)
         = pushed (historyRef st) (PDF.annotations pdf)
      /\ popupOf (handleClearNote st)
         = (Some activeId, EmptyString, popupPosition st))
  /\ handleClearNote (handleClearNote st) = handleClearNote st.
Proof.
  intros Hpdf Hactive Htruthy Hfind.
  assert (Hstep : handleClearNote st
                  = if negb (truthyOpt (Annotation.note target)) then st
                    else setNoteDraft EmptyString
                           (setCurrentPdf
                              (Some (PDF.with_annotations pdf
                                       (replaceNote activeId None (PDF.annotations pdf))))
                              (pushHistorySnapshot (PDF.annotations pdf) st))).
  { unfold handleClearNote. now rewrite Hpdf, Hactive, Htruthy, Hfind. }
  split; [|split].
  - intros H. now rewrite Hstep, H.
  - intros H. rewrite Hstep, H. simpl. repeat split.
    + apply pushHistorySnapshot_history.
    + unfold popupOf. simpl. now rewrite Hactive.
  - rewrite Hstep. destruct (truthyOpt (Annotation.note target)) eqn:E; simpl.
    + unfold handleClearNote. simpl. rewrite Hactive, Htruthy. simpl.
      rewrite (findAnnotation_replaceNote _ None _ _ Hfind). reflexivity.
    + unfold handleClearNote.
      now rewrite Hpdf, Hactive, Htruthy, Hfind, E.
Qed.

Lemma handleClearNote_effect_witness :
  handleClearNote (handleClearNote notedState) = handleClearNote notedState.
Proof.
  apply (handleClearNote_effect notedState
           (PDF.mk "doc" "Title" "/files/doc.pdf"
              [Annotation.mk "n1" highlight 0 [Rect.mk 5 1 25 (1 # 2)]
                 (Some "idea"%string)])
           "n1"
           (Annotation.mk "n1" highlight 0 [Rect.mk 5 1 25 (1 # 2)]
              (Some "idea"%string)));
    reflexivity.
Defined.

Lemma pushed_snoc (h : list (list Annotation.t)) (a : list Annotation.t) :
  exists h', pushed h a = h' ++ [a].
Proof. unfold pushed. eexists. reflexivity. Qed.

(** X2: deleting the active annotation when the collection holds its id.
    No annotation with that id is left, the others stay in their order (the
    result is the collection filtered), one snapshot is pushed, the popup
    is closed, and one Undo brings the deleted annotation back where it
    was.  With unique ids exactly one annotation goes. *)
Theorem handleDeleteAnnotation_present (st : State) (pdf : PDF.t) (activeId : string) :
  currentPdf st = Some pdf ->
  activeAnnotationId st = Some activeId ->
  truthy activeId = true ->
  In activeId (map Annotation.id (PDF.annotations pdf)) ->
  let st' := handleDeleteAnnotation st in
  annotationsOf st'
  = filter (fun a => negb (String.eqb (Annotation.id a) activeId)) (PDF.annotations pdf)
  /\ ~ In activeId (map Annotation.id (annotationsOf st'))
  /\ historyRef st' = pushed (historyRef st) (PDF.annotations pdf)
  /\ popupOf st' = (None, EmptyString, None)
  /\ annotationsOf (handleUndo st') = PDF.annotations pdf
  /\ (forall l1 a l2,
        NoDup (map Annotation.id (PDF.annotations pdf)) ->
        PDF.annotations pdf = l1 ++ a :: l2 ->
        Annotation.id a = activeId ->
        annotationsOf st' = l1 ++ l2).
Proof.
  intros Hpdf Hactive Htruthy Hin st'.
  assert (Hex : existsb (fun a => String.eqb (Annotation.id a) activeId)
                        (PDF.annotations pdf) = true).
  { apply in_map_iff in Hin. destruct Hin as (a & Hid & Ha).
    apply existsb_exists. exists a. split; [exact Ha|]. now apply String.eqb_eq. }
  assert (Hstep : st' = closeAnnotationPopup
                          (setCurrentPdf
                             (Some (PDF.with_annotations pdf
                                      (filter (fun a => negb (String.eqb (Annotation.id a) activeId))
                                              (PDF.annotations pdf))))
                             (pushHistorySnapshot (PDF.annotations pdf) st))).
  { unfold st', handleDeleteAnnotation. now rewrite Hpdf, Hactive, Htruthy, Hex. }
  assert (Hh : historyRef st' = pushed (historyRef st) (PDF.annotations pdf)).
  { rewrite Hstep. simpl. apply pushHistorySnapshot_history. }
  assert (Ha : annotationsOf st'
               = filter (fun a => negb (String.eqb (Annotation.id a) activeId))
                        (PDF.annotations pdf)).
  { rewrite Hstep. reflexivity. }
  split; [exact Ha|]. split; [|split; [exact Hh|split; [|split]]].
  - rewrite Ha. intros H. apply in_map_iff in H. destruct H as (a & Hid & Hf).
    apply filter_In in Hf. destruct Hf as [_ Hf]. apply negb_true_iff in Hf.
    apply String.eqb_neq in Hf. contradiction.
  - rewrite Hstep. reflexivity.
  - destruct (pushed_snoc (historyRef st) (PDF.annotations pdf)) as [h' Hp].
    rewrite Hp in Hh.
    assert (Hsome : currentPdf st' <> None) by (rewrite Hstep; discriminate).
    apply (handleUndo_snoc st' h' _ Hh Hsome).
  - intros l1 a l2 Hnd Hsplit Hid. rewrite Ha, Hsplit, <- Hid.
    apply filter_id_split. now rewrite <- Hsplit.
Qed.

Lemma handleDeleteAnnotation_present_witness :
  annotationsOf (handleDeleteAnnotation notedState) = [].
Proof.
  apply (proj1 (handleDeleteAnnotation_present notedState
           (PDF.mk "doc" "Title" "/files/doc.pdf"
              [Annotation.mk "n1" highlight 0 [Rect.mk 5 1 25 (1 # 2)]
                 (Some "idea"%string)])
           "n1" eq_refl eq_refl eq_refl (or_introl eq_refl))).
Defined.

(** X3: with unique ids, committing a note replaces the note of the one
    active annotation by the trimmed draft (absent when the draft is blank)
    and leaves every other annotation, and the order, as they are, whether
    or not the commit pushes a snapshot; the ids stay as they were. *)
Theorem handleSaveNote_unique (st : State) (pdf : PDF.t)
  (l1 l2 : list Annotation.t) (a : Annotation.t) :
  currentPdf st = Some pdf ->
  activeAnnotationId st = Some (Annotation.id a) ->
  truthy (Annotation.id a) = true ->
  PDF.annotations pdf = l1 ++ a :: l2 ->
  NoDup (map Annotation.id (PDF.annotations pdf)) ->
  annotationsOf (handleSaveNote st)
  = l1 ++ Annotation.with_note a (orUndefined (trim (noteDraft st))) :: l2
  /\ map Annotation.id (annotationsOf (handleSaveNote st))
     = map Annotation.id (PDF.annotations pdf).
Proof.
  intros Hpdf Hactive Htruthy Hsplit Hnd.
  assert (Hfind : findAnnotation (Annotation.id a) (PDF.annotations pdf) = Some a).
  { rewrite Hsplit. apply findAnnotation_split. now rewrite <- Hsplit. }
  assert (Hrep : replaceNote (Annotation.id a) (orUndefined (trim (noteDraft st)))
                   (PDF.annotations pdf)
                 = l1 ++ Annotation.with_note a (orUndefined (trim (noteDraft st))) :: l2).
  { rewrite Hsplit. apply replaceNote_split. now rewrite <- Hsplit. }
  assert (Ha : annotationsOf (handleSaveNote st)
               = l1 ++ Annotation.with_note a (orUndefined (trim (noteDraft st))) :: l2).
  { unfold handleSaveNote. rewrite Hpdf, Hactive, Htruthy, Hfind. simpl.
    destruct (noteEqb _ _) eqn:E.
    - apply noteEqb_eq in E. unfold annotationsOf. simpl. rewrite Hpdf, Hsplit.
      rewrite <- E. now destruct a.
    - unfold annotationsOf. simpl. exact Hrep. }
  split; [exact Ha|].
  rewrite Ha, <- Hrep. apply replaceNote_ids.
Qed.

Lemma handleSaveNote_unique_witness :
  annotationsOf (handleSaveNote (setNoteDraft "  better idea " notedState))
  = [Annotation.mk "n1" highlight 0 [Rect.mk 5 1 25 (1 # 2)]
       (Some "better idea"%string)].
Proof.
  apply (proj1 (handleSaveNote_unique (setNoteDraft "  better idea " notedState)
           (PDF.mk "doc" "Title" "/files/doc.pdf"
              [Annotation.mk "n1" highlight 0 [Rect.mk 5 1 25 (1 # 2)]
                 (Some "idea"%string)])
           [] []
           (Annotation.mk "n1" highlight 0 [Rect.mk 5 1 25 (1 # 2)]
              (Some "idea"%string))
           eq_refl eq_refl eq_refl eq_refl
           (NoDup_cons _ (fun H : In _ [] => H) (NoDup_nil _)))).
Defined.

(** X4: a note edit touches notes only.  After any event other than a
    pointer release, a deletion, an undo or a reload, the annotations
    without their notes are what they were: same ids, types, page indices
    and rects, in the same order. *)
Theorem note_edits_keep_shapes (st : State) (ev : Event) :
  match ev with
  | Fetched _ | MouseUp _ _ _ | DeleteAnnotation | Undo => False
  | _ => True
  end ->
  map stripNote (annotationsOf (step st ev)) = map stripNote (annotationsOf st).
Proof.
  destruct ev; simpl; intros H; try contradiction; try reflexivity.
  - unfold handleSaveNote, annotationsOf.
    destruct (currentPdf st) as [pdf|] eqn:Hpdf; [|now rewrite Hpdf].
    destruct (activeAnnotationId st) as [activeId|]; [|now rewrite Hpdf].
    destruct (truthy activeId); simpl; [|now rewrite Hpdf].
    destruct (findAnnotation activeId (PDF.annotations pdf)); [|now rewrite Hpdf].
    destruct (noteEqb _ _); simpl; [now rewrite Hpdf|].
    apply replaceNote_stripNote.
  - unfold handleClearNote, annotationsOf.
    destruct (currentPdf st) as [pdf|] eqn:Hpdf; [|now rewrite Hpdf].
    destruct (activeAnnotationId st) as [activeId|]; [|now rewrite Hpdf].
    destruct (truthy activeId); simpl; [|now rewrite Hpdf].
    destruct (findAnnotation activeId (PDF.annotations pdf)) as [target|];
      [|now rewrite Hpdf].
    destruct (truthyOpt (Annotation.note target)); simpl; [|now rewrite Hpdf].
    apply replaceNote_stripNote.
Qed.

Lemma note_edits_keep_shapes_witness :
  map stripNote (annotationsOf (step (setNoteDraft "x" notedState) SaveNote))
  = map stripNote (annotationsOf (setNoteDraft "x" notedState)).
Proof. apply (note_edits_keep_shapes (setNoteDraft "x" notedState) SaveNote I). Defined.

(** ** Opening the popup and committing *)

(** X5: opening the popup of an annotation and committing without typing.
    The popup closes; the collection is left as it is exactly when the
    stored note is absent or is a non-empty text without whitespace at its
    ends, and then the history is left as it is too.  A stored note with
    whitespace around it, or an empty one, is rewritten by the commit. *)
Theorem open_then_commit (st : State) (pdf : PDF.t) (annotationId : string)
  (anchorRect : DOMRect.t) (target : Annotation.t) :
  currentPdf st = Some pdf ->
  truthy annotationId = true ->
  findAnnotation annotationId (PDF.annotations pdf) = Some target ->
  let st' := handleSaveNote (openAnnotationPopup annotationId anchorRect st) in
  (annotationsOf st' = annotationsOf st <-> normalNote (Annotation.note target))
  /\ (normalNote (Annotation.note target) -> core st' = core st)
  /\ popupOf st' = (None, EmptyString, None).
Proof.
  intros Hpdf Htruthy Hfind st'. unfold st'. clear st'.
  set (st1 := openAnnotationPopup annotationId anchorRect st).
  assert (Hpdf1 : currentPdf st1 = Some pdf) by exact Hpdf.
  assert (Hact1 : activeAnnotationId st1 = Some annotationId) by reflexivity.
  assert (Hdraft : noteDraft st1
                   = match Annotation.note target with Some n => n | None => EmptyString end).
  { unfold st1, openAnnotationPopup, annotationsOf. simpl. now rewrite Hpdf, Hfind. }
  destruct (handleSaveNote_strict st1 pdf annotationId target Hpdf1 Hact1 Htruthy Hfind)
    as [Hsame Hdiff].
  assert (Hnormal : normalNote (Annotation.note target)
                    <-> Annotation.note target = orUndefined (trim (noteDraft st1))).
  { rewrite Hdraft. unfold normalNote, orUndefined.
    destruct (Annotation.note target) as [s|]; [|split; [reflexivity | exact (fun _ => I)]].
    destruct (truthy (trim s)) eqn:E.
    - split.
      + intros [_ Ht]. now rewrite Ht.
      + intros [= Ht]. split; [|now symmetry].
        intros Hs. rewrite Hs in E. vm_compute in E. discriminate.
    - apply truthy_false in E. split; [|discriminate].
      intros [Hne Ht]. congruence. }
  assert (Hpop : popupOf (handleSaveNote st1) = (None, EmptyString, None)).
  { unfold handleSaveNote. rewrite Hpdf1, Hact1, Htruthy, Hfind. simpl.
    now destruct (noteEqb _ _). }
  split; [|split; [|exact Hpop]].
  - split.
    + intros Heq. apply Hnormal.
      destruct (noteEqb (Annotation.note target)
                  (orUndefined (trim (noteDraft st1)))) eqn:Eq;
        [now apply noteEqb_eq|].
      assert (Hne : Annotation.note target <> orUndefined (trim (noteDraft st1))).
      { intros He. apply noteEqb_eq in He. congruence. }
      exfalso. destruct (Hdiff Hne) as [_ Ha]. rewrite Ha in Heq.
      unfold annotationsOf in Heq. rewrite Hpdf in Heq.
      now apply (replaceNote_changes _ _ _ _ Hfind Hne).
    + intros Hn. apply Hnormal in Hn. specialize (Hsame Hn).
      unfold core in Hsame. injection Hsame as Hc _ _.
      unfold annotationsOf. rewrite Hc. reflexivity.
  - intros Hn. apply Hnormal in Hn. exact (Hsame Hn).
Qed.

Lemma open_then_commit_witness :
  core (handleSaveNote (openAnnotationPopup "n1" (DOMRect.mk 0 0 10 10) notedState))
  = core notedState.
Proof.
  apply (proj1 (proj2 (open_then_commit notedState
           (PDF.mk "doc" "Title" "/files/doc.pdf"
              [Annotation.mk "n1" highlight 0 [Rect.mk 5 1 25 (1 # 2)]
                 (Some "idea"%string)])
           "n1" (DOMRect.mk 0 0 10 10)
           (Annotation.mk "n1" highlight 0 [Rect.mk 5 1 25 (1 # 2)]
              (Some "idea"%string))
           eq_refl eq_refl eq_refl))).
  split; [discriminate | reflexivity].
Defined.

(** ** What no handler touches *)

Lemma step_metadata (st : State) (ev : Event) :
  notFetched ev = true -> metadataOf (step st ev) = metadataOf st.
Proof.
  destruct ev as [pdf | build uuid b | m | annotationId anchorRect | | draft | | | |];
    simpl; try discriminate; intros _; try reflexivity.
  - destruct (persistSelection_cases build uuid b st)
      as [-> | (prev & new & Hpdf & _ & ->)]; [reflexivity|].
    unfold metadataOf. simpl. now rewrite Hpdf.
  - unfold handleSaveNote, metadataOf.
    destruct (currentPdf st) as [pdf|] eqn:Hpdf; [|now rewrite Hpdf].
    destruct (activeAnnotationId st) as [activeId|]; [|now rewrite Hpdf].
    destruct (truthy activeId); simpl; [|now rewrite Hpdf].
    destruct (findAnnotation activeId (PDF.annotations pdf)); [|now rewrite Hpdf].
    destruct (noteEqb _ _); simpl; [now rewrite Hpdf | reflexivity].
  - unfold handleDeleteAnnotation, metadataOf.
    destruct (currentPdf st) as [pdf|] eqn:Hpdf; [|now rewrite Hpdf].
    destruct (activeAnnotationId st) as [activeId|]; [|now rewrite Hpdf].
    destruct (truthy activeId); simpl; [|now rewrite Hpdf].
    destruct (existsb _ _); simpl; [reflexivity | now rewrite Hpdf].
  - unfold handleClearNote, metadataOf.
    destruct (currentPdf st) as [pdf|] eqn:Hpdf; [|now rewrite Hpdf].
    destruct (activeAnnotationId st) as [activeId|]; [|now rewrite Hpdf].
    destruct (truthy activeId); simpl; [|now rewrite Hpdf].
    destruct (findAnnotation activeId (PDF.annotations pdf)) as [target|];
      [|now rewrite Hpdf].
    destruct (truthyOpt (Annotation.note target)); simpl; [reflexivity | now rewrite Hpdf].
  - unfold handleUndo, metadataOf.
    destruct (pop (historyRef st)) as [[rest previous]|]; [|reflexivity].
    simpl. now destruct (currentPdf st).
Qed.

(** X6: whatever the user does on the page, short of loading a document,
    the id, the title and the path of the open document stay what they
    were; in particular a loaded document stays loaded. *)
Theorem handlers_keep_metadata (evs : list Event) (st : State) :
  forallb notFetched evs = true ->
  metadataOf (run evs st) = metadataOf st.
Proof.
  revert st. induction evs as [|ev evs IH]; intros st H; [reflexivity|].
  simpl in H. apply andb_true_iff in H. destruct H as [Hev Hevs].
  cbn [run fold_left]. change (fold_left step evs (step st ev)) with (run evs (step st ev)).
  now rewrite (IH _ Hevs), step_metadata.
Qed.

Lemma handlers_keep_metadata_witness :
  metadataOf (run (sampleEdits ++ [Undo; DeleteAnnotation]) sampleState)
  = metadataOf sampleState.
Proof.
  apply (handlers_keep_metadata (sampleEdits ++ [Undo; DeleteAnnotation]) sampleState).
  reflexivity.
Defined.

(** ** Keyboard *)

Lemma handleUndo_mode (st : State) : annotationMode (handleUndo st) = annotationMode st.
Proof.
  unfold handleUndo. now destruct (pop (historyRef st)) as [[rest previous]|].
Qed.

Lemma handleKeyDown_frame (e : KeyboardEvent.t) (st : State) :
  core (handleKeyDown e st) = core st /\ popupOf (handleKeyDown e st) = popupOf st.
Proof.
  unfold handleKeyDown.
  destruct (isTypingTarget _); [auto|].
  destruct (String.eqb _ "h"); [auto|].
  destruct (String.eqb _ "u"); [auto|].
  destruct (String.eqb _ "c" || String.eqb _ "0"); auto.
Qed.

Lemma handleSaveNote_mode (st : State) :
  annotationMode (handleSaveNote st) = annotationMode st.
Proof.
  unfold handleSaveNote.
  destruct (currentPdf st) as [pdf|]; [|reflexivity].
  destruct (activeAnnotationId st) as [activeId|]; [|reflexivity].
  destruct (truthy activeId); simpl; [|reflexivity].
  destruct (findAnnotation activeId (PDF.annotations pdf)); [|reflexivity].
  now destruct (noteEqb _ _).
Qed.

(** The note field acts on the key "Enter" as it is spelled. *)
Lemma handleNoteKeyDown_other (e : KeyboardEvent.t) (st : State) :
  toLowerCase (KeyboardEvent.key e) <> "enter"%string ->
  handleNoteKeyDown e st = st.
Proof.
  intros Hkey. unfold handleNoteKeyDown.
  destruct (String.eqb_spec (KeyboardEvent.key e) "Enter") as [Heq | Hne];
    [|reflexivity].
  exfalso. apply Hkey. now rewrite Heq.
Qed.

(** X7: a key pressed on the page.  The collection, the history and the
    popup change only on Ctrl+Z or Cmd+Z without Shift, which runs Undo
    wherever the focus is, and on Enter without Shift in the note field,
    which commits the note as the Save button does; any other key can at
    most change the mode.  In a text field the mode keys are ignored;
    outside one they act in either letter case and with any modifier held. *)
Theorem keyDown_effect (e : KeyboardEvent.t) (st : State) :
  ((KeyboardEvent.metaKey e || KeyboardEvent.ctrlKey e = false
    \/ KeyboardEvent.shiftKey e = true
    \/ toLowerCase (KeyboardEvent.key e) <> "z"%string) ->
   (inNoteField e = false
    \/ KeyboardEvent.shiftKey e = true
    \/ KeyboardEvent.key e <> "Enter"%string) ->
   core (keyDown e st) = core st
   /\ popupOf (keyDown e st) = popupOf st)
  /\ (KeyboardEvent.metaKey e || KeyboardEvent.ctrlKey e = true ->
      KeyboardEvent.shiftKey e = false ->
      toLowerCase (KeyboardEvent.key e) = "z"%string ->
      keyDown e st = handleUndo st)
  /\ (inNoteField e = true ->
      KeyboardEvent.shiftKey e = false ->
      KeyboardEvent.key e = "Enter"%string ->
      keyDown e st = handleSaveNote st)
  /\ (isTypingTarget (KeyboardEvent.target e) = true ->
      annotationMode (keyDown e st) = annotationMode st)
  /\ (isTypingTarget (KeyboardEvent.target e) = false ->
      (toLowerCase (KeyboardEvent.key e) = "h"%string ->
       annotationMode (keyDown e st) = annotate highlight)
      /\ (toLowerCase (KeyboardEvent.key e) = "u"%string ->
          annotationMode (keyDown e st) = annotate underline)
      /\ (toLowerCase (KeyboardEvent.key e) = "c"%string
          \/ toLowerCase (KeyboardEvent.key e) = "0"%string ->
          annotationMode (keyDown e st) = cursor)).
Proof.
  split; [|split; [|split; [|split]]].
  - intros H Hnote.
    assert (Hn : (if inNoteField e then handleNoteKeyDown e st else st) = st).
    { unfold handleNoteKeyDown. destruct Hnote as [-> | [-> | Hk]].
      - reflexivity.
      - rewrite andb_false_r. now destruct (inNoteField e).
      - apply String.eqb_neq in Hk. rewrite Hk. now destruct (inNoteField e). }
    unfold keyDown. rewrite Hn. unfold windowKeyDown, handleUndoShortcut.
    assert (Hc : (KeyboardEvent.metaKey e || KeyboardEvent.ctrlKey e)
                 && negb (KeyboardEvent.shiftKey e)
                 && String.eqb (toLowerCase (KeyboardEvent.key e)) "z" = false).
    { destruct H as [-> | [-> | Hk]].
      - reflexivity.
      - now rewrite andb_false_r.
      - apply String.eqb_neq in Hk. rewrite Hk. now rewrite andb_false_r. }
    rewrite Hc. apply handleKeyDown_frame.
  - intros Hmod Hshift Hkey.
    assert (Hn : (if inNoteField e then handleNoteKeyDown e st else st) = st).
    { destruct (inNoteField e); [|reflexivity].
      apply handleNoteKeyDown_other. rewrite Hkey. discriminate. }
    unfold keyDown. rewrite Hn. unfold windowKeyDown, handleUndoShortcut.
    rewrite Hmod, Hshift, Hkey. simpl.
    unfold handleKeyDown. rewrite Hkey. simpl.
    now destruct (isTypingTarget _).
  - intros Hnote Hshift Hkey.
    unfold keyDown, handleNoteKeyDown. rewrite Hnote, Hshift, Hkey. simpl.
    unfold windowKeyDown, handleUndoShortcut, handleKeyDown. rewrite Hkey. simpl.
    rewrite andb_false_r. now destruct (isTypingTarget _).
  - intros Htyping. unfold keyDown, windowKeyDown.
    set (st1 := if inNoteField e then handleNoteKeyDown e st else st).
    assert (H1 : annotationMode st1 = annotationMode st).
    { unfold st1, handleNoteKeyDown. destruct (inNoteField e); [|reflexivity].
      destruct (_ && _); [apply handleSaveNote_mode | reflexivity]. }
    assert (Hk : handleKeyDown e st1 = st1) by (unfold handleKeyDown; now rewrite Htyping).
    rewrite Hk. unfold handleUndoShortcut.
    destruct (_ && _); [now rewrite handleUndo_mode | exact H1].
  - intros Htyping.
    assert (Hn : toLowerCase (KeyboardEvent.key e) <> "enter"%string ->
                 keyDown e st = windowKeyDown e st).
    { intros Hk. unfold keyDown. destruct (inNoteField e); [|reflexivity].
      now rewrite handleNoteKeyDown_other. }
    unfold windowKeyDown, handleUndoShortcut, handleKeyDown in Hn.
    rewrite Htyping in Hn.
    split; [|split].
    + intros Hkey. rewrite Hn by (rewrite Hkey; discriminate).
      rewrite Hkey. simpl. now rewrite !andb_false_r.
    + intros Hkey. rewrite Hn by (rewrite Hkey; discriminate).
      rewrite Hkey. simpl. now rewrite !andb_false_r.
    + intros [Hkey | Hkey]; (rewrite Hn by (rewrite Hkey; discriminate));
        rewrite Hkey; simpl; now rewrite !andb_false_r.
Qed.

(** In the note field of the sample session, Enter commits the draft and
    Ctrl+Z takes the last change back. *)
Lemma keyDown_effect_witness :
  keyDown
    {| KeyboardEvent.key := "Enter"; KeyboardEvent.metaKey := false;
       KeyboardEvent.ctrlKey := false; KeyboardEvent.shiftKey := false;
       KeyboardEvent.target :=
         Some {| KeyboardEvent.tagName := "TEXTAREA";
                 KeyboardEvent.isContentEditable := false;
                 KeyboardEvent.inNoteField := true |} |}
    (run (firstn 3 sampleEdits) sampleState)
  = handleSaveNote (run (firstn 3 sampleEdits) sampleState)
  /\ keyDown
       {| KeyboardEvent.key := "Z"; KeyboardEvent.metaKey := false;
          KeyboardEvent.ctrlKey := true; KeyboardEvent.shiftKey := false;
          KeyboardEvent.target :=
            Some {| KeyboardEvent.tagName := "TEXTAREA";
                    KeyboardEvent.isContentEditable := false;
                    KeyboardEvent.inNoteField := true |} |}
       (run sampleEdits sampleState)
     = handleUndo (run sampleEdits sampleState).
Proof.
  split.
  - apply (proj1 (proj2 (proj2 (keyDown_effect
             {| KeyboardEvent.key := "Enter"; KeyboardEvent.metaKey := false;
                KeyboardEvent.ctrlKey := false; KeyboardEvent.shiftKey := false;
                KeyboardEvent.target :=
                  Some {| KeyboardEvent.tagName := "TEXTAREA";
                          KeyboardEvent.isContentEditable := false;
                          KeyboardEvent.inNoteField := true |} |}
             (run (firstn 3 sampleEdits) sampleState))))); reflexivity.
  - apply (proj1 (proj2 (keyDown_effect
             {| KeyboardEvent.key := "Z"; KeyboardEvent.metaKey := false;
                KeyboardEvent.ctrlKey := true; KeyboardEvent.shiftKey := false;
                KeyboardEvent.target :=
                  Some {| KeyboardEvent.tagName := "TEXTAREA";
                          KeyboardEvent.isContentEditable := false;
                          KeyboardEvent.inNoteField := true |} |}
             (run sampleEdits sampleState)))); reflexivity.
Defined.

(** ** No rect is lost or duplicated by the mapper *)

Lemma set_absent {V : Type} (k : N) (v : V) (o : JsRecord.t V) :
  JsRecord.get k o = None -> JsRecord.set k v o = o ++ [(k, v)].
Proof.
  induction o as [|[k' v'] o IH]; simpl; [reflexivity|].
  destruct (N.eqb k k'); [discriminate|]. intros H. now rewrite IH.
Qed.

Lemma set_push (k : N) (l : list Rect.t) (x : Rect.t) (o : JsRecord.t (list Rect.t)) :
  JsRecord.get k o = Some l ->
  Permutation (flat_map snd (JsRecord.set k (l ++ [x]) o)) (flat_map snd o ++ [x]).
Proof.
  induction o as [|[k' v'] o IH]; simpl; [discriminate|].
  destruct (N.eqb k k') eqn:E.
  - intros [= ->]. simpl. rewrite <- !app_assoc.
    apply Permutation_app_head, Permutation_app_comm.
  - intros H. simpl. rewrite <- app_assoc. apply Permutation_app_head. now apply IH.
Qed.

Lemma groupRect_rects (P : list PageLayer.t) (g : JsRecord.t (list Rect.t))
  (r : DOMRect.t) :
  Permutation (flat_map snd (groupRect P g r)) (flat_map snd g ++ convertedRect P r).
Proof.
  unfold groupRect, convertedRect.
  destruct (targetPage P r) as [p|]; [|now rewrite app_nil_r].
  destruct (JsRecord.get (PageLayer.pageIndex p) g) as [l|] eqn:G.
  - rewrite G. now apply set_push.
  - rewrite get_set_same.
    rewrite (set_push _ [] _ _ (get_set_same _ _ _ _)).
    rewrite (set_absent _ _ _ G), flat_map_app. simpl. now rewrite !app_nil_r.
Qed.

Lemma fold_groupRect_rects (P : list PageLayer.t) (rs : list DOMRect.t)
  (g : JsRecord.t (list Rect.t)) :
  Permutation (flat_map snd (fold_left (groupRect P) rs g))
              (flat_map snd g ++ flat_map (convertedRect P) rs).
Proof.
  revert g. induction rs as [|r rs IH]; intros g; simpl; [now rewrite app_nil_r|].
  rewrite IH, groupRect_rects. now rewrite <- app_assoc.
Qed.

Lemma mapi_from_flat_map {A B C : Type} (f : nat -> A -> B) (g : B -> list C)
  (h : A -> list C) (l : list A) (i : nat) :
  (forall j a, g (f j a) = h a) ->
  flat_map g (mapi_from f i l) = flat_map h l.
Proof.
  intros Hg. revert i. induction l as [|a l IH]; intros i; simpl; [reflexivity|].
  now rewrite Hg, IH.
Qed.

Lemma mapi_from_ids {A : Type} (uuid : nat -> string) (f : nat -> A -> Annotation.t)
  (l : list A) (i : nat) :
  (forall j a, Annotation.id (f j a) = uuid j) ->
  map Annotation.id (mapi_from f i l) = map uuid (seq i (List.length l)).
Proof.
  intros Hf. revert i. induction l as [|a l IH]; intros i; simpl; [reflexivity|].
  now rewrite Hf, IH.
Qed.

(** X8: the rects of the annotations of one selection, taken together,
    are the converted rects of the surviving fragments that some page
    claims, each exactly once: the mapper neither loses nor duplicates a
    fragment, and a fragment no page claims is dropped.  The annotations
    take the ids [uuidv4] returns, in order, the type of the mode, and no
    note. *)
Theorem mapSelection_conserves (uuid : nat -> string) (mode : AnnotationType)
  (rangeRects : list DOMRect.t) (pageLayers : list PageLayer.t) :
  let out := mapSelection uuid mode rangeRects pageLayers in
  Permutation (flat_map Annotation.rects out)
              (flat_map (convertedRect pageLayers) (filter nonDegenerate rangeRects))
  /\ map Annotation.id out = map uuid (seq 0 (List.length out))
  /\ Forall (fun a => Annotation.type a = mode /\ Annotation.note a = None) out.
Proof.
  intros out. split; [|split].
  - unfold out, mapSelection, newAnnotationsOf, mapi.
    rewrite (mapi_from_flat_map _ _ snd) by reflexivity.
    rewrite (Permutation_flat_map snd (entries_perm _ _)).
    unfold groupRects. now rewrite fold_groupRect_rects.
  - unfold out, mapSelection, newAnnotationsOf, mapi.
    rewrite mapi_from_length. now apply mapi_from_ids.
  - apply Forall_forall. intros a Ha.
    apply newAnnotationsOf_In in Ha. tauto.
Qed.

(** ** The variant of the page without history *)

(** X9: a pointer release on the variant.  It leaves the browser selection
    and the collection as the page with history does from the same
    document and mode.  Either it changes nothing, or it clears the
    selection and returns the page to the neutral mode, so that a further
    release changes nothing until a mode is chosen again. *)
Theorem variant_persistSelection (build : Build) (uuid : nat -> string) (b : Browser)
  (v : Variant.t) (st : State) :
  currentPdf st = Variant.currentPdf v ->
  annotationMode st = modeOfVariant (Variant.annotationMode v) ->
  fst (Variant.persistSelection uuid b v) = fst (persistSelection build uuid b st)
  /\ Variant.annotationsOf (snd (Variant.persistSelection uuid b v))
     = annotationsOf (snd (persistSelection build uuid b st))
  /\ (Variant.persistSelection uuid b v = (b, v)
      \/ (fst (Variant.persistSelection uuid b v) = removeAllRanges b
          /\ Variant.annotationMode (snd (Variant.persistSelection uuid b v))
             = Variant.none
          /\ forall uuid' b',
               Variant.persistSelection uuid' b'
                 (snd (Variant.persistSelection uuid b v))
               = (b', snd (Variant.persistSelection uuid b v)))).
Proof.
  intros Hpdf Hmode.
  assert (Hsame : Variant.annotationsOf v = annotationsOf st).
  { unfold Variant.annotationsOf, annotationsOf. now rewrite Hpdf. }
  unfold Variant.persistSelection, persistSelection. rewrite Hmode.
  destruct (Variant.annotationMode v) as [mode|]; simpl; [|auto].
  destruct (selection b) as [sel|]; [|auto].
  destruct (isCollapsed sel); [auto|].
  destruct (anchorInTextLayer sel); [|auto]. simpl.
  destruct (ranges sel) as [|range rest]; [auto|].
  destruct (truthy (trim (rangeText range))); [|auto]. simpl.
  destruct (List.length (filter nonDegenerate (rangeRects range)) =? 0)%nat; [auto|].
  destruct (List.length (pageLayersOf (layerElements b)) =? 0)%nat; [auto|].
  match goal with
  | |- context [List.length ?new =? 0] => destruct new as [|a new'] eqn:E
  end; [auto|].
  cbn [List.length Nat.eqb fst snd].
  split; [reflexivity|]. split.
  - unfold Variant.annotationsOf, annotationsOf. rewrite Hpdf.
    destruct (Variant.currentPdf v) as [prev|] eqn:Hv; simpl; [reflexivity|].
    now rewrite Hpdf.
  - right. repeat split.
Qed.

Lemma variant_persistSelection_witness :
  Variant.annotationsOf
    (snd (Variant.persistSelection sampleUuid sampleBrowser
            {| Variant.currentPdf := Some samplePdf;
               Variant.annotationMode := Variant.on highlight;
               Variant.activeAnnotationId := None;
               Variant.noteDraft := EmptyString;
               Variant.popupPosition := None |}))
  = annotationsOf (snd (persistSelection development sampleUuid sampleBrowser sampleState)).
Proof.
  apply (variant_persistSelection development sampleUuid sampleBrowser
           {| Variant.currentPdf := Some samplePdf;
              Variant.annotationMode := Variant.on highlight;
              Variant.activeAnnotationId := None;
              Variant.noteDraft := EmptyString;
              Variant.popupPosition := None |}
           sampleState eq_refl eq_refl).
Defined.

Lemma findAnnotation_None (i : string) (l : list Annotation.t) :
  findAnnotation i l = None -> ~ In i (map Annotation.id l).
Proof.
  intros H Hin. apply in_map_iff in Hin. destruct Hin as (a & Hid & Ha).
  apply (find_none _ _ H) in Ha. apply String.eqb_neq in Ha. contradiction.
Qed.

(** X10: the handlers of the page with history against those of the
    variant, from the same document, active id and draft.  Deleting gives
    the same collection on both pages; committing a note gives the same
    collection when the ids are unique.  What the page with history adds is
    the snapshot, and leaving things alone when nothing would change. *)
Theorem variant_handlers_agree (v : Variant.t) (st : State) :
  currentPdf st = Variant.currentPdf v ->
  activeAnnotationId st = Variant.activeAnnotationId v ->
  noteDraft st = Variant.noteDraft v ->
  Variant.annotationsOf (Variant.handleDeleteAnnotation v)
  = annotationsOf (handleDeleteAnnotation st)
  /\ (NoDup (map Annotation.id (annotationsOf st)) ->
      Variant.annotationsOf (Variant.handleSaveNote v)
      = annotationsOf (handleSaveNote st)).
Proof.
  intros Hpdf Hactive Hdraft.
  unfold Variant.handleDeleteAnnotation, handleDeleteAnnotation,
    Variant.handleSaveNote, handleSaveNote, Variant.annotationsOf, annotationsOf.
  rewrite Hpdf, Hactive, Hdraft.
  destruct (Variant.currentPdf v) as [pdf|] eqn:Hv;
    [|split; [|intros _]; simpl; rewrite ?Hv, ?Hpdf; reflexivity].
  destruct (Variant.activeAnnotationId v) as [activeId|];
    [|split; [|intros _]; simpl; rewrite ?Hv, ?Hpdf; reflexivity].
  destruct (truthy activeId); simpl;
    [|split; [|intros _]; simpl; rewrite ?Hv, ?Hpdf; reflexivity].
  split.
  - destruct (existsb _ (PDF.annotations pdf)) eqn:E; simpl; [reflexivity|].
    rewrite Hpdf. apply filter_id_absent.
    intros Hin. apply in_map_iff in Hin. destruct Hin as (a & Hid & Ha).
    assert (Hex : existsb (fun a => String.eqb (Annotation.id a) activeId)
                          (PDF.annotations pdf) = true).
    { apply existsb_exists. exists a. split; [exact Ha | now apply String.eqb_eq]. }
    congruence.
  - intros Hnd.
    destruct (findAnnotation activeId (PDF.annotations pdf)) as [target|] eqn:Hfind.
    + destruct (noteEqb _ _) eqn:E; simpl; [|reflexivity].
      rewrite Hpdf. apply noteEqb_eq in E.
      destruct (findAnnotation_id _ _ _ Hfind) as [Hin Hid].
      apply in_split in Hin. destruct Hin as (l1 & l2 & Hsplit).
      rewrite Hsplit in *. rewrite <- Hid, replaceNote_split by exact Hnd.
      rewrite <- E. now destruct target.
    + rewrite Hpdf. apply replaceNote_absent. now apply findAnnotation_None.
Qed.

Lemma variant_handlers_agree_witness :
  Variant.annotationsOf
    (Variant.handleSaveNote
       {| Variant.currentPdf := currentPdf notedState;
          Variant.annotationMode := Variant.none;
          Variant.activeAnnotationId := activeAnnotationId notedState;
          Variant.noteDraft := noteDraft notedState;
          Variant.popupPosition := None |})
  = annotationsOf (handleSaveNote notedState).
Proof.
  apply (proj2 (variant_handlers_agree
           {| Variant.currentPdf := currentPdf notedState;
              Variant.annotationMode := Variant.none;
              Variant.activeAnnotationId := activeAnnotationId notedState;
              Variant.noteDraft := noteDraft notedState;
              Variant.popupPosition := None |}
           notedState eq_refl eq_refl eq_refl)).
  repeat constructor. simpl. tauto.
Defined.

(** ** Autosave *)

Lemma AutoSaveInv_initial : AutoSaveInv AutoSave.initial.
Proof. unfold AutoSaveInv. simpl. repeat split; try discriminate. lia. Qed.

Lemma AutoSaveInv_schedule (a : AutoSave.t) :
  AutoSaveInv a -> AutoSave.skipNextAutoSaveRef a = false ->
  AutoSave.pending (AutoSave.effect true a) = [AutoSave.nextHandle a]
  /\ AutoSave.autoSaveTimerRef (AutoSave.effect true a) = Some (AutoSave.nextHandle a)
  /\ AutoSave.nextHandle (AutoSave.effect true a) = S (AutoSave.nextHandle a)
  /\ AutoSave.autoSaves (AutoSave.effect true a) = AutoSave.autoSaves a
  /\ AutoSave.skipNextAutoSaveRef (AutoSave.effect true a) = false.
Proof.
  intros (Hp & Hh & Hn) Hskip. unfold AutoSave.effect. simpl. rewrite Hskip.
  destruct (AutoSave.autoSaveTimerRef a) as [h|] eqn:R.
  - destruct (Hh h eq_refl) as [Hpos _].
    destruct (Nat.eqb_spec h 0) as [->|_]; [lia|].
    simpl. rewrite Hp. simpl. rewrite Nat.eqb_refl. simpl. repeat split. exact Hskip.
  - simpl. rewrite Hp. repeat split. exact Hskip.
Qed.

Lemma AutoSaveInv_step (a : AutoSave.t) (ev : AutoSave.Event) :
  AutoSaveInv a -> AutoSaveInv (AutoSave.step a ev).
Proof.
  intros HI. pose proof HI as (Hp & Hh & Hn).
  assert (Hskipped : forall a0, AutoSaveInv a0 ->
            AutoSave.skipNextAutoSaveRef a0 = true ->
            AutoSaveInv (AutoSave.effect true a0)).
  { intros a0 H0 Hs. unfold AutoSave.effect. simpl. rewrite Hs. exact H0. }
  assert (Hsched : forall a0, AutoSaveInv a0 ->
            AutoSave.skipNextAutoSaveRef a0 = false ->
            AutoSaveInv (AutoSave.effect true a0)).
  { intros a0 H0 Hs.
    destruct (AutoSaveInv_schedule a0 H0 Hs) as (E1 & E2 & E3 & _).
    unfold AutoSaveInv. rewrite E1, E2, E3. destruct H0 as (_ & _ & Hn0).
    repeat split; try lia; injection H as <-; lia. }
  destruct ev as [| | h]; simpl.
  - apply Hskipped; [exact HI | reflexivity].
  - destruct (AutoSave.skipNextAutoSaveRef a) eqn:S; auto.
  - unfold AutoSave.timeout. rewrite Hp.
    destruct (AutoSave.autoSaveTimerRef a) as [h0|] eqn:R; simpl; [|exact HI].
    destruct (Nat.eqb_spec h h0) as [->|Hne]; simpl; [|exact HI].
    rewrite Nat.eqb_refl. unfold AutoSaveInv. simpl.
    repeat split; try discriminate; exact Hn.
Qed.

Lemma AutoSaveInv_run (evs : list AutoSave.Event) (a : AutoSave.t) :
  AutoSaveInv a -> AutoSaveInv (AutoSave.run evs a).
Proof.
  revert a. induction evs as [|ev evs IH]; intros a H; simpl; [exact H|].
  apply IH. now apply AutoSaveInv_step.
Qed.

Lemma autoSaves_bound (evs : list AutoSave.Event) (a : AutoSave.t) :
  AutoSaveInv a ->
  (AutoSave.autoSaves (AutoSave.run evs a) + List.length (AutoSave.pending (AutoSave.run evs a))
   <= AutoSave.autoSaves a + List.length (AutoSave.pending a) + changesIn evs)%nat.
Proof.
  revert a. induction evs as [|ev evs IH]; intros a HI; [simpl; unfold changesIn; simpl; lia|].
  cbn [AutoSave.run fold_left].
  change (fold_left AutoSave.step evs (AutoSave.step a ev))
    with (AutoSave.run evs (AutoSave.step a ev)).
  specialize (IH _ (AutoSaveInv_step a ev HI)).
  assert (Hstep : (AutoSave.autoSaves (AutoSave.step a ev)
                   + List.length (AutoSave.pending (AutoSave.step a ev))
                   <= AutoSave.autoSaves a + List.length (AutoSave.pending a)
                      + changesIn [ev])%nat).
  { destruct HI as (Hp & Hh & Hn).
    destruct ev as [| | h]; unfold changesIn; simpl.
    - lia.
    - destruct (AutoSave.skipNextAutoSaveRef a) eqn:S.
      + unfold AutoSave.effect. simpl. rewrite S. simpl. lia.
      + destruct (AutoSaveInv_schedule a (conj Hp (conj Hh Hn)) S) as (E1 & _ & _ & E4 & _).
        rewrite E1, E4. simpl. lia.
    - unfold AutoSave.timeout. rewrite Hp.
      destruct (AutoSave.autoSaveTimerRef a) as [h0|] eqn:R; simpl;
        [|rewrite ?Hp, ?R; simpl; lia].
      destruct (Nat.eqb_spec h h0) as [->|Hne]; simpl;
        [|rewrite ?Hp, ?R; simpl; lia].
      rewrite Nat.eqb_refl. simpl. lia. }
  unfold changesIn in *. simpl in *.
  destruct ev; simpl in *; lia.
Qed.

(** X11: whatever documents are loaded, however often the document is
    changed and whichever timeouts run, the browser holds at most one
    autosave timeout, the one [autoSaveTimerRef] names, and the automatic
    saves done or pending never outnumber the changes: loading a document
    causes no save. *)
Theorem autosave_single_timer (evs : list AutoSave.Event) :
  let a := AutoSave.run evs AutoSave.initial in
  AutoSave.pending a
  = match AutoSave.autoSaveTimerRef a with Some h => [h] | None => [] end
  /\ (List.length (AutoSave.pending a) <= 1)%nat
  /\ (AutoSave.autoSaves a + List.length (AutoSave.pending a) <= changesIn evs)%nat.
Proof.
  intros a.
  pose proof (AutoSaveInv_run evs _ AutoSaveInv_initial) as HI. fold a in HI.
  pose proof (autoSaves_bound evs _ AutoSaveInv_initial) as Hb. fold a in Hb.
  destruct HI as (Hp & _). split; [exact Hp|]. split.
  - rewrite Hp. destruct (AutoSave.autoSaveTimerRef a); simpl; lia.
  - simpl in Hb. lia.
Qed.

Lemma changed_burst (k : nat) (a : AutoSave.t) :
  AutoSaveInv a -> AutoSave.skipNextAutoSaveRef a = false ->
  AutoSave.pending (AutoSave.run (repeat AutoSave.Changed (S k)) a)
  = [(AutoSave.nextHandle a + k)%nat]
  /\ AutoSave.autoSaves (AutoSave.run (repeat AutoSave.Changed (S k)) a)
     = AutoSave.autoSaves a.
Proof.
  revert a. induction k as [|k IH]; intros a HI Hskip.
  - destruct (AutoSaveInv_schedule a HI Hskip) as (E1 & _ & _ & E4 & _).
    change (AutoSave.run (repeat AutoSave.Changed 1) a) with (AutoSave.effect true a).
    rewrite E1, E4, Nat.add_0_r. auto.
  - change (AutoSave.run (repeat AutoSave.Changed (S (S k))) a)
      with (AutoSave.run (repeat AutoSave.Changed (S k)) (AutoSave.effect true a)).
    destruct (AutoSaveInv_schedule a HI Hskip) as (_ & _ & E3 & E4 & E5).
    destruct (IH (AutoSave.effect true a)
                 (AutoSaveInv_step a AutoSave.Changed HI) E5) as [P S].
    rewrite P, S, E3, E4. split; [f_equal; lia | reflexivity].
Qed.

(** X12: debouncing.  Loading a document schedules nothing and saves
    nothing.  However many changes follow it before a timeout runs, one
    timeout is pending; when it runs, one automatic save is started and no
    timeout is left.  A timeout that was replaced does nothing. *)
Theorem autosave_debounce (evs : list AutoSave.Event) (k : nat) :
  let a := AutoSave.run evs AutoSave.initial in
  let loaded := AutoSave.step a AutoSave.Loaded in
  let a' := AutoSave.run (repeat AutoSave.Changed (S k)) loaded in
  AutoSave.pending loaded = AutoSave.pending a
  /\ AutoSave.autoSaves loaded = AutoSave.autoSaves a
  /\ exists h,
       AutoSave.pending a' = [h]
       /\ AutoSave.autoSaves a' = AutoSave.autoSaves a
       /\ AutoSave.pending (AutoSave.timeout h a') = []
       /\ AutoSave.autoSaves (AutoSave.timeout h a') = S (AutoSave.autoSaves a)
       /\ forall h', h' <> h -> AutoSave.timeout h' a' = a'.
Proof.
  intros a loaded a'.
  pose proof (AutoSaveInv_run evs _ AutoSaveInv_initial) as HI. fold a in HI.
  assert (HL : AutoSaveInv loaded) by apply (AutoSaveInv_step a AutoSave.Loaded HI).
  assert (Hskip : AutoSave.skipNextAutoSaveRef loaded = false) by reflexivity.
  split; [reflexivity|]. split; [reflexivity|].
  destruct (changed_burst k loaded HL Hskip) as [P S]. fold a' in P, S.
  exists (AutoSave.nextHandle loaded + k)%nat.
  split; [exact P|]. split; [exact S|].
  unfold AutoSave.timeout. rewrite P. cbn [existsb filter].
  rewrite !Nat.eqb_refl. cbn [orb negb AutoSave.pending AutoSave.autoSaves].
  rewrite S. repeat split.
  intros h' Hne. destruct (Nat.eqb_spec h' (AutoSave.nextHandle loaded + k)) as [->|_];
    [contradiction | reflexivity].
Qed.

Lemma autosave_debounce_witness :
  AutoSave.autoSaves
    (AutoSave.run [AutoSave.Loaded; AutoSave.Changed; AutoSave.Changed;
                   AutoSave.Changed; AutoSave.Timeout 1; AutoSave.Timeout 3]
       AutoSave.initial)
  = 1%nat.
Proof.
  destruct (autosave_debounce [] 2) as (_ & _ & h & P & _ & _ & S & Hstale).
  injection P as <-.
  change (AutoSave.run _ AutoSave.initial)
    with (AutoSave.timeout 3
            (AutoSave.timeout 1
               (AutoSave.run (repeat AutoSave.Changed 3)
                  (AutoSave.step (AutoSave.run [] AutoSave.initial) AutoSave.Loaded)))).
  rewrite (Hstale 1%nat) by discriminate. exact S.
Defined.

(** ** Scroll position *)

(** X13: the scroll position written on a scroll event is the one read
    back on an element of the same scroll range, whether the element can
    scroll or not.  When nothing was stored, or what was stored cannot be
    read, the position is left alone. *)
Theorem scroll_round_trip (el el' : Scroll.El) :
  Scroll.maxScroll el' == Scroll.maxScroll el ->
  Scroll.scrollTop (Scroll.restoreScrollPosition (Scroll.handleScroll el) el')
  == Scroll.scrollTop el
  /\ Scroll.restoreScrollPosition Scroll.NoItem el' = el'
  /\ Scroll.restoreScrollPosition Scroll.Unreadable el' = el'.
Proof.
  intros Hmax. split; [|split; reflexivity].
  unfold Scroll.restoreScrollPosition, Scroll.handleScroll. simpl.
  destruct (Qgtb (Scroll.maxScroll el') 0) eqn:E'.
  - apply Qgtb_lt in E'.
    assert (E : Qgtb (Scroll.maxScroll el) 0 = true)
      by (apply Qgtb_lt; rewrite <- Hmax; exact E').
    rewrite E. simpl. rewrite Hmax. field.
    intros H0. rewrite Hmax, H0 in E'. now apply (Qlt_irrefl 0).
  - reflexivity.
Qed.

Lemma scroll_round_trip_witness :
  Scroll.scrollTop
    (Scroll.restoreScrollPosition
       (Scroll.handleScroll
          {| Scroll.scrollTop := 300; Scroll.scrollHeight := 2000;
             Scroll.clientHeight := 800 |})
       {| Scroll.scrollTop := 0; Scroll.scrollHeight := 2000;
          Scroll.clientHeight := 800 |})
  == 300.
Proof.
  apply (scroll_round_trip
           {| Scroll.scrollTop := 300; Scroll.scrollHeight := 2000;
              Scroll.clientHeight := 800 |}
           {| Scroll.scrollTop := 0; Scroll.scrollHeight := 2000;
              Scroll.clientHeight := 800 |}).
  reflexivity.
Defined.

(** X14: restoring on an element of another size.  A position saved
    within the scroll range of an element that could scroll is restored at
    the same fraction of the new range, hence within it; on an element that
    cannot scroll the saved offset itself is restored. *)
Theorem scroll_proportional (el el' : Scroll.El) :
  0 <= Scroll.scrollTop el ->
  Scroll.scrollTop el <= Scroll.maxScroll el ->
  0 < Scroll.maxScroll el ->
  let restored := Scroll.restoreScrollPosition (Scroll.handleScroll el) el' in
  (0 < Scroll.maxScroll el' ->
   0 <= Scroll.scrollTop restored
   /\ Scroll.scrollTop restored <= Scroll.maxScroll el'
   /\ Scroll.scrollTop restored * Scroll.maxScroll el
      == Scroll.scrollTop el * Scroll.maxScroll el')
  /\ (Scroll.maxScroll el' == 0 -> Scroll.scrollTop restored = Scroll.scrollTop el).
Proof.
  intros Hlo Hhi Hm restored. unfold restored.
  unfold Scroll.restoreScrollPosition, Scroll.handleScroll. simpl.
  assert (E : Qgtb (Scroll.maxScroll el) 0 = true) by now apply Qgtb_lt.
  rewrite E. split.
  - intros Hm'.
    assert (E' : Qgtb (Scroll.maxScroll el') 0 = true) by now apply Qgtb_lt.
    rewrite E'. simpl.
    set (s := Scroll.scrollTop el) in *. set (m := Scroll.maxScroll el) in *.
    set (m' := Scroll.maxScroll el') in *.
    assert (Hi : 0 < / m) by now apply Qinv_lt_0_compat.
    assert (Hone : m * / m == 1) by (apply Qmult_inv_r; lra).
    unfold Qdiv.
    assert (H1 : 0 <= s * / m) by (apply Qmult_le_0_compat; lra).
    assert (H2 : 0 <= (m - s) * / m) by (apply Qmult_le_0_compat; lra).
    assert (H3 : s * / m <= 1) by lra.
    repeat split.
    + apply Qmult_le_0_compat; lra.
    + setoid_replace m' with (1 * m') at 2 by ring.
      apply Qmult_le_compat_r; lra.
    + field. lra.
  - intros H0.
    assert (E' : Qgtb (Scroll.maxScroll el') 0 = false).
    { destruct (Qgtb (Scroll.maxScroll el') 0) eqn:G; [|reflexivity].
      apply Qgtb_lt in G. rewrite H0 in G. exfalso. now apply (Qlt_irrefl 0). }
    now rewrite E'.
Qed.

Lemma scroll_proportional_witness :
  Scroll.scrollTop
    (Scroll.restoreScrollPosition
       (Scroll.handleScroll
          {| Scroll.scrollTop := 300; Scroll.scrollHeight := 2000;
             Scroll.clientHeight := 800 |})
       {| Scroll.scrollTop := 0; Scroll.scrollHeight := 3200;
          Scroll.clientHeight := 800 |})
  <= Scroll.maxScroll
       {| Scroll.scrollTop := 0; Scroll.scrollHeight := 3200;
          Scroll.clientHeight := 800 |}.
Proof.
  apply (proj1 (scroll_proportional
           {| Scroll.scrollTop := 300; Scroll.scrollHeight := 2000;
              Scroll.clientHeight := 800 |}
           {| Scroll.scrollTop := 0; Scroll.scrollHeight := 3200;
              Scroll.clientHeight := 800 |}
           ltac:(discriminate) ltac:(discriminate) ltac:(reflexivity))).
  reflexivity.
Defined.

(* ================================================================== *)
(** * Further properties of the document store                         *)
(* ================================================================== *)

(** ** Finding a record *)

Lemma find_split {A : Type} (p : A -> bool) (l : list A) (a : A) :
  find p l = Some a ->
  exists l1 l2, l = l1 ++ a :: l2 /\ (forall x, In x l1 -> p x = false) /\ p a = true.
Proof.
  induction l as [|b l IH]; simpl; [discriminate|].
  destruct (p b) eqn:E.
  - intros [= ->]. exists [], l. repeat split; [intros x []|exact E].
  - intros H. destruct (IH H) as (l1 & l2 & -> & Hl1 & Ha).
    exists (b :: l1), l2. repeat split; [|exact Ha].
    intros x [<- | Hx]; auto.
Qed.

Lemma find_at_split {A : Type} (p : A -> bool) (l1 l2 : list A) (a : A) :
  (forall x, In x l1 -> p x = false) -> p a = true ->
  find p (l1 ++ a :: l2) = Some a
  /\ Server.findIndex p (l1 ++ a :: l2) = Some (List.length l1)
  /\ nth_error (l1 ++ a :: l2) (List.length l1) = Some a.
Proof.
  intros Hl1 Ha. induction l1 as [|b l1 IH]; simpl.
  - now rewrite Ha.
  - rewrite (Hl1 b (or_introl eq_refl)).
    destruct IH as (-> & -> & ->); [intros x Hx; apply Hl1; now right|]. auto.
Qed.

Lemma find_skip {A : Type} (p : A -> bool) (l1 l2 : list A) :
  (forall x, In x l1 -> p x = false) -> find p (l1 ++ l2) = find p l2.
Proof.
  intros Hl1. induction l1 as [|b l1 IH]; simpl; [reflexivity|].
  rewrite (Hl1 b (or_introl eq_refl)). apply IH. intros x Hx. apply Hl1. now right.
Qed.

Lemma find_other {A : Type} (q : A -> bool) (l1 l2 : list A) (a : A) :
  q a = false -> find q (l1 ++ a :: l2) = find q (l1 ++ l2).
Proof.
  intros Ha. induction l1 as [|b l1 IH]; simpl; [now rewrite Ha|].
  now destruct (q b).
Qed.

Lemma assign_at_split {A : Type} (l1 l2 : list A) (a v : A) :
  Server.assign (List.length l1) v (l1 ++ a :: l2) = l1 ++ v :: l2.
Proof. induction l1 as [|b l1 IH]; simpl; [reflexivity | now rewrite IH]. Qed.

Lemma removeAt_at_split {A : Type} (l1 l2 : list A) (a : A) :
  Api.removeAt (List.length l1) (l1 ++ a :: l2) = l1 ++ l2.
Proof. induction l1 as [|b l1 IH]; simpl; [reflexivity | now rewrite IH]. Qed.

Lemma hasId_false_notin (id : string) (l : list Server.Stored.t) :
  (forall x, In x l -> Server.hasId id x = false) <-> ~ In id (map Server.Stored.id l).
Proof.
  split.
  - intros H Hin. apply in_map_iff in Hin. destruct Hin as (x & Hid & Hx).
    specialize (H x Hx). unfold Server.hasId in H. apply String.eqb_neq in H. contradiction.
  - intros H x Hx. unfold Server.hasId. apply String.eqb_neq.
    intros Hid. apply H. rewrite <- Hid. now apply in_map.
Qed.

Lemma put_at_split (id : string) (body : Server.Body.t)
  (l1 l2 : list Server.Stored.t) (old : Server.Stored.t) :
  (forall x, In x l1 -> Server.hasId id x = false) ->
  Server.hasId id old = true ->
  Server.put id body (l1 ++ old :: l2)
  = (l1 ++ Server.merge old body :: l2, Server.Sent 200 (Server.merge old body)).
Proof.
  intros Hl1 Hold. unfold Server.put.
  destruct (find_at_split _ l1 l2 old Hl1 Hold) as (_ & -> & ->).
  rewrite assign_at_split.
  assert (Hm : Server.hasId id (Server.merge old body) = true) by exact Hold.
  destruct (find_at_split _ l1 l2 (Server.merge old body) Hl1 Hm) as (_ & _ & ->).
  reflexivity.
Qed.

Lemma merge_idempotent (old : Server.Stored.t) (body : Server.Body.t) :
  Server.merge (Server.merge old body) body = Server.merge old body.
Proof.
  unfold Server.merge. simpl. f_equal;
    match goal with
    | |- Server.coalesce ?a _ = _ => destruct a as [[]|]; reflexivity
    end.
Qed.

(** ** PUT *)

(** X15: a [PUT] repeated with the same body changes nothing more: the
    store and the response are those of the first one.  A [PUT] never
    changes which ids the store holds, nor their order. *)
Theorem put_idempotent (id : string) (body : Server.Body.t) (db : Server.DB) :
  Server.put id body (fst (Server.put id body db)) = Server.put id body db
  /\ map Server.Stored.id (fst (Server.put id body db)) = map Server.Stored.id db.
Proof.
  destruct (find (Server.hasId id) db) as [old|] eqn:Hfind.
  - destruct (find_split _ _ _ Hfind) as (l1 & l2 & -> & Hl1 & Hold).
    rewrite (put_at_split id body l1 l2 old Hl1 Hold). simpl. split.
    + rewrite (put_at_split id body l1 l2 (Server.merge old body) Hl1 Hold).
      now rewrite merge_idempotent.
    + now rewrite !map_app.
  - unfold Server.put. rewrite (findIndex_None _ _ Hfind). simpl.
    now rewrite (findIndex_None _ _ Hfind).
Qed.

(** X16: saving the edit dialog of the home page.  The stored title and
    author become the texts of the dialog, empty texts included; the
    annotations, the journal and every other property of the record are
    kept, and a later [GET] of the id returns that record. *)
Theorem edit_keeps_annotations (id title author : string) (db : Server.DB)
  (old : Server.Stored.t) :
  find (Server.hasId id) db = Some old ->
  exists updated,
    Server.get id (fst (Server.put id (Api.editBody title author) db))
    = Server.Sent 200 updated
    /\ Server.Stored.title updated = Some (JString title)
    /\ Server.Stored.author updated = Some (JString author)
    /\ Server.Stored.annotations updated = Server.Stored.annotations old
    /\ Server.Stored.journal updated = Server.Stored.journal old
    /\ Server.Stored.others updated = Server.Stored.others old.
Proof.
  intros Hfind. destruct (find_split _ _ _ Hfind) as (l1 & l2 & -> & Hl1 & Hold).
  rewrite (put_at_split id _ l1 l2 old Hl1 Hold). simpl.
  exists (Server.merge old (Api.editBody title author)).
  unfold Server.get.
  assert (Hm : Server.hasId id (Server.merge old (Api.editBody title author)) = true)
    by exact Hold.
  destruct (find_at_split _ l1 l2 _ Hl1 Hm) as (-> & _ & _).
  repeat split.
Qed.

Lemma edit_keeps_annotations_witness :
  exists updated,
    Server.get "doc" (fst (Server.put "doc" (Api.editBody EmptyString "A. Author")
                             [sampleStored]))
    = Server.Sent 200 updated
    /\ Server.Stored.title updated = Some (JString EmptyString)
    /\ Server.Stored.annotations updated = Server.Stored.annotations sampleStored.
Proof.
  destruct (edit_keeps_annotations "doc" EmptyString "A. Author" [sampleStored]
              sampleStored eq_refl)
    as (updated & Hget & Ht & _ & Ha & _).
  exists updated. repeat split; assumption.
Defined.

(** ** Upload *)

(** X17: an upload without a file answers 400 and leaves the store as it
    is.  An upload with a file appends one record, answered with status
    201, that has no annotations; the records already stored are read as
    before.  A [GET] of the new id returns the new record when no stored
    record had that id; otherwise it still returns the older record. *)
Theorem upload_appends (uuid createdAt : string) (db : Server.DB) :
  Api.upload None uuid createdAt db = (db, Server.SentText 400)
  /\ forall file,
       let pdf := Api.newPdf uuid file createdAt in
       let db' := fst (Api.upload (Some file) uuid createdAt db) in
       snd (Api.upload (Some file) uuid createdAt db) = Server.Sent 201 pdf
       /\ Api.getAll db' = Api.getAll db ++ [pdf]
       /\ Server.Stored.annotations pdf = Some (JArray [])
       /\ (forall id, id <> uuid -> Server.get id db' = Server.get id db)
       /\ (~ In uuid (map Server.Stored.id db) -> Server.get uuid db' = Server.Sent 200 pdf)
       /\ (In uuid (map Server.Stored.id db) -> Server.get uuid db' = Server.get uuid db).
Proof.
  split; [reflexivity|]. intros file pdf db'.
  assert (Hpdf : Server.hasId uuid pdf = true) by apply String.eqb_refl.
  repeat split.
  - intros id Hne. change (Server.get id (db ++ [pdf]) = Server.get id db).
    unfold Server.get.
    assert (Hno : Server.hasId id pdf = false).
    { unfold Server.hasId. simpl. now apply String.eqb_neq. }
    now rewrite (find_other _ db [] pdf Hno), app_nil_r.
  - intros Hfresh. change (Server.get uuid (db ++ [pdf]) = Server.Sent 200 pdf).
    unfold Server.get.
    pose proof (proj2 (hasId_false_notin uuid db) Hfresh) as Hno.
    destruct (find_at_split _ db [] pdf Hno Hpdf) as (-> & _). reflexivity.
  - intros Hin. change (Server.get uuid (db ++ [pdf]) = Server.get uuid db).
    unfold Server.get.
    apply in_map_iff in Hin. destruct Hin as (x & Hid & Hx).
    assert (Hsome : exists old, find (Server.hasId uuid) db = Some old).
    { destruct (find (Server.hasId uuid) db) eqn:F; [eauto|].
      apply (find_none _ _ F) in Hx. unfold Server.hasId in Hx.
      apply String.eqb_neq in Hx. contradiction. }
    destruct Hsome as (old & F).
    destruct (find_split _ _ _ F) as (l1 & l2 & E & Hl1 & Hold).
    rewrite F, E, <- app_assoc. simpl.
    now destruct (find_at_split _ l1 (l2 ++ [pdf]) old Hl1 Hold) as (-> & _).
Qed.

Lemma upload_appends_witness :
  Server.get "new"
    (fst (Api.upload (Some {| Api.originalname := "Paper.PDF"; Api.filename := "file-1.PDF" |})
            "new" "2025-01-01" [sampleStored]))
  = Server.Sent 200
      (Api.newPdf "new" {| Api.originalname := "Paper.PDF"; Api.filename := "file-1.PDF" |}
         "2025-01-01").
Proof.
  apply (proj2 (upload_appends "new" "2025-01-01" [sampleStored])
           {| Api.originalname := "Paper.PDF"; Api.filename := "file-1.PDF" |}).
  simpl. intros [H | []]. discriminate.
Defined.

(** ** The title of an upload *)

Lemma list_ascii_of_string_app (s1 s2 : string) :
  list_ascii_of_string (s1 ++ s2) = list_ascii_of_string s1 ++ list_ascii_of_string s2.
Proof. induction s1 as [|c s1 IH]; simpl; [reflexivity | now rewrite IH]. Qed.

Lemma string_of_list_ascii_app (l1 l2 : list ascii) :
  string_of_list_ascii (l1 ++ l2)
  = (string_of_list_ascii l1 ++ string_of_list_ascii l2)%string.
Proof. induction l1 as [|c l1 IH]; simpl; [reflexivity | now rewrite IH]. Qed.

Lemma toLowerCaseAscii_dot (c : ascii) : toLowerCaseAscii c = "."%char -> c = "."%char.
Proof.
  destruct c as [[] [] [] [] [] [] [] []]; vm_compute; intros H;
    solve [reflexivity | discriminate H].
Qed.

Lemma toLowerCaseAscii_of_dot : toLowerCaseAscii "." = "."%char.
Proof. reflexivity. Qed.

(** X18: the title given to an upload.  A final [.pdf], in any mix of
    letter cases, is removed from the file name, once; a name without it
    is kept whole.  So the name is always the title followed by nothing or
    by such an extension. *)
Theorem stripPdf_extension :
  (forall name ext,
      String.length ext = 4%nat -> toLowerCase ext = ".pdf"%string ->
      Api.stripPdf (name ++ ext) = name)
  /\ (forall name,
         exists ext,
           name = (Api.stripPdf name ++ ext)%string
           /\ (ext = EmptyString
               \/ (String.length ext = 4%nat /\ toLowerCase ext = ".pdf"%string))).
Proof.
  split.
  - intros name ext Hlen Hlow.
    destruct ext as [|c1 [|c2 [|c3 [|c4 [|c5 ext]]]]]; try discriminate Hlen.
    simpl in Hlow. injection Hlow as H1 H2 H3 H4.
    apply toLowerCaseAscii_dot in H1. subst c1.
    unfold Api.stripPdf, Api.endsWithPdf.
    rewrite list_ascii_of_string_app, rev_app_distr. simpl.
    rewrite H2, H3, H4. simpl.
    rewrite rev_involutive. apply string_of_list_ascii_of_string.
  - intros name. unfold Api.stripPdf.
    destruct (Api.endsWithPdf name) eqn:E.
    + unfold Api.endsWithPdf in E.
      destruct (rev (list_ascii_of_string name)) as [|f [|d [|p [|dot rest]]]] eqn:R;
        try discriminate E.
      apply andb_true_iff in E. destruct E as [E Ef].
      apply andb_true_iff in E. destruct E as [E Ed].
      apply andb_true_iff in E. destruct E as [Edot Ep].
      apply Ascii.eqb_eq in Edot, Ep, Ed, Ef. subst dot.
      exists (String "." (String p (String d (String f EmptyString)))).
      split.
      * rewrite <- (string_of_list_ascii_of_string name) at 1.
        rewrite <- (rev_involutive (list_ascii_of_string name)), R. simpl.
        rewrite <- !app_assoc. simpl. now rewrite string_of_list_ascii_app.
      * right. split; [reflexivity|]. simpl. now rewrite Ep, Ed, Ef.
    + exists EmptyString. split; [|now left].
      clear E. induction name as [|c name IH]; simpl; [reflexivity | now rewrite <- IH].
Qed.

Lemma stripPdf_extension_witness : Api.stripPdf "notes.pdf.PdF" = "notes.pdf"%string.
Proof.
  apply (proj1 stripPdf_extension "notes.pdf"%string ".PdF"%string); reflexivity.
Defined.

(** ** Delete *)

Lemma deletePdf_at_split (id : string) (l1 l2 : list Server.Stored.t)
  (d : Server.Stored.t) :
  (forall x, In x l1 -> Server.hasId id x = false) ->
  Server.hasId id d = true ->
  Api.deletePdf id (l1 ++ d :: l2) = Api.Deleted (l1 ++ l2) d.
Proof.
  intros Hl1 Hd. unfold Api.deletePdf.
  destruct (find_at_split _ l1 l2 d Hl1 Hd) as (_ & -> & ->).
  now rewrite removeAt_at_split.
Qed.

(** X19: deleting a document.  The store answers 404 and writes
    nothing exactly when no record has the id.  Otherwise it removes one
    record, the first with that id, the one a [GET] returned; the other
    records keep their order and are read as before; and with unique ids
    the id is gone: a [GET] of it answers 404. *)
Theorem deletePdf_effect (id : string) (db : Server.DB) :
  (Api.deletePdf id db = Api.NotFound <-> find (Server.hasId id) db = None)
  /\ forall db' d,
       Api.deletePdf id db = Api.Deleted db' d ->
       Server.get id db = Server.Sent 200 d
       /\ (exists l1 l2,
             db = l1 ++ d :: l2 /\ db' = l1 ++ l2
             /\ ~ In id (map Server.Stored.id l1))
       /\ (forall id', id' <> id -> Server.get id' db' = Server.get id' db)
       /\ (NoDup (map Server.Stored.id db) -> Server.get id db' = Server.SentText 404).
Proof.
  destruct (find (Server.hasId id) db) as [old|] eqn:Hfind.
  - destruct (find_split _ _ _ Hfind) as (l1 & l2 & E & Hl1 & Hold).
    rewrite E in *. rewrite (deletePdf_at_split id l1 l2 old Hl1 Hold).
    split; [split; discriminate|].
    intros db' d [= <- <-].
    assert (Hid : Server.Stored.id old = id) by now apply String.eqb_eq.
    split; [unfold Server.get; now rewrite Hfind|]. split; [|split].
    + exists l1, l2. repeat split. now apply hasId_false_notin.
    + intros id' Hne. unfold Server.get.
      assert (Hno : Server.hasId id' old = false).
      { unfold Server.hasId. apply String.eqb_neq. congruence. }
      now rewrite (find_other _ l1 l2 old Hno).
    + intros Hnd. unfold Server.get.
      rewrite map_app in Hnd. simpl in Hnd. apply NoDup_remove_2 in Hnd.
      rewrite Hid in Hnd.
      assert (Hl2 : forall x, In x l2 -> Server.hasId id x = false).
      { apply hasId_false_notin. intros Hin. apply Hnd, in_or_app. now right. }
      rewrite (find_skip _ l1 l2 Hl1).
      destruct (find (Server.hasId id) l2) as [x|] eqn:F; [|reflexivity].
      apply find_some in F. destruct F as [Hx Hp]. rewrite (Hl2 x Hx) in Hp. discriminate.
  - unfold Api.deletePdf. rewrite (findIndex_None _ _ Hfind).
    split; [split; reflexivity|]. intros db' d H. discriminate H.
Qed.

Lemma deletePdf_effect_witness :
  Server.get "doc" [] = Server.SentText 404.
Proof.
  apply (proj2 (proj2 (proj2 (proj2 (deletePdf_effect "doc" [sampleStored])
           [] sampleStored eq_refl)))).
  repeat constructor. simpl. tauto.
Defined.

(** X20: deleting what was just uploaded gives back the store as it was,
    provided the new id was not already in use. *)
Theorem upload_then_delete (file : Api.UploadedFile) (uuid createdAt : string)
  (db : Server.DB) :
  ~ In uuid (map Server.Stored.id db) ->
  Api.deletePdf uuid (fst (Api.upload (Some file) uuid createdAt db))
  = Api.Deleted db (Api.newPdf uuid file createdAt).
Proof.
  intros Hfresh. simpl.
  rewrite (deletePdf_at_split uuid db [] (Api.newPdf uuid file createdAt)).
  - now rewrite app_nil_r.
  - now apply hasId_false_notin.
  - apply String.eqb_refl.
Qed.

Lemma upload_then_delete_witness :
  Api.deletePdf "new"
    (fst (Api.upload (Some {| Api.originalname := "Paper.PDF"; Api.filename := "file-1.PDF" |})
            "new" "2025-01-01" [sampleStored]))
  = Api.Deleted [sampleStored]
      (Api.newPdf "new" {| Api.originalname := "Paper.PDF"; Api.filename := "file-1.PDF" |}
         "2025-01-01").
Proof.
  apply upload_then_delete. simpl. intros [H | []]. discriminate.
Defined.

(* ================================================================== *)
(** * The document between page and store                              *)
(* ================================================================== *)

Lemma traverse_map {A B : Type} (enc : A -> B) (dec : B -> option A) (l : list A) :
  (forall a, dec (enc a) = Some a) ->
  Wire.traverse dec (map enc l) = Some l.
Proof.
  intros H. induction l as [|a l IH]; simpl; [reflexivity|]. now rewrite H, IH.
Qed.

Lemma rectOfJson_rectToJson (r : Rect.t) : Wire.rectOfJson (Wire.rectToJson r) = Some r.
Proof. now destruct r. Qed.

Lemma indexOfJson_of_N (k : N) :
  Wire.indexOfJson (Some (JNumber (inject_Z (Z.of_N k)))) = Some k.
Proof.
  unfold Wire.indexOfJson. simpl.
  assert (H : Z.leb 0 (Z.of_N k) = true) by (apply Z.leb_le, N2Z.is_nonneg).
  now rewrite H, N2Z.id.
Qed.

Lemma annotationOfJson_annotationToJson (a : Annotation.t) :
  Wire.annotationOfJson (Wire.annotationToJson a) = Some a.
Proof.
  destruct a as [i t k rs n].
  unfold Wire.annotationOfJson, Wire.annotationToJson.
  cbn [Annotation.id Annotation.type Annotation.pageIndex Annotation.rects Annotation.note].
  assert (Hid : Wire.stringOf (Wire.getProp "id"
                  (JObject ([("id"%string, JString i);
                             ("type"%string, Wire.typeToJson t);
                             ("pageIndex"%string, JNumber (inject_Z (Z.of_N k)));
                             ("rects"%string, JArray (map Wire.rectToJson rs))]
                            ++ match n with
                               | Some n0 => [("note"%string, JString n0)]
                               | None => []
                               end))) = Some i) by reflexivity.
  assert (Htype : Wire.typeOfJson (Wire.getProp "type"
                  (JObject ([("id"%string, JString i);
                             ("type"%string, Wire.typeToJson t);
                             ("pageIndex"%string, JNumber (inject_Z (Z.of_N k)));
                             ("rects"%string, JArray (map Wire.rectToJson rs))]
                            ++ match n with
                               | Some n0 => [("note"%string, JString n0)]
                               | None => []
                               end))) = Some t) by now destruct t.
  assert (Hidx : Wire.indexOfJson (Wire.getProp "pageIndex"
                  (JObject ([("id"%string, JString i);
                             ("type"%string, Wire.typeToJson t);
                             ("pageIndex"%string, JNumber (inject_Z (Z.of_N k)));
                             ("rects"%string, JArray (map Wire.rectToJson rs))]
                            ++ match n with
                               | Some n0 => [("note"%string, JString n0)]
                               | None => []
                               end))) = Some k) by apply indexOfJson_of_N.
  assert (Hrects : Wire.rectsOfJson (Wire.getProp "rects"
                  (JObject ([("id"%string, JString i);
                             ("type"%string, Wire.typeToJson t);
                             ("pageIndex"%string, JNumber (inject_Z (Z.of_N k)));
                             ("rects"%string, JArray (map Wire.rectToJson rs))]
                            ++ match n with
                               | Some n0 => [("note"%string, JString n0)]
                               | None => []
                               end))) = Some rs)
    by apply (traverse_map _ _ rs rectOfJson_rectToJson).
  assert (Hnote : Wire.noteOfJson (Wire.getProp "note"
                  (JObject ([("id"%string, JString i);
                             ("type"%string, Wire.typeToJson t);
                             ("pageIndex"%string, JNumber (inject_Z (Z.of_N k)));
                             ("rects"%string, JArray (map Wire.rectToJson rs))]
                            ++ match n with
                               | Some n0 => [("note"%string, JString n0)]
                               | None => []
                               end))) = Some n) by now destruct n.
  now rewrite Hid, Htype, Hidx, Hrects, Hnote.
Qed.

(** X21: saving and loading.  When the store holds a record with the id
    of the open document, whose path is the document's, then after
    [saveAnnotations] a [GET] of the id returns a record that reads back as
    the very document of the page: same title, same annotations with their
    rects, page indices, types and notes, in the same order. *)
Theorem save_then_load (author journal : Server.Prop_) (st : State) (pdf : PDF.t)
  (db : Server.DB) (old : Server.Stored.t) :
  currentPdf st = Some pdf ->
  find (Server.hasId (PDF.id pdf)) db = Some old ->
  Wire.getProp "path" (JObject (Server.Stored.others old))
  = Some (JString (PDF.path pdf)) ->
  exists r,
    Server.get (PDF.id pdf) (Wire.saveAnnotations author journal st db)
    = Server.Sent 200 r
    /\ Wire.pdfOf r = Some pdf.
Proof.
  intros Hpdf Hfind Hpath.
  destruct (find_split _ _ _ Hfind) as (l1 & l2 & -> & Hl1 & Hold).
  unfold Wire.saveAnnotations. rewrite Hpdf.
  rewrite (put_at_split _ (Wire.bodyOf author journal pdf) l1 l2 old Hl1 Hold). simpl.
  exists (Server.merge old (Wire.bodyOf author journal pdf)).
  assert (Hm : Server.hasId (PDF.id pdf)
                 (Server.merge old (Wire.bodyOf author journal pdf)) = true)
    by exact Hold.
  unfold Server.get.
  destruct (find_at_split _ l1 l2 _ Hl1 Hm) as (-> & _ & _).
  split; [reflexivity|].
  set (r := Server.merge old (Wire.bodyOf author journal pdf)).
  assert (Ht : Server.Stored.title r = Some (JString (PDF.title pdf))) by reflexivity.
  assert (Ho : Server.Stored.others r = Server.Stored.others old) by reflexivity.
  assert (Ha : Server.Stored.annotations r
               = Some (JArray (map Wire.annotationToJson (PDF.annotations pdf))))
    by reflexivity.
  assert (Hi : Server.Stored.id r = PDF.id pdf) by now apply String.eqb_eq.
  unfold Wire.pdfOf. rewrite Ht, Ho, Ha, Hi, Hpath.
  cbn [Wire.stringOf].
  rewrite (traverse_map _ _ _ annotationOfJson_annotationToJson).
  now destruct pdf.
Qed.

Lemma save_then_load_witness :
  exists r,
    Server.get "doc"
      (Wire.saveAnnotations (Some (JString EmptyString)) None
         (run sampleEdits (fetched (PDF.mk "doc" "Paper" "/files/doc.pdf" [])
                             (setAnnotationMode (annotate highlight) initialState)))
         [sampleStored])
    = Server.Sent 200 r
    /\ Wire.pdfOf r
       = currentPdf
           (run sampleEdits (fetched (PDF.mk "doc" "Paper" "/files/doc.pdf" [])
                               (setAnnotationMode (annotate highlight) initialState))).
Proof.
  destruct (save_then_load (Some (JString EmptyString)) None
              (run sampleEdits (fetched (PDF.mk "doc" "Paper" "/files/doc.pdf" [])
                                  (setAnnotationMode (annotate highlight) initialState)))
              (PDF.mk "doc" "Paper" "/files/doc.pdf"
                 [Annotation.mk (sampleUuid 0) highlight 0
                    [relativeRect sampleRect (PageLayer.rect samplePage)]
                    (Some "an idea"%string)])
              [sampleStored] sampleStored eq_refl eq_refl eq_refl)
    as (r & Hget & Hread).
  exists r. split; [exact Hget | exact Hread].
Defined.
